(** * Attendance Automator: identity reconciliation and aggregation engine

    A shallow embedding of [backend/app/attendance_automator.py] and of
    [AttendanceService._run_processing] in
    [backend/app/services/attendance_service.py], with the properties of the
    specification stated on it.

    Conventions of the embedding.
    - A pandas DataFrame is a list of row records, in row order; a row of an
      attendance table carries its index label, as a DataFrame row does.
    - A CSV cell is [option string]: [None] is NaN (an empty cell).  Columns
      are text columns: [astype(str)] renders NaN as the text [nan] (pandas
      2.x), and the dtype bookkeeping of pandas (such as its refusal to merge
      a text key column with an all-NaN one) is left out.
    - The discovery of the attendance columns by header name is taken as
      done: an attendance CSV says which of the four columns were found.  A
      roster CSV says which of its four recognized headers it has.
    - A timestamp is [option Z] (nanoseconds since the epoch, [None] is NaT),
      a calendar date is [option Z] (days since the epoch, [None] is NaT).
      [pd.to_datetime] is a parameter of the functions that call it.
    - Characters are ASCII.
    - Percentages and coverages are exact rationals; the one float effect
      kept is NaN, the mean of an empty column.
    - An exception is a value of [exn] carried by [outcome].
    - Sorting is a stable insertion sort.  [sort_values] on several keys is
      stable; on the single key __ts pandas may order rows of equal timestamp
      otherwise, and the statements on it use only that the result is
      sorted. *)

From Stdlib Require Import ZArith List String Ascii Bool Arith Lia.
From Stdlib Require Import QArith Qminmax.
From Stdlib Require Import Sorting.Sorted Sorting.Permutation.
Import ListNotations.

Open Scope string_scope.
Open Scope list_scope.
Open Scope Z_scope.

(** ** Exceptions *)

Inductive exn : Type :=
| ValueError      (* raised by load_attendance and by pandas' date parser *)
| KeyError        (* a column that the table does not have *)
| AttributeError. (* attribute access on None *)

Inductive outcome (A : Type) : Type :=
| Returned (a : A)
| Raised (e : exn).

Arguments Returned {A} a.
Arguments Raised {A} e.

Definition bind {A B : Type} (m : outcome A) (f : A -> outcome B) : outcome B :=
  match m with
  | Returned a => f a
  | Raised e => Raised e
  end.

Notation "x <- m ;; k" := (bind m (fun x => k))
  (at level 61, m at next level, right associativity).

Definition raises {A : Type} (m : outcome A) : Prop :=
  exists e, m = Raised e.

(** ** Cells and text *)

Definition cell : Type := option string.

Definition isna {A : Type} (c : option A) : bool :=
  match c with None => true | Some _ => false end.

Definition notna {A : Type} (c : option A) : bool := negb (isna c).

(** [astype(str)] on one cell. *)
Definition astype_str (c : cell) : string :=
  match c with None => "nan" | Some s => s end.

Definition newline : ascii := ascii_of_nat 10.

(** [str.isspace] on ASCII. *)
Definition is_space (c : ascii) : bool :=
  let n := nat_of_ascii c in
  (((9 <=? n) && (n <=? 13)) || ((28 <=? n) && (n <=? 32)))%nat.

Fixpoint lstrip (s : string) : string :=
  match s with
  | EmptyString => EmptyString
  | String c s' => if is_space c then lstrip s' else s
  end.

Fixpoint rstrip (s : string) : string :=
  match s with
  | EmptyString => EmptyString
  | String c s' =>
      match rstrip s' with
      | EmptyString => if is_space c then EmptyString else String c EmptyString
      | r => String c r
      end
  end.

(** [str.strip()] *)
Definition strip (s : string) : string := rstrip (lstrip s).

Definition lower_char (c : ascii) : ascii :=
  let n := nat_of_ascii c in
  if ((65 <=? n) && (n <=? 90))%nat then ascii_of_nat (n + 32) else c.

(** [str.lower()] *)
Fixpoint lower (s : string) : string :=
  match s with
  | EmptyString => EmptyString
  | String c s' => String (lower_char c) (lower s')
  end.

(** [str.replace(" ", "")] *)
Fixpoint remove_spaces (s : string) : string :=
  match s with
  | EmptyString => EmptyString
  | String c s' =>
      if Ascii.eqb c " " then remove_spaces s' else String c (remove_spaces s')
  end.

(** ** The regular expressions of COMMON_DOMAIN_FIXES

    The fragment of Python's [re] syntax the table uses: a backslash escapes
    the next character, a dot is any character but a newline, a dollar is the
    end of the string (or the position before a final newline), anything else
    is itself. *)

Inductive re_atom : Type :=
| Lit (c : ascii)
| AnyChar
| EndOfString.

Fixpoint re_compile (p : string) : list re_atom :=
  match p with
  | EmptyString => []
  | String "\" (String c p') => Lit c :: re_compile p'
  | String "." p' => AnyChar :: re_compile p'
  | String "$" p' => EndOfString :: re_compile p'
  | String c p' => Lit c :: re_compile p'
  end.

(** Match at the head of [s]; the result is the number of characters
    consumed. *)
Fixpoint re_match_here (re : list re_atom) (s : string) : option nat :=
  match re with
  | [] => Some O
  | EndOfString :: re' =>
      if (s =? EmptyString)%string || (s =? String newline EmptyString)%string
      then re_match_here re' s else None
  | Lit c :: re' =>
      match s with
      | String d s' =>
          if Ascii.eqb c d then option_map S (re_match_here re' s') else None
      | EmptyString => None
      end
  | AnyChar :: re' =>
      match s with
      | String d s' =>
          if Ascii.eqb d newline then None
          else option_map S (re_match_here re' s')
      | EmptyString => None
      end
  end.

(** [re.sub]: every leftmost non-overlapping match is replaced.  [skip] counts
    the characters of the last match still to be dropped.  Every pattern of
    the table opens with a literal, so a match is never empty. *)
Fixpoint re_sub_from (re : list re_atom) (repl s : string) (skip : nat) : string :=
  match s with
  | EmptyString => EmptyString
  | String c s' =>
      match skip with
      | S k => re_sub_from re repl s' k
      | O =>
          match re_match_here re s with
          | Some (S n) => (repl ++ re_sub_from re repl s' n)%string
          | _ => String c (re_sub_from re repl s' O)
          end
      end
  end.

Definition re_sub (pattern repl s : string) : string :=
  re_sub_from (re_compile pattern) repl s O.

(** The keys are the raw string literals of the source, character for
    character: a raw literal keeps both backslashes. *)
Definition COMMON_DOMAIN_FIXES : list (string * string) :=
  [ ("@ucscedu$",      "@ucsc.edu");
    ("@ucsc\\.efu$",   "@ucsc.edu");
    ("@ucsc\\.irg$",   "@ucsc.edu");
    ("@uscs\\.edu$",   "@ucsc.edu");
    ("@gmail\\.con$",  "@gmail.com") ].

Definition apply_fixes (fixes : list (string * string)) (e : string) : string :=
  fold_left (fun e '(bad, good) => re_sub bad good e) fixes e.

Definition normalize_email (email : cell) : cell :=
  match email with
  | None => None
  | Some s =>
      let e := remove_spaces (lower (strip s)) in
      Some (apply_fixes COMMON_DOMAIN_FIXES e)
  end.

(** ** Timestamps and dates *)

Definition timestamp : Type := option Z.
Definition date : Type := option Z.

Definition NS_PER_DAY : Z := 86400 * 1000000000.

(** [Timestamp.date()], and [Series.dt.date] cell by cell. *)
Definition date_of_ns (t : Z) : Z := t / NS_PER_DAY.
Definition dt_date (ts : timestamp) : date := option_map date_of_ns ts.

(** NaN-aware comparisons: a comparison with NaT is False. *)
Definition ge_date (d : date) (bound : Z) : bool :=
  match d with Some x => bound <=? x | None => false end.
Definition le_date (d : date) (bound : Z) : bool :=
  match d with Some x => x <=? bound | None => false end.

(** The order [sort_values] uses on one key: ascending, NaT last. *)
Definition na_last_leb (a b : option Z) : bool :=
  match a, b with
  | Some x, Some y => x <=? y
  | Some _, None => true
  | None, Some _ => false
  | None, None => true
  end.

Definition opt_eqb {A : Type} (eqb : A -> A -> bool) (a b : option A) : bool :=
  match a, b with
  | Some x, Some y => eqb x y
  | None, None => true
  | _, _ => false
  end.

Definition cell_eqb : cell -> cell -> bool := opt_eqb String.eqb.
Definition date_eqb : date -> date -> bool := opt_eqb Z.eqb.

(** [series != text], cell by cell: NaN differs from every text. *)
Definition cell_neb (c : cell) (s : string) : bool :=
  match c with Some t => negb (t =? s)%string | None => true end.

(** ** Generic table operations *)

Section TableOps.
Context {A K : Type}.

(** Stable insertion sort for a total preorder given as a boolean. *)
Fixpoint insert_by (leb : A -> A -> bool) (x : A) (l : list A) : list A :=
  match l with
  | [] => [x]
  | y :: l' => if leb x y then x :: l else y :: insert_by leb x l'
  end.

Definition sort_by (leb : A -> A -> bool) (l : list A) : list A :=
  fold_right (insert_by leb) [] l.

(** [drop_duplicates(subset=key, keep="first")] *)
Fixpoint drop_duplicates (eqb : K -> K -> bool) (key : A -> K) (l : list A) : list A :=
  match l with
  | [] => []
  | x :: l' =>
      x :: filter (fun y => negb (eqb (key y) (key x))) (drop_duplicates eqb key l')
  end.
End TableOps.

(** [left.merge(right, left_on=lkey, right_on=rkey, how="left")]: every left
    row, in order, paired with each right row of equal key (NaN keys are
    equal to each other), or with nothing. *)
Definition merge_left {L R K : Type} (eqb : K -> K -> bool)
    (lkey : L -> K) (rkey : R -> K) (left : list L) (right : list R)
    : list (L * option R) :=
  flat_map (fun l =>
    match filter (fun r => eqb (lkey l) (rkey r)) right with
    | [] => [(l, None)]
    | rs => map (fun r => (l, Some r)) rs
    end) left.

Fixpoint dropna {A : Type} (l : list (option A)) : list A :=
  match l with
  | [] => []
  | Some x :: l' => x :: dropna l'
  | None :: l' => dropna l'
  end.

(** [unique()] / [set(...)]: first occurrences, in order. *)
Definition unique {A : Type} (eqb : A -> A -> bool) (l : list A) : list A :=
  drop_duplicates eqb (fun x => x) l.

(** ** Attendance tables *)

(** One line of the attendance CSV, by discovered column. *)
Record raw_row : Type := {
  raw_timestamp : cell;
  raw_email : cell;
  raw_id : cell;
  raw_name : cell
}.

(** The CSV after column discovery: which of the four columns were found. *)
Record attendance_csv : Type := {
  ts_col : bool;
  email_col : bool;
  id_col : bool;
  name_col : bool;
  csv_rows : list raw_row
}.

Record att_row : Type := {
  index : nat;
  __ts : timestamp;
  __date : date;
  __email : cell;
  __id : cell;
  __name : cell;
  __identity : cell
}.

Definition derive_identity (id email name : cell) : cell :=
  if notna id && cell_neb id EmptyString then id
  else if notna email && cell_neb email EmptyString then email
  else name.

Section Parser.
(** [pd.to_datetime] on one text: [None] when the text is not a date. *)
Variable to_datetime : string -> option Z.

(** [to_dt]: errors are coerced to NaT. *)
Definition to_dt (x : cell) : timestamp :=
  match x with
  | None => None
  | Some s => to_datetime s
  end.

Definition load_row (csv : attendance_csv) (i : nat) (r : raw_row) : att_row :=
  let ts := to_dt (raw_timestamp r) in
  let email := if email_col csv then normalize_email (raw_email r) else None in
  let id := if id_col csv then Some (strip (astype_str (raw_id r))) else None in
  let name := if name_col csv then Some (strip (astype_str (raw_name r))) else None in
  {| index := i; __ts := ts; __date := dt_date ts;
     __email := email; __id := id; __name := name;
     __identity := derive_identity id email name |}.

Definition load_attendance (csv : attendance_csv) : outcome (list att_row) :=
  if negb (ts_col csv) || (negb (email_col csv) && negb (id_col csv))
  then Raised ValueError
  else Returned (map (fun '(i, r) => load_row csv i r)
                     (combine (seq 0 (List.length (csv_rows csv))) (csv_rows csv))).

Definition parse_date (iso : string) : outcome Z :=
  match to_datetime iso with
  | Some t => Returned (date_of_ns t)
  | None => Raised ValueError
  end.

Definition filter_weeks (df : list att_row) (start_iso end_iso : string)
    : outcome (list att_row) :=
  start <- parse_date start_iso ;;
  end_ <- parse_date end_iso ;;
  Returned (filter (fun r => ge_date (__date r) start && le_date (__date r) end_) df).
End Parser.

Definition date_ts_leb (r1 r2 : att_row) : bool :=
  if date_eqb (__date r1) (__date r2)
  then na_last_leb (__ts r1) (__ts r2)
  else na_last_leb (__date r1) (__date r2).

Definition identity_date (r : att_row) : cell * date := (__identity r, __date r).

Definition identity_date_eqb (k1 k2 : cell * date) : bool :=
  cell_eqb (fst k1) (fst k2) && date_eqb (snd k1) (snd k2).

Definition dedup_same_day (df : list att_row) : list att_row :=
  let df := sort_by date_ts_leb df in
  drop_duplicates identity_date_eqb identity_date df.

(** ** Attendance Aggregator *)

Record counts_row : Type := {
  c_identity : string;          (* column __identity *)
  attended_dates : list date;
  total_count : Z;
  week1_count : Z;
  week2_count : Z;
  max_possible : Z;
  percentage : Q;
  c_email : cell;               (* column __email *)
  c_id : cell;                  (* column __id *)
  c_name : cell                 (* column __name *)
}.

Definition mem_date (d : Z) (week : list Z) : bool := existsb (Z.eqb d) week.

(** [sum(1 for d in dates if d in week)]; NaT is in no week. *)
Definition count_in_week (dates : list date) (week : list Z) : Z :=
  Z.of_nat (List.length
    (filter (fun d => match d with Some x => mem_date x week | None => false end) dates)).

Definition lecture_dates_of (df_weeks : list att_row) : list Z :=
  sort_by Z.leb (dropna (unique date_eqb (map __date df_weeks))).

Definition week1_of (lecture_dates : list Z) : list Z :=
  if (3 <=? List.length lecture_dates)%nat then firstn 3 lecture_dates else lecture_dates.

Definition week2_of (lecture_dates : list Z) : list Z :=
  if (6 <=? List.length lecture_dates)%nat
  then firstn 3 (skipn 3 lecture_dates)
  else skipn 3 lecture_dates.

Definition ts_leb (r1 r2 : att_row) : bool := na_last_leb (__ts r1) (__ts r2).

(** [groupby("__identity")]: the groups in key order, NaN keys dropped. *)
Definition group_keys (df : list att_row) : list string :=
  sort_by String.leb (unique String.eqb (dropna (map __identity df))).

Definition group_dates (df : list att_row) (i : string) : list date :=
  map __date (filter (fun r => cell_eqb (__identity r) (Some i)) df).

(** [sorted(set(s))]; a deduplicated windowed table holds no NaT, which this
    order puts last. *)
Definition sorted_set (s : list date) : list date :=
  sort_by na_last_leb (unique date_eqb s).

(** The frame [cnt] of the source, one row per group, before the display
    columns are merged in. *)
Definition cnt_row (df : list att_row) (week1 week2 : list Z) (i : string) : counts_row :=
  let ds := sorted_set (group_dates df i) in
  let w1 := count_in_week ds week1 in
  let w2 := count_in_week ds week2 in
  {| c_identity := i; attended_dates := ds;
     total_count := Z.of_nat (List.length ds);
     week1_count := w1; week2_count := w2;
     max_possible := 6;
     percentage := (inject_Z (w1 + w2) / inject_Z 6 * 100)%Q;
     c_email := None; c_id := None; c_name := None |}.

(** The frame [mini]: first row per identity by timestamp, then the display
    columns of the first row per identity in table order. *)
Definition mini_of (df : list att_row) : list (cell * option att_row) :=
  merge_left cell_eqb (fun i => i) __identity
    (map __identity (drop_duplicates cell_eqb __identity (sort_by ts_leb df)))
    (drop_duplicates cell_eqb __identity df).

Definition with_display (p : counts_row * option (cell * option att_row)) : counts_row :=
  let c := fst p in
  let info := match snd p with Some (_, Some r) => Some r | _ => None end in
  {| c_identity := c_identity c; attended_dates := attended_dates c;
     total_count := total_count c;
     week1_count := week1_count c; week2_count := week2_count c;
     max_possible := max_possible c; percentage := percentage c;
     c_email := match info with Some r => __email r | None => None end;
     c_id := match info with Some r => __id r | None => None end;
     c_name := match info with Some r => __name r | None => None end |}.

Definition compute_counts (df_weeks : list att_row)
    : list counts_row * list Z * list Z * list Z :=
  let lecture_dates := lecture_dates_of df_weeks in
  let week1 := week1_of lecture_dates in
  let week2 := week2_of lecture_dates in
  let cnt := map (cnt_row df_weeks week1 week2) (group_keys df_weeks) in
  let mini := mini_of df_weeks in
  let out := map with_display
               (merge_left cell_eqb (fun c => Some (c_identity c)) fst cnt mini) in
  (out, lecture_dates, week1, week2).

(** ** Roster *)

Record gradebook_row : Type := {
  gb_Student : cell;
  gb_ID : cell;
  gb_SIS_Login_ID : cell;
  gb_Email : cell
}.

(** The roster CSV, by its recognized headers: which of Student, ID,
    SIS Login ID and Email it has.  Other columns play no part. *)
Record gradebook_csv : Type := {
  has_Student : bool;
  has_ID : bool;
  has_SIS_Login_ID : bool;
  has_Email : bool;
  gb_rows : list gradebook_row
}.

Definition gb_columns (csv : gradebook_csv) : list string :=
  (if has_Student csv then ["Student"] else []) ++
  (if has_ID csv then ["ID"] else []) ++
  (if has_SIS_Login_ID csv then ["SIS Login ID"] else []) ++
  (if has_Email csv then ["Email"] else []).

Record roster_row : Type := {
  gb : gradebook_row;
  Email_norm : cell;
  SIS_Login_ID_norm : cell;
  ID_str : cell;
  __disp_name : cell
}.

Record roster_table : Type := {
  roster_columns : list string;
  roster_rows : list roster_row
}.

Definition has_column (c : string) (columns : list string) : bool :=
  existsb (String.eqb c) columns.

Definition load_gradebook_csv (csv : gradebook_csv) : roster_table :=
  let cols := gb_columns csv in
  let has_email := has_column "Email" cols in
  let has_sis := has_column "SIS Login ID" cols in
  let has_id := has_column "ID" cols in
  let has_student := has_column "Student" cols in
  {| roster_columns :=
       cols ++
       (if has_email then ["Email_norm"] else []) ++
       (if has_sis then ["SIS Login ID_norm"] else []) ++
       (if has_id then ["ID_str"] else []) ++
       ["__disp_name"];
     roster_rows :=
       map (fun r =>
         {| gb := r;
            Email_norm := if has_email then normalize_email (gb_Email r) else None;
            SIS_Login_ID_norm :=
              if has_sis then normalize_email (gb_SIS_Login_ID r) else None;
            ID_str := if has_id then Some (strip (astype_str (gb_ID r))) else None;
            __disp_name :=
              if has_student then Some (strip (astype_str (gb_Student r))) else None |})
         (gb_rows csv) |}.

(** ** Roster Joiner *)

Inductive number : Type :=
| NaN
| Num (q : Q).

(** [Series.mean()] of a boolean column. *)
Definition mean (bs : list bool) : number :=
  match bs with
  | [] => NaN
  | _ => Num (Z.of_nat (List.length (filter (fun b => b) bs))
              # Pos.of_nat (List.length bs))
  end.

Definition times (x : number) (k : Q) : number :=
  match x with NaN => NaN | Num q => Num (q * k) end.

(** [a >= b] on floats: False as soon as one side is NaN. *)
Definition ge_number (a b : number) : bool :=
  match a, b with
  | Num x, Num y => Qle_bool y x
  | _, _ => false
  end.

Definition counts_columns : list string :=
  [ "__identity"; "attended_dates"; "total_count"; "week1_count"; "week2_count";
    "max_possible"; "percentage"; "__email"; "__id"; "__name" ].

(** What [finalize_output] may receive: a roster merged with the counts
    (its columns are the roster's followed by the counts'), or the counts
    themselves (join mode none). *)
Inductive frame : Type :=
| Joined (roster_cols : list string) (rows : list (roster_row * option counts_row))
| Counts (rows : list counts_row).

Definition frame_columns (m : frame) : list string :=
  match m with
  | Joined roster_cols _ => roster_cols ++ counts_columns
  | Counts _ => counts_columns
  end.

Definition m_week1_count (p : roster_row * option counts_row) : option Z :=
  option_map week1_count (snd p).

(** [(~m["week1_count"].isna()).mean() * 100.0] *)
Definition coverage (m : list (roster_row * option counts_row)) : number :=
  times (mean (map (fun p => negb (isna (m_week1_count p))) m)) 100.

(** [x["__id"].astype(str).str.strip()] on one row. *)
Definition str_strip_id (c : counts_row) : counts_row :=
  {| c_identity := c_identity c; attended_dates := attended_dates c;
     total_count := total_count c;
     week1_count := week1_count c; week2_count := week2_count c;
     max_possible := max_possible c; percentage := percentage c;
     c_email := c_email c;
     c_id := Some (strip (astype_str (c_id c)));
     c_name := c_name c |}.

(** The key column __email_norm that the email join adds to the counts. *)
Definition c_email_norm (c : counts_row) : cell := normalize_email (c_email c).

Definition merge_on_id (counts_out : list counts_row) (roster : roster_table)
    : list (roster_row * option counts_row) :=
  merge_left cell_eqb ID_str c_id (roster_rows roster) (map str_strip_id counts_out).

Definition merge_on_email (key : roster_row -> cell)
    (counts_out : list counts_row) (roster : roster_table)
    : list (roster_row * option counts_row) :=
  merge_left cell_eqb key c_email_norm (roster_rows roster) counts_out.

Definition join_id (counts_out : list counts_row) (roster : roster_table)
    : option frame * number :=
  if negb (has_column "ID_str" (roster_columns roster)) then (None, Num 0)
  else
    let m := merge_on_id counts_out roster in
    (Some (Joined (roster_columns roster) m), coverage m).

Definition join_email (counts_out : list counts_row) (roster : roster_table)
    : option frame * number :=
  if has_column "SIS Login ID_norm" (roster_columns roster) then
    let m := merge_on_email SIS_Login_ID_norm counts_out roster in
    (Some (Joined (roster_columns roster) m), coverage m)
  else if has_column "Email_norm" (roster_columns roster) then
    let m := merge_on_email Email_norm counts_out roster in
    (Some (Joined (roster_columns roster) m), coverage m)
  else (None, Num 0).

Definition try_join_modes (counts_out : list counts_row) (roster : roster_table)
    : option frame * string * number :=
  let '(id_m, id_cov) := join_id counts_out roster in
  let '(em_m, em_cov) := join_email counts_out roster in
  if ge_number em_cov id_cov
  then (em_m, "email", em_cov)
  else (id_m, "id", id_cov).

(** ** Finalization *)

Record out_row : Type := {
  Student : cell;
  ID : cell;
  SIS_Login_ID : cell;
  Email : cell;
  out_week1_count : Q;
  out_week2_count : Q;
  out_total_count : Q;
  out_max_possible : Q;
  out_percentage : Q
}.

Record out_table : Type := {
  out_columns : list string;
  out_rows : list out_row
}.

(** [pd.to_numeric(col, errors="coerce").fillna(v)] on one numeric cell. *)
Definition fillna (v : Q) (x : option Q) : Q :=
  match x with Some q => q | None => v end.

Definition rename_column (name_col c : string) : string :=
  if (c =? name_col)%string then "Student"
  else if (c =? "ID_str")%string then "ID"
  else c.

Definition kept (keep : list string) (c : string) (v : cell) : cell :=
  if has_column c keep then v else None.

Definition finalize_row (keep : list string) (name : cell) (r : option roster_row)
    (c : option counts_row) : out_row :=
  let num (f : counts_row -> Q) := option_map f c in
  {| Student := name;
     ID := kept keep "ID_str" (match r with Some r => ID_str r | None => None end);
     SIS_Login_ID :=
       kept keep "SIS Login ID"
            (match r with Some r => gb_SIS_Login_ID (gb r) | None => None end);
     Email :=
       kept keep "Email" (match r with Some r => gb_Email (gb r) | None => None end);
     out_week1_count := fillna 0 (num (fun c => inject_Z (week1_count c)));
     out_week2_count := fillna 0 (num (fun c => inject_Z (week2_count c)));
     out_total_count := fillna 0 (num (fun c => inject_Z (total_count c)));
     out_max_possible := fillna 6 (num (fun c => inject_Z (max_possible c)));
     out_percentage := fillna 0 (num percentage) |}.

Definition name_col_of (cols : list string) : string :=
  if has_column "__disp_name" cols then "__disp_name" else "__name".

Definition keep_of (cols : list string) : list string :=
  filter (fun c => has_column c cols)
    [ name_col_of cols; "ID_str"; "SIS Login ID"; "Email"; "week1_count"; "week2_count";
      "total_count"; "max_possible"; "percentage" ].

(** Both kinds of frame hold every count column, so the guards
    [if col in merged.columns] of the numeric columns always pass. *)
Definition finalize_output (merged : option frame) : outcome out_table :=
  match merged with
  | None => Raised AttributeError
  | Some m =>
      let cols := frame_columns m in
      let name_col := name_col_of cols in
      let keep := keep_of cols in
      Returned
        {| out_columns := map (rename_column name_col) keep;
           out_rows :=
             match m with
             | Joined _ rows =>
                 map (fun p =>
                   let name :=
                     if has_column "__disp_name" cols then __disp_name (fst p)
                     else match snd p with Some c => c_name c | None => None end in
                   finalize_row keep name (Some (fst p)) (snd p)) rows
             | Counts rows =>
                 map (fun c => finalize_row keep (c_name c) None (Some c)) rows
             end |}
  end.

(** ** Matrix Builder *)

(** A cell after [fillna(0)]. *)
Inductive filled : Type :=
| Text (s : string)
| Zero.

Definition fillna0 (c : cell) : filled :=
  match c with Some s => Text s | None => Zero end.

Record matrix_row : Type := {
  mx_identity : cell;           (* column __identity, before fillna *)
  mx_Student : filled;
  mx_ID : filled;
  mx_Email : filled;
  mx_dates : list Z;            (* one indicator per selected date, in order *)
  mx_total_count : Z;
  mx_max_possible : Z;
  mx_percentage : Q
}.

Definition att_ids_of (df_weeks : list att_row) : list (cell * date) :=
  unique identity_date_eqb (map identity_date df_weeks).

(** The pivot table: index and columns are the identities and dates of the
    pairs without NaN; a cell is the mean of [val], that is 1, or the fill
    value 0. *)
Definition complete_pairs (att_ids : list (cell * date)) : list (string * Z) :=
  flat_map (fun p => match p with (Some i, Some d) => [(i, d)] | _ => [] end) att_ids.

Definition pivot_index (att_ids : list (cell * date)) : list string :=
  sort_by String.leb (unique String.eqb (map fst (complete_pairs att_ids))).

Definition pivot_columns (att_ids : list (cell * date)) : list Z :=
  sort_by Z.leb (unique Z.eqb (map snd (complete_pairs att_ids))).

Definition pivot_cell (att_ids : list (cell * date)) (i : string) (d : Z) : Z :=
  if existsb (fun p => String.eqb (fst p) i && Z.eqb (snd p) d) (complete_pairs att_ids)
  then 1 else 0.

(** The row of [pivot[six_dates]] for one identity, after the loop that adds
    a zero column for each selected date the pivot lacks. *)
Definition pivot_row (att_ids : list (cell * date)) (six_dates : list Z) (i : string)
    : list Z :=
  map (fun d => if mem_date d (pivot_columns att_ids) then pivot_cell att_ids i d else 0)
      six_dates.

Definition matrix_dates (att_ids : list (cell * date)) (six_dates : list Z)
    (identity : cell) : list Z :=
  match identity with
  | Some i =>
      if existsb (String.eqb i) (pivot_index att_ids)
      then pivot_row att_ids six_dates i
      else map (fun _ => 0) six_dates
  | None => map (fun _ => 0) six_dates
  end.

(** The frame [mat] that [write_matrix] sends to the CSV writer.  The
    selected dates are distinct, as [_run_processing] builds them. *)
Definition write_matrix (df_weeks : list att_row) (six_dates : list Z) : list matrix_row :=
  let mini := drop_duplicates cell_eqb __identity (sort_by ts_leb df_weeks) in
  let att_ids := att_ids_of df_weeks in
  map (fun r =>
    let ds := matrix_dates att_ids six_dates (__identity r) in
    let total := fold_right Z.add 0 ds in
    {| mx_identity := __identity r;
       mx_Student := fillna0 (__name r);
       mx_ID := fillna0 (__id r);
       mx_Email := fillna0 (__email r);
       mx_dates := ds;
       mx_total_count := total;
       mx_max_possible := 6;
       mx_percentage := (inject_Z total / inject_Z 6 * 100)%Q |}) mini.

(** ** The processing service *)

Section Service.
Variable to_datetime : string -> option Z.

(** The roster branch of [_run_processing]: the join by mode. *)
Definition join_by_mode (join_mode : string) (counts_out : list counts_row)
    (roster : roster_table) : outcome (option frame) :=
  if (join_mode =? "auto")%string then
    let '(merged, mode, cov) := try_join_modes counts_out roster in
    Returned merged
  else if (join_mode =? "id")%string then
    if has_column "ID_str" (roster_columns roster)
    then Returned (Some (Joined (roster_columns roster) (merge_on_id counts_out roster)))
    else Raised KeyError
  else if (join_mode =? "email")%string then
    if has_column "SIS Login ID_norm" (roster_columns roster) then
      Returned (Some (Joined (roster_columns roster)
                             (merge_on_email SIS_Login_ID_norm counts_out roster)))
    else if has_column "Email_norm" (roster_columns roster) then
      Returned (Some (Joined (roster_columns roster)
                             (merge_on_email Email_norm counts_out roster)))
    else Raised KeyError
  else Returned (Some (Counts counts_out)).

(** Without a roster: the counts with their display columns renamed. *)
Definition counts_output (counts_out : list counts_row) : out_table :=
  {| out_columns :=
       [ "Student"; "ID"; "Email"; "week1_count"; "week2_count"; "total_count";
         "max_possible"; "percentage" ];
     out_rows :=
       map (fun c =>
         {| Student := c_name c; ID := c_id c; SIS_Login_ID := None; Email := c_email c;
            out_week1_count := inject_Z (week1_count c);
            out_week2_count := inject_Z (week2_count c);
            out_total_count := inject_Z (total_count c);
            out_max_possible := inject_Z (max_possible c);
            out_percentage := percentage c |}) counts_out |}.

(** [AttendanceService._run_processing], up to the two tables it writes. *)
Definition _run_processing (attendance : attendance_csv)
    (gradebook : option gradebook_csv) (start_date end_date : string)
    (join_mode : string) (matrix : bool)
    : outcome (out_table * option (list matrix_row)) :=
  attendance_df <- load_attendance to_datetime attendance ;;
  windowed <- filter_weeks to_datetime attendance_df start_date end_date ;;
  let filtered := dedup_same_day windowed in
  let '(counts_out, lecture_dates, week1, week2) := compute_counts filtered in
  let six_dates := firstn 6 (week1 ++ week2) in
  output_df <-
    match gradebook with
    | Some csv =>
        let roster := load_gradebook_csv csv in
        merged <- join_by_mode join_mode counts_out roster ;;
        finalize_output merged
    | None => Returned (counts_output counts_out)
    end ;;
  Returned (output_df, if matrix then Some (write_matrix filtered six_dates) else None).
End Service.

(** ** A date parser for the ISO form YYYY-MM-DD

    The form in which the service receives its two dates, with an optional
    time of day; [pd.to_datetime] reads a bare date as midnight of that
    day. *)

Definition digit (c : ascii) : option Z :=
  let n := nat_of_ascii c in
  if ((48 <=? n) && (n <=? 57))%nat then Some (Z.of_nat (n - 48)) else None.

Definition number2 (a b : ascii) : option Z :=
  match digit a, digit b with
  | Some x, Some y => Some (10 * x + y)
  | _, _ => None
  end.

Definition is_leap (y : Z) : bool :=
  (y mod 4 =? 0) && (negb (y mod 100 =? 0) || (y mod 400 =? 0)).

Definition days_in_month (y m : Z) : Z :=
  if m =? 2 then (if is_leap y then 29 else 28)
  else if (m =? 4) || (m =? 6) || (m =? 9) || (m =? 11) then 30
  else 31.

(** Days since 1970-01-01 of a civil date. *)
Definition days_from_civil (y m d : Z) : Z :=
  let y' := if m <=? 2 then y - 1 else y in
  let era := y' / 400 in
  let yoe := y' - era * 400 in
  let mp := (m + 9) mod 12 in
  let doy := (153 * mp + 2) / 5 + d - 1 in
  let doe := yoe * 365 + yoe / 4 - yoe / 100 + doy in
  era * 146097 + doe - 719468.

Definition iso_date (y1 y2 y3 y4 m1 m2 d1 d2 : ascii) : option Z :=
  match number2 y1 y2, number2 y3 y4, number2 m1 m2, number2 d1 d2 with
  | Some yh, Some yl, Some m, Some d =>
      let y := 100 * yh + yl in
      if (1 <=? y) && (1 <=? m) && (m <=? 12) && (1 <=? d) && (d <=? days_in_month y m)
      then Some (days_from_civil y m d)
      else None
  | _, _, _, _ => None
  end.

(** The optional time of day, in seconds: nothing, or a blank or a T and
    then HH:MM:SS. *)
Definition iso_time (s : string) : option Z :=
  match s with
  | EmptyString => Some 0
  | String sep (String h1 (String h2 (String ":"
      (String m1 (String m2 (String ":" (String s1 (String s2 EmptyString)))))))) =>
      match number2 h1 h2, number2 m1 m2, number2 s1 s2 with
      | Some h, Some m, Some sec =>
          if (Ascii.eqb sep " " || Ascii.eqb sep "T")
             && (h <? 24) && (m <? 60) && (sec <? 60)
          then Some (3600 * h + 60 * m + sec)
          else None
      | _, _, _ => None
      end
  | _ => None
  end.

Definition iso_to_datetime (s : string) : option Z :=
  match s with
  | String y1 (String y2 (String y3 (String y4 (String "-"
      (String m1 (String m2 (String "-" (String d1 (String d2 rest))))))))) =>
      match iso_date y1 y2 y3 y4 m1 m2 d1 d2, iso_time rest with
      | Some d, Some t => Some (d * NS_PER_DAY + t * 1000000000)
      | _, _ => None
      end
  | _ => None
  end.

(** ** Vocabulary of the statements *)

Section WindowStage.
Variable to_datetime : string -> option Z.

(** The Window Filter & Deduplicator: [dedup_same_day(filter_weeks(...))]
    as [_run_processing] composes them. *)
Definition window_filter_dedup (df : list att_row) (start_iso end_iso : string)
    : outcome (list att_row) :=
  windowed <- filter_weeks to_datetime df start_iso end_iso ;;
  Returned (dedup_same_day windowed).
End WindowStage.

(** Rows in their original order: index labels increase. *)
Definition index_lt (r1 r2 : att_row) : Prop := (index r1 < index r2)%nat.
Definition in_row_order (df : list att_row) : Prop := StronglySorted index_lt df.

Definition min_na_last (a b : timestamp) : timestamp :=
  if na_last_leb a b then a else b.

(** The earliest check-in timestamp of an identity in a table. *)
Definition earliest (df : list att_row) (identity : cell) : timestamp :=
  fold_right min_na_last None
    (map __ts (filter (fun r => cell_eqb (__identity r) identity) df)).

(** An identity attended a date: some row of the table has both.  No row
    is counted for the NaN identity. *)
Definition attended (df : list att_row) (identity : cell) (d : Z) : bool :=
  match identity with
  | Some _ =>
      existsb (fun r => cell_eqb (__identity r) identity && date_eqb (__date r) (Some d)) df
  | None => false
  end.

(** The key comparisons of the three joins. *)
Definition id_match (r : roster_row) (c : counts_row) : bool :=
  cell_eqb (ID_str r) (c_id (str_strip_id c)).
Definition sis_match (r : roster_row) (c : counts_row) : bool :=
  cell_eqb (SIS_Login_ID_norm r) (c_email_norm c).
Definition email_match (r : roster_row) (c : counts_row) : bool :=
  cell_eqb (Email_norm r) (c_email_norm c).

Definition backslash : ascii := "\"%char.

(** Text without a backslash. *)
Fixpoint no_backslash (s : string) : bool :=
  match s with
  | EmptyString => true
  | String c s' => negb (Ascii.eqb c backslash) && no_backslash s'
  end.

(** A pattern that asks for a backslash in the text. *)
Definition wants_backslash (re : list re_atom) : Prop := In (Lit backslash) re.

(** A finalized row shows a roster row: it carries its display name and
    the roster columns that the CSV has. *)
Definition shows (csv : gradebook_csv) (r : roster_row) (o : out_row) : Prop :=
  Student o = __disp_name r /\
  ID o = (if has_ID csv then ID_str r else None) /\
  SIS_Login_ID o = (if has_SIS_Login_ID csv then gb_SIS_Login_ID (gb r) else None) /\
  Email o = (if has_Email csv then gb_Email (gb r) else None).

Definition zero_filled (o : out_row) : Prop :=
  out_week1_count o = 0%Q /\ out_week2_count o = 0%Q /\ out_total_count o = 0%Q /\
  out_percentage o = 0%Q /\ out_max_possible o = 6%Q.

(** Left-join semantics of a finalized table for a key comparison: every
    roster row is shown by a row of the table, and a roster row that no
    counts row matches is shown by a zero-filled row. *)
Definition keeps_roster (csv : gradebook_csv) (counts_out : list counts_row)
    (matches : roster_row -> counts_row -> bool) (out : out_table) : Prop :=
  forall r, In r (roster_rows (load_gradebook_csv csv)) ->
    (exists o, In o (out_rows out) /\ shows csv r o) /\
    ((forall c, In c counts_out -> matches r c = false) ->
     exists o, In o (out_rows out) /\ shows csv r o /\ zero_filled o).

(** ** Sample tables *)

Definition raw (ts email id name : cell) : raw_row :=
  {| raw_timestamp := ts; raw_email := email; raw_id := id; raw_name := name |}.

(** An attendance sheet with Timestamp, Email, ID and Name columns: a repeat
    check-in on the first day (the later line has the earlier time), a line
    without ID, a line outside the window and a line with a broken
    timestamp. *)
Definition sample_csv : attendance_csv :=
  {| ts_col := true; email_col := true; id_col := true; name_col := true;
     csv_rows :=
       [ raw (Some "2025-09-29 10:05:00") (Some "S1@ucsc.edu") (Some "1") (Some "S1");
         raw (Some "2025-09-29 10:01:00") (Some "s1@ucsc.edu") (Some " 1 ") (Some "S1");
         raw (Some "2025-10-01 10:00:00") (Some "s1@ucsc.edu") (Some "1") (Some "S1");
         raw (Some "2025-10-01 10:02:00") (Some "s2@ucsc.edu") (Some "2") (Some "S2");
         raw (Some "2025-12-01 09:00:00") (Some "s2@ucsc.edu") (Some "2") (Some "S2");
         raw (Some "yesterday") (Some "s3@ucsc.edu") (Some "3") (Some "S3") ] |}.

(** A sheet with Timestamp, Email and ID columns and one line, whose ID cell
    is empty. *)
Definition missing_id_csv : attendance_csv :=
  {| ts_col := true; email_col := true; id_col := true; name_col := false;
     csv_rows := [ raw (Some "2025-09-29 10:00:00") (Some "Ana@ucsc.edu") None None ] |}.

(** A roster with its four columns; its second student never checked in. *)
Definition sample_gradebook : gradebook_csv :=
  {| has_Student := true; has_ID := true; has_SIS_Login_ID := true; has_Email := true;
     gb_rows :=
       [ {| gb_Student := Some "Stu One"; gb_ID := Some "1";
            gb_SIS_Login_ID := Some "s1@ucsc.edu"; gb_Email := Some "s1@ucsc.edu" |};
         {| gb_Student := Some "Stu Nine"; gb_ID := Some "9";
            gb_SIS_Login_ID := Some "s9@ucsc.edu"; gb_Email := Some "s9@ucsc.edu" |} ] |}.

(** A roster with a Student column only. *)
Definition names_only_gradebook : gradebook_csv :=
  {| has_Student := true; has_ID := false; has_SIS_Login_ID := false; has_Email := false;
     gb_rows :=
       [ {| gb_Student := Some "Stu One"; gb_ID := None;
            gb_SIS_Login_ID := None; gb_Email := None |} ] |}.

(** A roster CSV that is a header line and nothing else. *)
Definition header_only_gradebook (id email : bool) : gradebook_csv :=
  {| has_Student := true; has_ID := id; has_SIS_Login_ID := false; has_Email := email;
     gb_rows := [] |}.

Definition sample_df : list att_row :=
  match load_attendance iso_to_datetime sample_csv with
  | Returned df => df
  | Raised _ => []
  end.

Definition sample_windowed : list att_row :=
  match window_filter_dedup iso_to_datetime sample_df "2025-09-29" "2025-10-10" with
  | Returned df => df
  | Raised _ => []
  end.

Definition sample_counts : list counts_row :=
  fst (fst (fst (compute_counts sample_windowed))).

Definition sample_merged : frame :=
  match join_by_mode "auto" sample_counts (load_gradebook_csv sample_gradebook) with
  | Returned (Some m) => m
  | _ => Counts []
  end.

(** ** Column discovery of [load_attendance]

    A CSV file as read by [pd.read_csv]: its header names and its lines,
    each line a list of cells in header order. *)

Record csv_file : Type := {
  columns : list string;
  lines : list (list cell)
}.

(** [needle in hay] *)
Fixpoint contains (needle hay : string) : bool :=
  prefix needle hay
  || match hay with
     | EmptyString => false
     | String _ hay' => contains needle hay'
     end.

(** [d[k] = v] on a dict kept in insertion order: a key that is there keeps
    its place and takes the new value. *)
Fixpoint dict_set (k v : string) (d : list (string * string)) : list (string * string) :=
  match d with
  | [] => [(k, v)]
  | (k', v') :: d' =>
      if (k =? k')%string then (k, v) :: d' else (k', v') :: dict_set k v d'
  end.

(** [{c.lower(): c for c in df.columns}] *)
Definition lower_columns (cols : list string) : list (string * string) :=
  fold_left (fun d c => dict_set (lower c) c d) cols [].

(** [next((cols[k] for k in cols if p(k)), None)] *)
Definition next_col (p : string -> bool) (cols : list (string * string)) : option string :=
  option_map snd (find (fun kv => p (fst kv)) cols).

Definition is_timestamp_key (k : string) : bool := contains "timestamp" k.
Definition is_email_key (k : string) : bool := (strip k =? "email")%string.
Definition is_id_key (k : string) : bool := (strip k =? "id")%string.
Definition is_name_key (k : string) : bool := contains "name" k.

Fixpoint index_of (c : string) (cols : list string) : option nat :=
  match cols with
  | [] => None
  | c' :: cols' => if (c =? c')%string then Some O else option_map S (index_of c cols')
  end.

(** [df[col]] on one line; no column, no cell. *)
Definition get_cell (cols : list string) (line : list cell) (col : option string) : cell :=
  match col with
  | Some c =>
      match index_of c cols with
      | Some k => nth k line None
      | None => None
      end
  | None => None
  end.

(** The four columns that [load_attendance] looks up, and the lines read
    through them. *)
Definition discover (f : csv_file) : attendance_csv :=
  let cols := lower_columns (columns f) in
  let ts := next_col is_timestamp_key cols in
  let email := next_col is_email_key cols in
  let id := next_col is_id_key cols in
  let name := next_col is_name_key cols in
  {| ts_col := notna ts; email_col := notna email; id_col := notna id;
     name_col := notna name;
     csv_rows :=
       map (fun line =>
              {| raw_timestamp := get_cell (columns f) line ts;
                 raw_email := get_cell (columns f) line email;
                 raw_id := get_cell (columns f) line id;
                 raw_name := get_cell (columns f) line name |})
           (lines f) |}.

(** A sheet whose headers differ from the plain names: mixed case, blanks
    around Email, and a name column called Username. *)
Definition sample_file : csv_file :=
  {| columns := [ "Timestamp (PST)"; " Email "; "Username" ];
     lines := [ [ Some "2025-09-29 10:05:00"; Some "S1@ucsc.edu"; Some "s1" ];
                [ Some "1969-12-31 23:00:00"; None; Some "old" ] ] |}.

(** ** Character tests used in the statements *)

Fixpoint all_chars (p : ascii -> bool) (s : string) : bool :=
  match s with
  | EmptyString => true
  | String c s' => p c && all_chars p s'
  end.

Definition is_upper (c : ascii) : bool :=
  let n := nat_of_ascii c in ((65 <=? n) && (n <=? 90))%nat.

(** Neither a blank nor an uppercase letter. *)
Definition is_clean (c : ascii) : bool := negb (Ascii.eqb c " ") && negb (is_upper c).

Definition sample_file_df : list att_row :=
  match load_attendance iso_to_datetime (discover sample_file) with
  | Returned df => df
  | Raised _ => []
  end.

(** The row of the second line of [sample_file]: no email, a name. *)
Definition sample_file_row : att_row :=
  load_row iso_to_datetime (discover sample_file) 1
           (raw (Some "1969-12-31 23:00:00") None None (Some "old")).

Definition sample_filtered : list att_row :=
  match filter_weeks iso_to_datetime sample_df "2025-09-29" "2025-10-10" with
  | Returned w => w
  | Raised _ => []
  end.

(** The row of the first line of [sample_csv]. *)
Definition sample_first_row : att_row :=
  load_row iso_to_datetime sample_csv 0
    (raw (Some "2025-09-29 10:05:00") (Some "S1@ucsc.edu") (Some "1") (Some "S1")).

(** The counts table of [compute_counts], its first result. *)
Definition counts_of (df_weeks : list att_row) : list counts_row :=
  fst (fst (fst (compute_counts df_weeks))).

(** The rows of one identity. *)
Definition rows_of (df : list att_row) (i : string) : list att_row :=
  filter (fun r => cell_eqb (__identity r) (Some i)) df.

(** The numbers of an output row are those of a counts row. *)
Definition carries (c : counts_row) (o : out_row) : Prop :=
  out_week1_count o = inject_Z (week1_count c) /\
  out_week2_count o = inject_Z (week2_count c) /\
  out_total_count o = inject_Z (total_count c) /\
  out_max_possible o = inject_Z (max_possible c) /\
  out_percentage o = percentage c.

(** Every match of a roster row with a counts row is an output row. *)
Definition joins_counts (csv : gradebook_csv) (counts_out : list counts_row)
    (matches : roster_row -> counts_row -> bool) (out : out_table) : Prop :=
  forall r c, In r (roster_rows (load_gradebook_csv csv)) -> In c counts_out ->
    matches r c = true ->
    exists o, In o (out_rows out) /\ shows csv r o /\ carries c o.

Definition has_email_key (csv : gradebook_csv) : bool :=
  has_SIS_Login_ID csv || has_Email csv.

(** Every row of a finalized table shows a roster row, zero-filled when no
    counts row matches it and with a matching counts row's numbers otherwise:
    no student outside the roster is written. *)
Definition only_roster (csv : gradebook_csv) (counts_out : list counts_row)
    (matches : roster_row -> counts_row -> bool) (out : out_table) : Prop :=
  forall o, In o (out_rows out) ->
    exists r, In r (roster_rows (load_gradebook_csv csv)) /\ shows csv r o /\
      ((zero_filled o /\ forall c, In c counts_out -> matches r c = false) \/
       (exists c, In c counts_out /\ matches r c = true /\ carries c o)).

(** The selected dates [(week1 + week2)[:6]] that [_run_processing] and
    [cmd_process] hand to [write_matrix]. *)
Definition six_dates_of (df_weeks : list att_row) : list Z :=
  let '(counts_out, lecture_dates, week1, week2) := compute_counts df_weeks in
  firstn 6 (week1 ++ week2).

(** ** The summary of a run

    [AttendanceSummary] as [_run_processing] fills it from the counts table
    it has written; [qa_report] logs the same three numbers. *)
Record AttendanceSummary : Type := {
  students_total : nat;
  students_with_attendance : nat;
  coverage_pct : Q;
  lecture_dates : list Z
}.

(** [output_df["total_count"].fillna(0)], or a column of zeros. *)
Definition attendance_series (output_df : out_table) : list Q :=
  if has_column "total_count" (out_columns output_df)
  then map out_total_count (out_rows output_df)
  else map (fun _ => 0%Q) (out_rows output_df).

(** [x > 0] *)
Definition positive (x : Q) : bool := negb (Qle_bool x 0).

Definition summarize (output_df : out_table) (dates : list Z) : AttendanceSummary :=
  let n := List.length (out_rows output_df) in
  let k := List.length (filter positive (attendance_series output_df)) in
  {| students_total := n;
     students_with_attendance := k;
     coverage_pct :=
       match n with
       | O => 0%Q
       | _ => ((Z.of_nat k # Pos.of_nat n) * 100)%Q
       end;
     lecture_dates := dates |}.

(** The five count columns, in the order [finalize_output] keeps them. *)
Definition count_names : list string :=
  [ "week1_count"; "week2_count"; "total_count"; "max_possible"; "percentage" ].

(** A mode that joins the counts to the roster. *)
Definition joins_roster (join_mode : string) : bool :=
  (join_mode =? "auto")%string || (join_mode =? "id")%string
  || (join_mode =? "email")%string.

(** The numbers of a counts row, without its display columns. *)
Definition count_numbers (c : counts_row)
    : string * list date * Z * Z * Z * Z * Q :=
  (c_identity c, attended_dates c, total_count c, week1_count c, week2_count c,
   max_possible c, percentage c).

(** ** Canvas roster: the link to the next page

    The pagination step of [canvas_pull_roster]: the Link header of a
    response is cut at its commas, and the first part that holds the text
    rel="next" gives the address of the next page, read between the first
    [<] and the first [>] of the part. *)

Definition double_quote : ascii := ascii_of_nat 34.

(** The text [rel="next"]. *)
Definition rel_next : string :=
  "rel=" ++ String double_quote ("next" ++ String double_quote EmptyString).

(** [s.split(sep)] for a separator of one character. *)
Fixpoint split (sep : ascii) (s : string) : list string :=
  match s with
  | EmptyString => [EmptyString]
  | String c s' =>
      if Ascii.eqb c sep then EmptyString :: split sep s'
      else match split sep s' with
           | p :: ps => String c p :: ps
           | [] => [String c EmptyString]
           end
  end.

(** [s.find(c)]: the place of the first [c], or -1. *)
Fixpoint find_char (c : ascii) (s : string) : Z :=
  match s with
  | EmptyString => -1
  | String d s' =>
      if Ascii.eqb d c then 0
      else let k := find_char c s' in
           if k <? 0 then -1 else k + 1
  end.

(** [s[a:b]]: a negative bound counts from the end, and both are clamped to
    the text. *)
Definition slice (s : string) (a b : Z) : string :=
  let n := Z.of_nat (String.length s) in
  let bound i := Z.max 0 (Z.min n (if i <? 0 then i + n else i)) in
  substring (Z.to_nat (bound a)) (Z.to_nat (bound b - bound a)) s.

(** The value of [url] after the loop over the parts of a Link header. *)
Definition next_url (link : string) : option string :=
  option_map (fun part => slice part (find_char "<" part + 1) (find_char ">" part))
             (find (contains rel_next) (split "," link)).

(** [url] after one response: no Link header, no next page. *)
Definition next_page (link_header : option string) : option string :=
  match link_header with
  | Some link => next_url link
  | None => None
  end.

(** [sep.join(parts)] *)
Fixpoint join (sep : ascii) (parts : list string) : string :=
  match parts with
  | [] => EmptyString
  | [p] => p
  | p :: ps => p ++ String sep (join sep ps)
  end.

(** A text without the character [c]. *)
Definition free_of (c : ascii) (s : string) : bool :=
  all_chars (fun d => negb (Ascii.eqb d c)) s.

(** A part of a Link header: an address between angle brackets, with text
    before and after it. *)
Definition link_part (before url after : string) : string :=
  before ++ String "<" (url ++ String ">" after).

Definition sample_link : string :=
  join "," [ link_part EmptyString "https://canvas.ucsc.edu/api/v1/courses/7/users?page=1"
               ("; rel=" ++ String double_quote ("current" ++ String double_quote EmptyString));
             link_part EmptyString "https://canvas.ucsc.edu/api/v1/courses/7/users?page=2"
               ("; " ++ rel_next) ].

(** The first character, if any, is not white space. *)
Definition first_ok (s : string) : bool :=
  match s with
  | EmptyString => true
  | String c _ => negb (is_space c)
  end.

(** The last character, if any, is not white space. *)
Fixpoint last_ok (s : string) : bool :=
  match s with
  | EmptyString => true
  | String c s' =>
      match s' with
      | EmptyString => negb (is_space c)
      | String _ _ => last_ok s'
      end
  end.

(** A text as [normalize_email] leaves it before the domain fixes: no white
    space at its ends, no blank and no uppercase letter. *)
Definition trimmed (s : string) : Prop :=
  first_ok s = true /\ last_ok s = true /\ all_chars is_clean s = true.

(** The suffixes of a text, the text itself first. *)
Fixpoint tails (s : string) : list string :=
  s :: match s with
       | EmptyString => []
       | String _ s' => tails s'
       end.

(** A pattern as the table has them: characters, then the end of the
    string. *)
Definition is_char_atom (a : re_atom) : bool :=
  match a with
  | EndOfString => false
  | _ => true
  end.

Definition anchored (re : list re_atom) : Prop :=
  exists atoms, re = atoms ++ [EndOfString] /\ forallb is_char_atom atoms = true.

(** No fix of the table changes the text. *)
Definition settled (fixes : list (string * string)) (x : string) : Prop :=
  Forall (fun fx => re_sub (fst fx) (snd fx) x = x) fixes.

(** A fix of the table: an anchored pattern and a replacement that is not
    empty and has no white space at its ends. *)
Definition well_formed_fix (fx : string * string) : Prop :=
  anchored (re_compile (fst fx)) /\ snd fx <> EmptyString /\
  first_ok (snd fx) = true /\ last_ok (snd fx) = true.

(** ** Lemmas on the table operations *)

Section SortLemmas.
Context {A : Type} (leb : A -> A -> bool).

Let le (a b : A) : Prop := leb a b = true.

Hypothesis leb_total : forall a b, leb a b = false -> leb b a = true.
Hypothesis leb_trans : forall a b c, leb a b = true -> leb b c = true -> leb a c = true.

Lemma insert_by_perm (x : A) (l : list A) : Permutation (insert_by leb x l) (x :: l).
Proof.
  induction l as [|y l IH]; simpl; [reflexivity|].
  destruct (leb x y); [reflexivity|].
  rewrite IH. apply perm_swap.
Qed.

Lemma sort_by_perm (l : list A) : Permutation (sort_by leb l) l.
Proof.
  induction l as [|x l IH]; simpl; [constructor|].
  unfold sort_by in *. simpl. rewrite insert_by_perm. now constructor.
Qed.

Lemma sort_by_In (l : list A) (x : A) : In x (sort_by leb l) <-> In x l.
Proof.
  split; apply Permutation_in; [|symmetry]; apply sort_by_perm.
Qed.

(** Stability: a relation [T] that holds along the input, such as "comes
    earlier", still orders the tied rows of the output. *)
Section Stable.
Variable T : A -> A -> Prop.

Let stable_le (a b : A) : Prop := le a b /\ (le b a -> T a b).

Lemma insert_by_stable (x : A) (s : list A) :
  StronglySorted stable_le s ->
  Forall (T x) s ->
  StronglySorted stable_le (insert_by leb x s).
Proof.
  induction 1 as [|y s Hs IH Hy]; intros HT; simpl.
  - repeat constructor.
  - inversion HT as [|? ? HTy HTs]; subst.
    destruct (leb x y) eqn:Hxy.
    + constructor; [now constructor|].
      constructor; [now split|].
      rewrite Forall_forall in *. intros z Hz. split.
      * apply (leb_trans _ y); [exact Hxy | apply (Hy z Hz)].
      * intros _. now apply HTs.
    + constructor; [now apply IH|].
      rewrite Forall_forall in *. intros z Hz.
      apply (Permutation_in _ (insert_by_perm x s)) in Hz.
      destruct Hz as [<-|Hz]; [|now apply Hy].
      split; [now apply leb_total|].
      unfold le. intros H. congruence.
Qed.

Lemma sort_by_stable (l : list A) :
  StronglySorted T l -> StronglySorted stable_le (sort_by leb l).
Proof.
  induction 1 as [|x l Hl IH Hx]; [constructor|].
  change (sort_by leb (x :: l)) with (insert_by leb x (sort_by leb l)).
  apply insert_by_stable; [exact IH|].
  rewrite Forall_forall in *. intros z Hz. apply Hx. now apply sort_by_In.
Qed.
End Stable.

Lemma sort_by_sorted (l : list A) : StronglySorted le (sort_by leb l).
Proof.
  assert (H : StronglySorted (fun _ _ => True) l).
  { induction l; constructor; [assumption|]. now apply Forall_forall. }
  apply (sort_by_stable (fun _ _ => True)) in H.
  eapply StronglySorted_ind with (P := StronglySorted le) in H; try exact H.
  - constructor.
  - intros a s _ IH Ha. constructor; [exact IH|].
    eapply Forall_impl; [|exact Ha]. now intros b [Hb _].
Qed.

(** Sorting a sorted table changes nothing. *)
Lemma sort_by_fixpoint (l : list A) : StronglySorted le l -> sort_by leb l = l.
Proof.
  induction 1 as [|x l Hl IH Hx]; [reflexivity|].
  change (sort_by leb (x :: l)) with (insert_by leb x (sort_by leb l)).
  rewrite IH. destruct l as [|y l]; [reflexivity|]. simpl.
  inversion Hx as [|? ? Hxy _]; subst. unfold le in Hxy. now rewrite Hxy.
Qed.
End SortLemmas.

Section DropDuplicates.
Context {A K : Type} (eqb : K -> K -> bool) (key : A -> K).

Hypothesis eqb_spec : forall a b, eqb a b = true <-> a = b.

Lemma eqb_false (a b : K) : eqb a b = false <-> a <> b.
Proof.
  rewrite <- eqb_spec. destruct (eqb a b); split; congruence.
Qed.

Lemma drop_duplicates_In (l : list A) (x : A) : In x (drop_duplicates eqb key l) -> In x l.
Proof.
  induction l as [|y l IH]; simpl; [tauto|].
  intros [->|H]; [now left|].
  apply filter_In in H. right. tauto.
Qed.

Lemma drop_duplicates_sorted (R : A -> A -> Prop) (l : list A) :
  StronglySorted R l -> StronglySorted R (drop_duplicates eqb key l).
Proof.
  assert (Hfilter : forall p (s : list A),
             StronglySorted R s -> StronglySorted R (filter p s)).
  { intros p s. induction 1 as [|y s Hs IH Hy]; simpl; [constructor|].
    destruct (p y); [|exact IH]. constructor; [exact IH|].
    rewrite Forall_forall in *. intros z Hz. apply Hy.
    apply filter_In in Hz. tauto. }
  induction 1 as [|x l Hl IH Hx]; simpl; constructor.
  - now apply Hfilter.
  - rewrite Forall_forall in *. intros z Hz. apply Hx.
    apply filter_In in Hz. apply drop_duplicates_In. tauto.
Qed.

(** No two rows of the result share a key. *)
Lemma drop_duplicates_NoDup (l : list A) :
  NoDup (map key (drop_duplicates eqb key l)).
Proof.
  assert (Hfilter : forall p (s : list A),
             NoDup (map key s) -> NoDup (map key (filter p s))).
  { intros p s. induction s as [|y s IH]; simpl; [trivial|].
    intros H. inversion H as [|? ? Hy Hs]; subst.
    destruct (p y); simpl; [|now apply IH].
    constructor; [|now apply IH].
    intros Hin. apply Hy. apply in_map_iff in Hin as (z & Hz & Hin).
    apply in_map_iff. exists z. split; [exact Hz|].
    apply filter_In in Hin. tauto. }
  induction l as [|x l IH]; simpl; constructor.
  - intros Hin. apply in_map_iff in Hin as (z & Hz & Hin).
    apply filter_In in Hin as [_ Hin].
    apply negb_true_iff, eqb_false in Hin. congruence.
  - now apply Hfilter.
Qed.

(** The row kept for a key is the first row of the table with that key. *)
Lemma drop_duplicates_first (l : list A) (y : A) :
  In y (drop_duplicates eqb key l) ->
  exists l1 l2, l = l1 ++ y :: l2 /\ Forall (fun z => key z <> key y) l1.
Proof.
  induction l as [|x l IH]; simpl; [tauto|].
  intros [->|H].
  - exists [], l. split; [reflexivity | constructor].
  - apply filter_In in H as [Hin Hk].
    apply negb_true_iff, eqb_false in Hk.
    destruct (IH Hin) as (l1 & l2 & -> & Hall).
    exists (x :: l1), l2. split; [reflexivity|].
    constructor; [congruence | exact Hall].
Qed.

(** Every key of the table is kept. *)
Lemma drop_duplicates_keys (l : list A) (x : A) :
  In x l -> In (key x) (map key (drop_duplicates eqb key l)).
Proof.
  induction l as [|y l IH]; simpl; [tauto|].
  destruct (eqb (key x) (key y)) eqn:Hk.
  - intros _. left. symmetry. now apply eqb_spec.
  - intros [->|Hin].
    + now left.
    + right. specialize (IH Hin).
      apply in_map_iff in IH as (z & Hz & Hin').
      apply in_map_iff. exists z. split; [exact Hz|].
      apply filter_In. split; [exact Hin'|].
      apply negb_true_iff. now rewrite Hz.
Qed.

(** A table without duplicate keys is left as it is. *)
Lemma drop_duplicates_fixpoint (l : list A) :
  NoDup (map key l) -> drop_duplicates eqb key l = l.
Proof.
  induction l as [|x l IH]; simpl; [reflexivity|].
  intros H. inversion H as [|? ? Hx Hl]; subst.
  rewrite (IH Hl). f_equal.
  apply forallb_filter_id. apply forallb_forall. intros z Hz.
  apply negb_true_iff, eqb_false. intros Heq. apply Hx.
  rewrite <- Heq. now apply in_map.
Qed.

Lemma drop_duplicates_idempotent (l : list A) :
  drop_duplicates eqb key (drop_duplicates eqb key l) = drop_duplicates eqb key l.
Proof.
  apply drop_duplicates_fixpoint, drop_duplicates_NoDup.
Qed.
End DropDuplicates.

Lemma unique_NoDup {A : Type} (eqb : A -> A -> bool) (l : list A) :
  (forall a b, eqb a b = true <-> a = b) -> NoDup (unique eqb l).
Proof.
  intros H. unfold unique.
  rewrite <- (map_id (drop_duplicates eqb (fun x => x) l)).
  now apply drop_duplicates_NoDup.
Qed.

Lemma unique_In {A : Type} (eqb : A -> A -> bool) (l : list A) (x : A) :
  (forall a b, eqb a b = true <-> a = b) -> In x (unique eqb l) <-> In x l.
Proof.
  intros H. unfold unique. split.
  - apply drop_duplicates_In.
  - intros Hin. apply (drop_duplicates_keys eqb (fun x => x) H) in Hin.
    now rewrite map_id in Hin.
Qed.

(** ** The orders and equalities on cells *)

Lemma opt_eqb_spec {A : Type} (eqb : A -> A -> bool) :
  (forall a b, eqb a b = true <-> a = b) ->
  forall a b, opt_eqb eqb a b = true <-> a = b.
Proof.
  intros H [a|] [b|]; simpl; try rewrite H; split; congruence.
Qed.

Lemma cell_eqb_spec (a b : cell) : cell_eqb a b = true <-> a = b.
Proof. apply opt_eqb_spec, String.eqb_eq. Qed.

Lemma date_eqb_spec (a b : date) : date_eqb a b = true <-> a = b.
Proof. apply opt_eqb_spec, Z.eqb_eq. Qed.

Lemma identity_date_eqb_spec (a b : cell * date) :
  identity_date_eqb a b = true <-> a = b.
Proof.
  destruct a as [i d], b as [i' d']. unfold identity_date_eqb. simpl.
  rewrite andb_true_iff, cell_eqb_spec, date_eqb_spec. split.
  - intros [-> ->]. reflexivity.
  - intros H. inversion H. tauto.
Qed.

Ltac na_cases :=
  repeat match goal with
         | x : option Z |- _ => destruct x
         end;
  simpl in *;
  repeat match goal with
         | H : context [Z.eqb ?a ?b] |- _ => destruct (Z.eqb_spec a b)
         | |- context [Z.eqb ?a ?b] => destruct (Z.eqb_spec a b)
         end;
  simpl in *;
  rewrite ?Z.leb_le, ?Z.leb_gt in *;
  try congruence; try lia.

Lemma na_last_leb_total (a b : option Z) :
  na_last_leb a b = false -> na_last_leb b a = true.
Proof. na_cases. Qed.

Lemma na_last_leb_trans (a b c : option Z) :
  na_last_leb a b = true -> na_last_leb b c = true -> na_last_leb a c = true.
Proof. na_cases. Qed.

Lemma na_last_leb_antisym (a b : option Z) :
  na_last_leb a b = true -> na_last_leb b a = true -> a = b.
Proof. na_cases. intros. f_equal. lia. Qed.

Lemma date_ts_leb_total (r1 r2 : att_row) :
  date_ts_leb r1 r2 = false -> date_ts_leb r2 r1 = true.
Proof.
  unfold date_ts_leb, date_eqb.
  destruct (__date r1) as [d1|], (__date r2) as [d2|],
           (__ts r1) as [t1|], (__ts r2) as [t2|]; na_cases.
Qed.

Lemma date_ts_leb_trans (r1 r2 r3 : att_row) :
  date_ts_leb r1 r2 = true -> date_ts_leb r2 r3 = true -> date_ts_leb r1 r3 = true.
Proof.
  unfold date_ts_leb, date_eqb.
  destruct (__date r1) as [d1|], (__date r2) as [d2|], (__date r3) as [d3|],
           (__ts r1) as [t1|], (__ts r2) as [t2|], (__ts r3) as [t3|]; na_cases.
Qed.

Lemma ts_leb_total (r1 r2 : att_row) : ts_leb r1 r2 = false -> ts_leb r2 r1 = true.
Proof. apply na_last_leb_total. Qed.

Lemma ts_leb_trans (r1 r2 r3 : att_row) :
  ts_leb r1 r2 = true -> ts_leb r2 r3 = true -> ts_leb r1 r3 = true.
Proof. apply na_last_leb_trans. Qed.

(** ** Window Filter & Deduplicator *)

Lemma StronglySorted_app_inv {A : Type} (R : A -> A -> Prop) (l1 l2 : list A) (x : A) :
  StronglySorted R (l1 ++ x :: l2) -> Forall (R x) l2.
Proof.
  induction l1 as [|y l1 IH]; simpl; intros H; inversion H; subst; auto.
Qed.

Lemma StronglySorted_filter {A : Type} (R : A -> A -> Prop) (p : A -> bool) (l : list A) :
  StronglySorted R l -> StronglySorted R (filter p l).
Proof.
  induction 1 as [|y s Hs IH Hy]; simpl; [constructor|].
  destruct (p y); [|exact IH]. constructor; [exact IH|].
  rewrite Forall_forall in *. intros z Hz. apply Hy.
  apply filter_In in Hz. tauto.
Qed.

Lemma dedup_same_day_In (df : list att_row) (r : att_row) :
  In r (dedup_same_day df) -> In r df.
Proof.
  unfold dedup_same_day. intros H.
  apply drop_duplicates_In in H. now apply sort_by_In in H.
Qed.

Lemma dedup_same_day_sorted (df : list att_row) :
  StronglySorted (fun a b => date_ts_leb a b = true) (dedup_same_day df).
Proof.
  apply drop_duplicates_sorted.
  apply sort_by_sorted; [apply date_ts_leb_total | apply date_ts_leb_trans].
Qed.

Lemma dedup_same_day_idempotent (df : list att_row) :
  dedup_same_day (dedup_same_day df) = dedup_same_day df.
Proof.
  unfold dedup_same_day at 1.
  rewrite sort_by_fixpoint by apply dedup_same_day_sorted.
  unfold dedup_same_day.
  apply drop_duplicates_idempotent, identity_date_eqb_spec.
Qed.

Section WindowLemmas.
Variable to_datetime : string -> option Z.

(** The table that [load_attendance] returns is in row order. *)
Lemma load_attendance_in_row_order (csv : attendance_csv) (df : list att_row) :
  load_attendance to_datetime csv = Returned df -> in_row_order df.
Proof.
  unfold load_attendance.
  destruct (negb (ts_col csv) || (negb (email_col csv) && negb (id_col csv)));
    [discriminate|].
  intros H. injection H as <-.
  generalize 0%nat. induction (csv_rows csv) as [|r rows IH]; intros a.
  - constructor.
  - simpl. constructor; [apply IH|].
    apply Forall_forall. intros x Hx.
    apply in_map_iff in Hx as ([i r'] & <- & Hin).
    apply in_combine_l, in_seq in Hin. unfold index_lt. simpl. lia.
Qed.

(** Filtering keeps the row order. *)
Lemma filter_weeks_in_row_order (df w : list att_row) (start_iso end_iso : string) :
  in_row_order df ->
  filter_weeks to_datetime df start_iso end_iso = Returned w ->
  in_row_order w.
Proof.
  unfold filter_weeks. intros Hdf.
  destruct (parse_date to_datetime start_iso); simpl; [|discriminate].
  destruct (parse_date to_datetime end_iso); simpl; [|discriminate].
  intros H. injection H as <-. now apply StronglySorted_filter.
Qed.
End WindowLemmas.

(** C1, as amended.  The filter holds no check of the range: when both dates
    parse and the start is after the end, [filter_weeks] raises nothing and
    returns the empty table. *)
Theorem filter_weeks_reversed_range_is_empty
    (to_datetime : string -> option Z) (df : list att_row)
    (start_iso end_iso : string) (start end_ : Z) :
  parse_date to_datetime start_iso = Returned start ->
  parse_date to_datetime end_iso = Returned end_ ->
  start > end_ ->
  filter_weeks to_datetime df start_iso end_iso = Returned [].
Proof.
  intros Hs He Hgt. unfold filter_weeks. rewrite Hs, He. simpl. f_equal.
  induction df as [|r df IH]; simpl; [reflexivity|].
  rewrite IH.
  destruct (__date r) as [d|]; simpl; [|reflexivity].
  destruct (Z.leb_spec start d), (Z.leb_spec d end_); simpl; try reflexivity; lia.
Qed.

Lemma filter_weeks_reversed_range_is_empty_witness :
  parse_date iso_to_datetime "2025-10-10" = Returned 20371 /\
  parse_date iso_to_datetime "2025-09-29" = Returned 20360 /\
  20371 > 20360 /\
  filter_weeks iso_to_datetime sample_df "2025-10-10" "2025-09-29" = Returned [].
Proof.
  split; [reflexivity|]. split; [reflexivity|]. split; [lia|].
  apply (filter_weeks_reversed_range_is_empty iso_to_datetime sample_df
           "2025-10-10" "2025-09-29" 20371 20360); [reflexivity | reflexivity | lia].
Defined.

(** C1, as stated, fails: on a table with rows inside 2025-09-29..2025-10-10,
    the reversed range is answered with a table, not with an error. *)
Lemma filter_weeks_reversed_range_counterexample :
  parse_date iso_to_datetime "2025-10-10" = Returned 20371 /\
  parse_date iso_to_datetime "2025-09-29" = Returned 20360 /\
  20371 > 20360 /\
  ~ raises (filter_weeks iso_to_datetime sample_df "2025-10-10" "2025-09-29").
Proof.
  split; [reflexivity|]. split; [reflexivity|]. split; [lia|].
  intros [e H]. vm_compute in H. discriminate H.
Qed.

Lemma na_last_leb_refl (t : option Z) : na_last_leb t t = true.
Proof. destruct t; simpl; [apply Z.leb_refl | reflexivity]. Qed.

(** The row kept is minimal for (timestamp, index) among the rows of its
    (identity, date) pair. *)
Lemma dedup_same_day_kept_minimal (df : list att_row) (kept r : att_row) :
  in_row_order df ->
  In kept (dedup_same_day df) ->
  In r df ->
  identity_date r = identity_date kept ->
  na_last_leb (__ts kept) (__ts r) = true /\
  (__ts r = __ts kept -> (index kept <= index r)%nat).
Proof.
  intros Horder Hkept Hr Hkey. unfold dedup_same_day in Hkept.
  apply drop_duplicates_first in Hkept as (l1 & l2 & Hsplit & Hl1);
    [|apply identity_date_eqb_spec].
  pose proof (sort_by_stable date_ts_leb date_ts_leb_total date_ts_leb_trans
                index_lt df Horder) as Hsorted.
  rewrite Hsplit in Hsorted. apply StronglySorted_app_inv in Hsorted.
  apply (sort_by_In date_ts_leb) in Hr. rewrite Hsplit in Hr.
  apply in_app_or in Hr as [Hr|[<-|Hr]].
  - rewrite Forall_forall in Hl1. now apply Hl1 in Hr.
  - split; [apply na_last_leb_refl | lia].
  - rewrite Forall_forall in Hsorted. destruct (Hsorted r Hr) as [Hle Htie].
    assert (Hd : __date r = __date kept).
    { unfold identity_date in Hkey. congruence. }
    unfold date_ts_leb in Hle, Htie. rewrite Hd in Hle, Htie.
    assert (Hdd : date_eqb (__date kept) (__date kept) = true)
      by now apply date_eqb_spec.
    rewrite Hdd in Hle, Htie.
    split; [exact Hle|].
    intros Heq. rewrite Heq in Htie. specialize (Htie (na_last_leb_refl _)).
    unfold index_lt in Htie. lia.
Qed.

(** C7.  On a table in row order, [dedup_same_day] keeps one row for each
    (identity, date) pair of the table; the row kept has the earliest
    timestamp of its pair and, among the rows with that timestamp, the
    smallest index; the result is sorted by (date, timestamp). *)
Theorem dedup_same_day_keeps_earliest (df : list att_row) :
  in_row_order df ->
  NoDup (map identity_date (dedup_same_day df)) /\
  (forall r, In r df -> In (identity_date r) (map identity_date (dedup_same_day df))) /\
  (forall kept, In kept (dedup_same_day df) ->
     In kept df /\
     forall r, In r df -> identity_date r = identity_date kept ->
       na_last_leb (__ts kept) (__ts r) = true /\
       (__ts r = __ts kept -> (index kept <= index r)%nat)) /\
  StronglySorted (fun a b => date_ts_leb a b = true) (dedup_same_day df).
Proof.
  intros Horder.
  split; [apply drop_duplicates_NoDup, identity_date_eqb_spec|].
  split.
  { intros r Hr. unfold dedup_same_day.
    apply drop_duplicates_keys; [apply identity_date_eqb_spec|].
    now apply sort_by_In. }
  split; [|apply dedup_same_day_sorted].
  intros kept Hkept. split; [now apply dedup_same_day_In|].
  intros r Hr Hkey. now apply (dedup_same_day_kept_minimal df).
Qed.

Lemma dedup_same_day_keeps_earliest_witness :
  in_row_order sample_df /\
  NoDup (map identity_date (dedup_same_day sample_df)).
Proof.
  assert (H : in_row_order sample_df).
  { apply (load_attendance_in_row_order iso_to_datetime sample_csv sample_df). reflexivity. }
  split; [exact H|].
  exact (proj1 (dedup_same_day_keeps_earliest sample_df H)).
Defined.

(** C8.  The Window Filter & Deduplicator, run on its own output with the
    same range, returns that output: the second run is the first. *)
Theorem window_filter_dedup_idempotent
    (to_datetime : string -> option Z) (df : list att_row) (start_iso end_iso : string) :
  (out <- window_filter_dedup to_datetime df start_iso end_iso ;;
   window_filter_dedup to_datetime out start_iso end_iso)
  = window_filter_dedup to_datetime df start_iso end_iso.
Proof.
  unfold window_filter_dedup, filter_weeks.
  destruct (parse_date to_datetime start_iso) as [start|e]; simpl; [|reflexivity].
  destruct (parse_date to_datetime end_iso) as [end_|e]; simpl; [|reflexivity].
  f_equal.
  set (inside := fun r => ge_date (__date r) start && le_date (__date r) end_).
  rewrite (forallb_filter_id inside).
  - apply dedup_same_day_idempotent.
  - apply forallb_forall. intros r Hr.
    apply dedup_same_day_In in Hr. now apply filter_In in Hr.
Qed.

(** ** Left merges *)

Section MergeLeft.
Context {L R K : Type} (eqb : K -> K -> bool) (lkey : L -> K) (rkey : R -> K).
Variables (left : list L) (right : list R).

Let matches (l : L) : list R := filter (fun r => eqb (lkey l) (rkey r)) right.

Lemma merge_left_In (l : L) (o : option R) :
  In (l, o) (merge_left eqb lkey rkey left right) <->
  In l left /\
  match o with
  | Some r => In r right /\ eqb (lkey l) (rkey r) = true
  | None => forall r, In r right -> eqb (lkey l) (rkey r) = false
  end.
Proof.
  unfold merge_left. rewrite in_flat_map. split.
  - intros (l' & Hl' & Hin). fold (matches l') in Hin.
    destruct (matches l') as [|r0 rs] eqn:Hm.
    + destruct Hin as [Heq|[]]. injection Heq as -> <-.
      split; [exact Hl'|]. intros r Hr.
      destruct (eqb (lkey l) (rkey r)) eqn:E; [|reflexivity].
      assert (Hin : In r (matches l)) by (apply filter_In; tauto).
      rewrite Hm in Hin. destruct Hin.
    + apply in_map_iff in Hin as (r & Heq & Hr). injection Heq as -> <-.
      split; [exact Hl'|]. rewrite <- Hm in Hr. apply filter_In in Hr. exact Hr.
  - intros [Hl Ho]. exists l. split; [exact Hl|]. fold (matches l).
    destruct o as [r|].
    + assert (Hin : In r (matches l)) by (apply filter_In; tauto).
      destruct (matches l) as [|r0 rs]; [destruct Hin|].
      apply in_map_iff. exists r. tauto.
    + destruct (matches l) as [|r0 rs] eqn:Hm; [now left|].
      assert (Hin : In r0 (matches l)) by (rewrite Hm; now left).
      apply filter_In in Hin as [Hin E]. rewrite (Ho r0 Hin) in E. discriminate.
Qed.

(** Every left row survives the merge. *)
Lemma merge_left_covers (l : L) :
  In l left -> exists o, In (l, o) (merge_left eqb lkey rkey left right).
Proof.
  intros Hl. destruct (matches l) as [|r0 rs] eqn:Hm.
  - exists None. apply merge_left_In. split; [exact Hl|]. intros r Hr.
    destruct (eqb (lkey l) (rkey r)) eqn:E; [|reflexivity].
    assert (Hin : In r (matches l)) by (apply filter_In; tauto).
    rewrite Hm in Hin. destruct Hin.
  - exists (Some r0). apply merge_left_In. split; [exact Hl|].
    assert (Hin : In r0 (matches l)) by (rewrite Hm; now left).
    apply filter_In in Hin. exact Hin.
Qed.

Lemma merge_left_nonempty :
  left <> [] -> merge_left eqb lkey rkey left right <> [].
Proof.
  destruct left as [|l ls] eqn:E; [congruence|]. intros _ Hnil.
  destruct (merge_left_covers l) as [o Ho]; [rewrite E; now left|].
  rewrite E in Ho. rewrite Hnil in Ho. destruct Ho.
Qed.
End MergeLeft.

(** ** Attendance Aggregator *)

Lemma count_in_week_bound (dates : list date) (week : list Z) :
  NoDup dates -> 0 <= count_in_week dates week <= Z.of_nat (List.length week).
Proof.
  intros Hnd. unfold count_in_week. split; [lia|].
  apply inj_le.
  rewrite <- (length_map Some week).
  apply NoDup_incl_length; [now apply NoDup_filter|].
  intros d Hd. apply filter_In in Hd as [_ Hd].
  destruct d as [x|]; [|discriminate].
  unfold mem_date in Hd. apply existsb_exists in Hd as (y & Hy & Hxy).
  apply Z.eqb_eq in Hxy. subst y. now apply in_map.
Qed.

Lemma sorted_set_NoDup (s : list date) : NoDup (sorted_set s).
Proof.
  unfold sorted_set.
  apply (Permutation_NoDup (l := unique date_eqb s)).
  - symmetry. apply sort_by_perm.
  - apply unique_NoDup, date_eqb_spec.
Qed.

Lemma week1_of_length (lecture_dates : list Z) :
  (List.length (week1_of lecture_dates) <= 3)%nat.
Proof.
  unfold week1_of. destruct (Nat.leb_spec 3 (List.length lecture_dates)).
  - rewrite length_firstn. lia.
  - lia.
Qed.

Lemma week2_of_length (lecture_dates : list Z) :
  (List.length (week2_of lecture_dates) <= 3)%nat.
Proof.
  unfold week2_of. destruct (Nat.leb_spec 6 (List.length lecture_dates)).
  - rewrite length_firstn. lia.
  - rewrite length_skipn. lia.
Qed.

(** C5.  Every row that [compute_counts] returns has its two week counts
    between 0 and 3, max_possible 6 and percentage (week1 + week2) / 6 * 100,
    whatever the number of lecture dates of the table. *)
Theorem compute_counts_bounds (df_weeks : list att_row) :
  Forall (fun row =>
            0 <= week1_count row <= 3 /\
            0 <= week2_count row <= 3 /\
            max_possible row = 6 /\
            percentage row
            = (inject_Z (week1_count row + week2_count row) / inject_Z 6 * 100)%Q)
         (fst (fst (fst (compute_counts df_weeks)))).
Proof.
  unfold compute_counts. simpl. apply Forall_forall. intros row Hrow.
  apply in_map_iff in Hrow as ([c m] & <- & Hin).
  apply merge_left_In in Hin as [Hc _].
  apply in_map_iff in Hc as (i & <- & _).
  unfold with_display, cnt_row. simpl.
  pose proof (count_in_week_bound _ (week1_of (lecture_dates_of df_weeks))
                (sorted_set_NoDup (group_dates df_weeks i))) as H1.
  pose proof (count_in_week_bound _ (week2_of (lecture_dates_of df_weeks))
                (sorted_set_NoDup (group_dates df_weeks i))) as H2.
  pose proof (week1_of_length (lecture_dates_of df_weeks)).
  pose proof (week2_of_length (lecture_dates_of df_weeks)).
  repeat split; try reflexivity; lia.
Qed.

(** ** Roster Joiner *)

Lemma keep_of_roster (csv : gradebook_csv) :
  let cols := roster_columns (load_gradebook_csv csv) ++ counts_columns in
  name_col_of cols = "__disp_name" /\
  has_column "__disp_name" cols = true /\
  has_column "ID_str" (keep_of cols) = has_ID csv /\
  has_column "SIS Login ID" (keep_of cols) = has_SIS_Login_ID csv /\
  has_column "Email" (keep_of cols) = has_Email csv.
Proof.
  destruct csv as [[] [] [] [] rows]; repeat split; reflexivity.
Qed.

Lemma finalize_row_shows (csv : gradebook_csv) (r : roster_row) (c : option counts_row) :
  shows csv r
    (finalize_row (keep_of (roster_columns (load_gradebook_csv csv) ++ counts_columns))
                  (__disp_name r) (Some r) c).
Proof.
  destruct (keep_of_roster csv) as (_ & _ & Hid & Hsis & Hem).
  unfold shows, finalize_row, kept. cbn [Student ID SIS_Login_ID Email].
  rewrite Hid, Hsis, Hem. repeat split; reflexivity.
Qed.

Lemma finalize_row_zero_filled (keep : list string) (name : cell) (r : option roster_row) :
  zero_filled (finalize_row keep name r None).
Proof. repeat split; reflexivity. Qed.

(** Finalizing a left merge of the roster, whatever the two key columns. *)
Lemma finalize_merge_left (csv : gradebook_csv)
    (lkey : roster_row -> cell) (rkey : counts_row -> cell) (right : list counts_row) :
  let roster := load_gradebook_csv csv in
  exists out,
    finalize_output
      (Some (Joined (roster_columns roster)
                    (merge_left cell_eqb lkey rkey (roster_rows roster) right)))
    = Returned out /\
    forall r, In r (roster_rows roster) ->
      (exists o, In o (out_rows out) /\ shows csv r o) /\
      ((forall x, In x right -> cell_eqb (lkey r) (rkey x) = false) ->
       exists o, In o (out_rows out) /\ shows csv r o /\ zero_filled o).
Proof.
  intros roster. eexists. split; [reflexivity|].
  destruct (keep_of_roster csv) as (_ & Hdisp & _).
  intros r Hr. cbn [out_rows frame_columns]. fold roster. split.
  - destruct (merge_left_covers cell_eqb lkey rkey _ right r Hr) as [o Ho].
    eexists. split.
    + apply in_map_iff. exists (r, o). split; [reflexivity | exact Ho].
    + cbn [fst snd]. unfold roster. rewrite Hdisp. apply finalize_row_shows.
  - intros Hnone. eexists. split; [|split].
    + apply in_map_iff. exists (r, None). split; [reflexivity|].
      apply merge_left_In. split; [exact Hr | exact Hnone].
    + cbn [fst snd]. unfold roster. rewrite Hdisp. apply finalize_row_shows.
    + cbn [fst snd]. apply finalize_row_zero_filled.
Qed.

Lemma roster_key_columns (csv : gradebook_csv) :
  has_column "ID_str" (roster_columns (load_gradebook_csv csv)) = has_ID csv /\
  has_column "SIS Login ID_norm" (roster_columns (load_gradebook_csv csv))
  = has_SIS_Login_ID csv /\
  has_column "Email_norm" (roster_columns (load_gradebook_csv csv)) = has_Email csv.
Proof.
  destruct csv as [[] [] [] [] rows]; repeat split; reflexivity.
Qed.

Section JoinCases.
Variables (csv : gradebook_csv) (counts_out : list counts_row).

Let roster : roster_table := load_gradebook_csv csv.

Lemma finalize_merge_on_id :
  exists out,
    finalize_output (Some (Joined (roster_columns roster) (merge_on_id counts_out roster)))
    = Returned out /\
    keeps_roster csv counts_out id_match out.
Proof.
  destruct (finalize_merge_left csv ID_str c_id (map str_strip_id counts_out))
    as (out & Hout & Hrows).
  exists out. split; [exact Hout|].
  intros r Hr. destruct (Hrows r Hr) as [Hshown Hzero].
  split; [exact Hshown|].
  intros Hnone. apply Hzero. intros x Hx.
  apply in_map_iff in Hx as (c & <- & Hc). exact (Hnone c Hc).
Qed.

Lemma finalize_merge_on_sis :
  exists out,
    finalize_output
      (Some (Joined (roster_columns roster)
                    (merge_on_email SIS_Login_ID_norm counts_out roster)))
    = Returned out /\
    keeps_roster csv counts_out sis_match out.
Proof.
  exact (finalize_merge_left csv SIS_Login_ID_norm c_email_norm counts_out).
Qed.

Lemma finalize_merge_on_email :
  exists out,
    finalize_output
      (Some (Joined (roster_columns roster)
                    (merge_on_email Email_norm counts_out roster)))
    = Returned out /\
    keeps_roster csv counts_out email_match out.
Proof.
  exact (finalize_merge_left csv Email_norm c_email_norm counts_out).
Qed.
End JoinCases.

Ltac pick_join csv counts_out :=
  match goal with
  | |- exists out matches, finalize_output (Some (Joined _ (merge_on_id _ _))) = _ /\ _ =>
      let o := fresh "out" in
      destruct (finalize_merge_on_id csv counts_out) as (o & ? & ?);
      exists o, id_match; simpl; tauto
  | |- exists out matches,
        finalize_output (Some (Joined _ (merge_on_email SIS_Login_ID_norm _ _))) = _ /\ _ =>
      let o := fresh "out" in
      destruct (finalize_merge_on_sis csv counts_out) as (o & ? & ?);
      exists o, sis_match; simpl; tauto
  | |- exists out matches,
        finalize_output (Some (Joined _ (merge_on_email Email_norm _ _))) = _ /\ _ =>
      let o := fresh "out" in
      destruct (finalize_merge_on_email csv counts_out) as (o & ? & ?);
      exists o, email_match; simpl; tauto
  end.

(** C6.  In the join modes auto, id and email, when the join yields a table,
    finalization succeeds and the result has left-join semantics for the key
    that was used (ID, SIS Login ID or Email): every roster row is shown by an
    output row, and a roster row that no counts row matches is shown by a row
    with week1_count, week2_count, total_count and percentage 0 and
    max_possible 6. *)
Theorem roster_join_keeps_every_roster_row
    (join_mode : string) (counts_out : list counts_row) (csv : gradebook_csv)
    (merged : frame) :
  join_mode = "auto" \/ join_mode = "id" \/ join_mode = "email" ->
  join_by_mode join_mode counts_out (load_gradebook_csv csv) = Returned (Some merged) ->
  exists out matches,
    finalize_output (Some merged) = Returned out /\
    In matches [id_match; sis_match; email_match] /\
    keeps_roster csv counts_out matches out.
Proof.
  destruct (roster_key_columns csv) as (Hid & Hsis & Hem).
  intros [-> | [-> | ->]]; unfold join_by_mode; cbn [String.eqb Ascii.eqb Bool.eqb].
  - unfold try_join_modes, join_id, join_email. rewrite Hid, Hsis, Hem.
    destruct (has_ID csv), (has_SIS_Login_ID csv), (has_Email csv); cbn [negb];
      match goal with
      | |- context [ge_number ?a ?b] => destruct (ge_number a b)
      end;
      intros H; first [discriminate H | injection H as <-; pick_join csv counts_out].
  - rewrite Hid. destruct (has_ID csv); [|discriminate].
    intros H; injection H as <-; pick_join csv counts_out.
  - rewrite Hsis, Hem.
    destruct (has_SIS_Login_ID csv); [intros H; injection H as <-; pick_join csv counts_out|].
    destruct (has_Email csv); [|discriminate].
    intros H; injection H as <-; pick_join csv counts_out.
Qed.

Lemma roster_join_keeps_every_roster_row_witness :
  ("auto" = "auto" \/ "auto" = "id" \/ "auto" = "email") /\
  join_by_mode "auto" sample_counts (load_gradebook_csv sample_gradebook)
  = Returned (Some sample_merged) /\
  exists out matches,
    finalize_output (Some sample_merged) = Returned out /\
    In matches [id_match; sis_match; email_match] /\
    keeps_roster sample_gradebook sample_counts matches out.
Proof.
  assert (Hmode : "auto" = "auto" \/ "auto" = "id" \/ "auto" = "email")
    by (left; reflexivity).
  assert (Hjoin : join_by_mode "auto" sample_counts (load_gradebook_csv sample_gradebook)
                  = Returned (Some sample_merged)) by reflexivity.
  split; [exact Hmode|]. split; [exact Hjoin|].
  exact (roster_join_keeps_every_roster_row "auto" sample_counts sample_gradebook
           sample_merged Hmode Hjoin).
Defined.

(** ** Automatic choice of the join *)




(** Without a roster row the email join is never the one returned, whatever
    the columns: its coverage is NaN as soon as the roster has an email key. *)
Lemma try_join_modes_empty_roster (counts_out : list counts_row) (csv : gradebook_csv) :
  gb_rows csv = [] ->
  has_SIS_Login_ID csv || has_Email csv = true ->
  snd (join_email counts_out (load_gradebook_csv csv)) = NaN /\
  snd (fst (try_join_modes counts_out (load_gradebook_csv csv))) = "id".
Proof.
  destruct csv as [hs hid hsis hem rows]. simpl. intros -> Hkey.
  destruct hs, hid, hsis, hem; try discriminate Hkey; split; reflexivity.
Qed.

(** C4 at a roster CSV that is only a header line.  Both merges are empty,
    so both means are NaN, and a comparison with NaN is False: the id join is
    returned.  With Student and Email columns only, the email join exists (an
    empty table) and yet [try_join_modes] returns no table. *)
Theorem try_join_modes_header_only_roster (counts_out : list counts_row) :
  let both := load_gradebook_csv (header_only_gradebook true true) in
  let email_only := load_gradebook_csv (header_only_gradebook false true) in
  join_id counts_out both = (Some (Joined (roster_columns both) []), NaN) /\
  join_email counts_out both = (Some (Joined (roster_columns both) []), NaN) /\
  try_join_modes counts_out both = (Some (Joined (roster_columns both) []), "id", NaN) /\
  join_id counts_out email_only = (None, Num 0) /\
  join_email counts_out email_only = (Some (Joined (roster_columns email_only) []), NaN) /\
  try_join_modes counts_out email_only = (None, "id", Num 0) /\
  (merged <- join_by_mode "auto" counts_out email_only ;; finalize_output merged)
  = Raised AttributeError.
Proof. repeat split. Qed.

(** C10.  A roster without ID, SIS Login ID and Email columns: in auto mode
    [try_join_modes] returns None as the table, with mode email and coverage
    0, raising nothing; finalization is then applied to None, and the
    service ends with the AttributeError of that call whenever its
    attendance stages pass. *)
Theorem try_join_modes_none_without_key_column
    (counts_out : list counts_row) (csv : gradebook_csv) :
  has_ID csv = false -> has_SIS_Login_ID csv = false -> has_Email csv = false ->
  try_join_modes counts_out (load_gradebook_csv csv) = (None, "email", Num 0) /\
  join_by_mode "auto" counts_out (load_gradebook_csv csv) = Returned None /\
  finalize_output None = Raised AttributeError /\
  forall to_datetime attendance start_date end_date matrix df windowed,
    load_attendance to_datetime attendance = Returned df ->
    filter_weeks to_datetime df start_date end_date = Returned windowed ->
    _run_processing to_datetime attendance (Some csv) start_date end_date "auto" matrix
    = Raised AttributeError.
Proof.
  intros Hid Hsis Hem.
  destruct (roster_key_columns csv) as (Cid & Csis & Cem).
  assert (Htry : try_join_modes counts_out (load_gradebook_csv csv)
                 = (None, "email", Num 0)).
  { unfold try_join_modes, join_id, join_email.
    rewrite Cid, Csis, Cem, Hid, Hsis, Hem. reflexivity. }
  assert (Hany : forall counts,
             join_by_mode "auto" counts (load_gradebook_csv csv) = Returned None).
  { intros counts. unfold join_by_mode. cbn [String.eqb Ascii.eqb Bool.eqb].
    unfold try_join_modes, join_id, join_email.
    rewrite Cid, Csis, Cem, Hid, Hsis, Hem. reflexivity. }
  split; [exact Htry|]. split; [apply Hany|]. split; [reflexivity|].
  intros to_datetime attendance start_date end_date matrix df windowed Hload Hfilter.
  unfold _run_processing. rewrite Hload. cbn [bind]. rewrite Hfilter. cbn [bind].
  destruct (compute_counts (dedup_same_day windowed)) as [[[counts ld] w1] w2].
  rewrite Hany. reflexivity.
Qed.

Lemma try_join_modes_none_without_key_column_witness :
  has_ID names_only_gradebook = false /\
  has_SIS_Login_ID names_only_gradebook = false /\
  has_Email names_only_gradebook = false /\
  try_join_modes sample_counts (load_gradebook_csv names_only_gradebook)
  = (None, "email", Num 0).
Proof.
  repeat (split; [reflexivity|]).
  exact (proj1 (try_join_modes_none_without_key_column sample_counts names_only_gradebook
                  eq_refl eq_refl eq_refl)).
Defined.

(** ** Identity Normalizer *)

(** What [derive_identity] does choose: the ID cell if it is there and not
    empty, else the email cell if it is there and not empty, else the name. *)
Lemma derive_identity_priority (id email name : cell) :
  derive_identity id email name =
  match id, email with
  | Some (String c s), _ => id
  | _, Some (String c s) => email
  | _, _ => name
  end.
Proof.
  destruct id as [[|c s]|], email as [[|c' s']|]; reflexivity.
Qed.

(** With an ID column, the __id cell is never NaN: an empty ID cell has
    become the text nan, and that text is the identity. *)
Lemma load_row_missing_id (to_datetime : string -> option Z)
    (csv : attendance_csv) (i : nat) (r : raw_row) :
  id_col csv = true -> raw_id r = None ->
  __identity (load_row to_datetime csv i r) = Some "nan".
Proof.
  intros Hcol Hid. unfold load_row. cbn [__identity]. rewrite Hcol, Hid. reflexivity.
Qed.

(** C2 at a line with an empty ID cell and the email Ana@ucsc.edu, in a
    sheet that has an ID column: the identity is the text nan, not the
    normalized email. *)
Theorem load_attendance_missing_id_cell :
  exists row,
    load_attendance iso_to_datetime missing_id_csv = Returned [row] /\
    __id row = Some "nan" /\
    __email row = Some "ana@ucsc.edu" /\
    __identity row = Some "nan" /\
    __identity row <> normalize_email (Some "Ana@ucsc.edu").
Proof.
  eexists. split; [reflexivity|]. repeat split. discriminate.
Qed.

(** ** Domain fixes *)

Lemma re_match_wants_backslash (re : list re_atom) :
  wants_backslash re ->
  forall s, no_backslash s = true -> re_match_here re s = None.
Proof.
  unfold wants_backslash.
  induction re as [|a re IH]; intros Hin s Hs; [destruct Hin|].
  destruct Hin as [->|Hin].
  - destruct s as [|d s]; [reflexivity|].
    cbn [re_match_here]. cbn [no_backslash] in Hs.
    apply andb_true_iff in Hs as [Hd _]. apply negb_true_iff in Hd.
    rewrite Ascii.eqb_sym, Hd. reflexivity.
  - destruct a as [c| |]; cbn [re_match_here].
    + destruct s as [|d s]; [reflexivity|].
      cbn [no_backslash] in Hs. apply andb_true_iff in Hs as [_ Hs].
      rewrite (IH Hin s Hs). now destruct (Ascii.eqb c d).
    + destruct s as [|d s]; [reflexivity|].
      cbn [no_backslash] in Hs. apply andb_true_iff in Hs as [_ Hs].
      rewrite (IH Hin s Hs). now destruct (Ascii.eqb d newline).
    + rewrite (IH Hin s Hs). now destruct (_ || _).
Qed.

(** A pattern that asks for a backslash rewrites no text without one. *)
Lemma re_sub_wants_backslash (pattern repl e : string) :
  wants_backslash (re_compile pattern) ->
  no_backslash e = true ->
  re_sub pattern repl e = e.
Proof.
  intros Hre. unfold re_sub.
  induction e as [|c e IH]; intros He; [reflexivity|].
  cbn [re_sub_from].
  rewrite (re_match_wants_backslash _ Hre _ He).
  simpl in He. apply andb_true_iff in He as [_ He]. now rewrite IH.
Qed.

Lemma no_backslash_app (a b : string) :
  no_backslash (a ++ b) = no_backslash a && no_backslash b.
Proof.
  induction a as [|c a IH]; simpl; [reflexivity|].
  now rewrite IH, andb_assoc.
Qed.

Lemma re_sub_from_no_backslash (re : list re_atom) (repl s : string) (skip : nat) :
  no_backslash repl = true -> no_backslash s = true ->
  no_backslash (re_sub_from re repl s skip) = true.
Proof.
  intros Hrepl. revert skip.
  induction s as [|c s IH]; intros skip Hs; [reflexivity|].
  simpl in Hs. apply andb_true_iff in Hs as [Hc Hs].
  cbn [re_sub_from]. destruct skip as [|k]; [|now apply IH].
  destruct (re_match_here re (String c s)) as [[|n]|].
  - simpl. now rewrite Hc, IH.
  - rewrite no_backslash_app, Hrepl. now apply IH.
  - simpl. now rewrite Hc, IH.
Qed.

Lemma lower_char_backslash (c : ascii) :
  Ascii.eqb (lower_char c) backslash = Ascii.eqb c backslash.
Proof.
  destruct c as [[] [] [] [] [] [] [] []]; reflexivity.
Qed.

Lemma lower_no_backslash (s : string) : no_backslash (lower s) = no_backslash s.
Proof.
  induction s as [|c s IH]; simpl; [reflexivity|].
  now rewrite lower_char_backslash, IH.
Qed.

Lemma remove_spaces_no_backslash (s : string) :
  no_backslash s = true -> no_backslash (remove_spaces s) = true.
Proof.
  induction s as [|c s IH]; simpl; [reflexivity|].
  intros H. apply andb_true_iff in H as [Hc Hs].
  destruct (Ascii.eqb c " "); simpl; [now apply IH|]. now rewrite Hc, IH.
Qed.

Lemma lstrip_no_backslash (s : string) :
  no_backslash s = true -> no_backslash (lstrip s) = true.
Proof.
  induction s as [|c s IH]; simpl; [reflexivity|].
  intros H. destruct (is_space c); [|exact H].
  apply andb_true_iff in H as [_ Hs]. now apply IH.
Qed.

Lemma rstrip_no_backslash (s : string) :
  no_backslash s = true -> no_backslash (rstrip s) = true.
Proof.
  induction s as [|c s IH]; simpl; [reflexivity|].
  intros H. apply andb_true_iff in H as [Hc Hs]. specialize (IH Hs).
  destruct (rstrip s) as [|d r].
  - destruct (is_space c); simpl; [reflexivity|]. now rewrite Hc.
  - simpl in *. now rewrite Hc, IH.
Qed.

(** On text without a backslash, the whole table does what its first entry
    does: the four entries written with a doubled backslash never fire. *)
Lemma normalize_email_only_first_fix (s : string) :
  no_backslash s = true ->
  normalize_email (Some s)
  = Some (re_sub "@ucscedu$" "@ucsc.edu" (remove_spaces (lower (strip s)))).
Proof.
  intros Hs. unfold normalize_email, apply_fixes, COMMON_DOMAIN_FIXES.
  set (e := remove_spaces (lower (strip s))).
  assert (He : no_backslash e = true).
  { unfold e, strip. apply remove_spaces_no_backslash.
    rewrite lower_no_backslash. now apply rstrip_no_backslash, lstrip_no_backslash. }
  cbn [fold_left].
  set (e1 := re_sub "@ucscedu$" "@ucsc.edu" e).
  assert (He1 : no_backslash e1 = true)
    by (unfold e1, re_sub; now apply re_sub_from_no_backslash).
  assert (Hfix : forall pattern repl,
             wants_backslash (re_compile pattern) -> re_sub pattern repl e1 = e1)
    by (intros; now apply re_sub_wants_backslash).
  rewrite !Hfix; [reflexivity | | | | ];
    unfold wants_backslash; simpl; tauto.
Qed.

(** C3 at the listed typo domains: the suffixes .efu, .irg, uscs.edu and
    gmail.con come out unchanged, because the pattern read from the raw
    literal asks for a backslash and then any character; only the entry
    without a backslash rewrites its suffix. *)
Theorem normalize_email_typo_domains_unchanged :
  normalize_email (Some "x@ucsc.efu") = Some "x@ucsc.efu" /\
  normalize_email (Some "x@ucsc.irg") = Some "x@ucsc.irg" /\
  normalize_email (Some "x@uscs.edu") = Some "x@uscs.edu" /\
  normalize_email (Some "x@gmail.con") = Some "x@gmail.con" /\
  normalize_email (Some " X @UCSCedu ") = Some "x@ucsc.edu" /\
  re_compile "@ucsc\\.efu$"
  = [ Lit "@"; Lit "u"; Lit "c"; Lit "s"; Lit "c"; Lit backslash; AnyChar;
      Lit "e"; Lit "f"; Lit "u"; EndOfString ]%char.
Proof. repeat split. Qed.

(** ** Matrix Builder *)

Lemma min_na_last_le (l : list timestamp) (t : timestamp) :
  In t l -> na_last_leb (fold_right min_na_last None l) t = true.
Proof.
  induction l as [|a l IH]; simpl; [tauto|].
  unfold min_na_last at 1.
  destruct (na_last_leb a (fold_right min_na_last None l)) eqn:E.
  - intros [->|Hin]; [apply na_last_leb_refl|].
    eapply na_last_leb_trans; [exact E | now apply IH].
  - intros [->|Hin]; [now apply na_last_leb_total | now apply IH].
Qed.

Lemma min_na_last_ge (l : list timestamp) (x : timestamp) :
  (forall t, In t l -> na_last_leb x t = true) ->
  na_last_leb x (fold_right min_na_last None l) = true.
Proof.
  induction l as [|a l IH]; simpl; intros H.
  - now destruct x.
  - unfold min_na_last at 1.
    destruct (na_last_leb a (fold_right min_na_last None l)); auto.
Qed.

(** The first row of an identity, by timestamp, carries the earliest
    timestamp of that identity. *)
Lemma first_row_is_earliest (df : list att_row) (r : att_row) :
  In r (drop_duplicates cell_eqb __identity (sort_by ts_leb df)) ->
  __ts r = earliest df (__identity r).
Proof.
  intros Hr.
  assert (Hin : In r df).
  { apply drop_duplicates_In in Hr. now apply sort_by_In in Hr. }
  apply drop_duplicates_first in Hr as (l1 & l2 & Hsplit & Hl1); [|apply cell_eqb_spec].
  pose proof (sort_by_sorted ts_leb ts_leb_total ts_leb_trans df) as Hsorted.
  rewrite Hsplit in Hsorted. apply StronglySorted_app_inv in Hsorted.
  apply na_last_leb_antisym.
  - apply min_na_last_ge. intros t Ht.
    apply in_map_iff in Ht as (r' & <- & Hr').
    apply filter_In in Hr' as [Hr' Hid]. apply cell_eqb_spec in Hid.
    apply (sort_by_In ts_leb) in Hr'. rewrite Hsplit in Hr'.
    apply in_app_or in Hr' as [Hr'|[<-|Hr']].
    + rewrite Forall_forall in Hl1. now apply Hl1 in Hr'.
    + apply na_last_leb_refl.
    + rewrite Forall_forall in Hsorted. apply (Hsorted r' Hr').
  - apply min_na_last_le. apply in_map. apply filter_In.
    split; [exact Hin | now apply cell_eqb_spec].
Qed.

Lemma complete_pairs_In (att_ids : list (cell * date)) (i : string) (d : Z) :
  In (i, d) (complete_pairs att_ids) <-> In (Some i, Some d) att_ids.
Proof.
  unfold complete_pairs. rewrite in_flat_map. split.
  - intros ([[i'|] [d'|]] & Hin & H); simpl in H; try tauto.
    destruct H as [H|[]]. now injection H as -> ->.
  - intros H. exists (Some i, Some d). split; [exact H | now left].
Qed.

Lemma pivot_cell_attended (df : list att_row) (i : string) (d : Z) :
  pivot_cell (att_ids_of df) i d = if attended df (Some i) d then 1 else 0.
Proof.
  unfold pivot_cell, attended.
  match goal with
  | |- (if ?a then _ else _) = (if ?b then _ else _) =>
      assert (Heq : a = b); [|now rewrite Heq]
  end.
  apply eq_true_iff_eq. rewrite !existsb_exists. split.
  - intros ([i' d'] & Hin & H). simpl in H.
    apply andb_true_iff in H as [Hi Hd].
    apply String.eqb_eq in Hi. apply Z.eqb_eq in Hd. subst i' d'.
    apply complete_pairs_In in Hin.
    apply (proj1 (unique_In identity_date_eqb _ _ identity_date_eqb_spec)) in Hin.
    apply in_map_iff in Hin as (r & Hr & Hin).
    exists r. split; [exact Hin|].
    unfold identity_date in Hr. injection Hr as -> ->.
    apply andb_true_iff. split; [now apply cell_eqb_spec | now apply date_eqb_spec].
  - intros (r & Hin & H). apply andb_true_iff in H as [Hi Hd].
    apply cell_eqb_spec in Hi. apply date_eqb_spec in Hd.
    exists (i, d). split.
    + apply complete_pairs_In.
      apply (proj2 (unique_In identity_date_eqb _ _ identity_date_eqb_spec)).
      apply in_map_iff. exists r. split; [|exact Hin].
      unfold identity_date. now rewrite Hi, Hd.
    + simpl. now rewrite String.eqb_refl, Z.eqb_refl.
Qed.

Lemma pivot_cell_indexed (att_ids : list (cell * date)) (i : string) (d : Z) :
  pivot_cell att_ids i d <> 0 ->
  existsb (String.eqb i) (pivot_index att_ids) = true /\
  mem_date d (pivot_columns att_ids) = true.
Proof.
  unfold pivot_cell.
  destruct (existsb _ (complete_pairs att_ids)) eqn:E; [intros _ | congruence].
  apply existsb_exists in E as ([i' d'] & Hin & H). simpl in H.
  apply andb_true_iff in H as [Hi Hd].
  apply String.eqb_eq in Hi. apply Z.eqb_eq in Hd. subst i' d'.
  split; apply existsb_exists.
  - exists i. split; [|apply String.eqb_refl].
    apply sort_by_In. apply (proj2 (unique_In String.eqb _ _ String.eqb_eq)).
    now apply (in_map fst) in Hin.
  - exists d. split; [|apply Z.eqb_refl].
    apply sort_by_In. apply (proj2 (unique_In Z.eqb _ _ Z.eqb_eq)).
    now apply (in_map snd) in Hin.
Qed.

(** One cell of the matrix: 1 when the identity attended the date, else 0. *)
Lemma matrix_dates_nth (df : list att_row) (six_dates : list Z)
    (identity : cell) (k : nat) (d : Z) :
  nth_error six_dates k = Some d ->
  nth_error (matrix_dates (att_ids_of df) six_dates identity) k
  = Some (if attended df identity d then 1 else 0).
Proof.
  intros Hk. unfold matrix_dates.
  destruct identity as [i|]; [|now rewrite nth_error_map, Hk].
  rewrite <- pivot_cell_attended.
  destruct (Z.eq_dec (pivot_cell (att_ids_of df) i d) 0) as [Hz|Hnz].
  - rewrite Hz.
    destruct (existsb _ (pivot_index _)); unfold pivot_row;
      rewrite nth_error_map, Hk; simpl; [|reflexivity].
    rewrite Hz. now destruct (mem_date _ _).
  - destruct (pivot_cell_indexed _ _ _ Hnz) as [Hi Hd].
    rewrite Hi. unfold pivot_row. rewrite nth_error_map, Hk. simpl. now rewrite Hd.
Qed.

Lemma matrix_dates_shape (att_ids : list (cell * date)) (six_dates : list Z)
    (identity : cell) :
  List.length (matrix_dates att_ids six_dates identity) = List.length six_dates /\
  Forall (fun v => v = 0 \/ v = 1) (matrix_dates att_ids six_dates identity).
Proof.
  assert (Hzeros : Forall (fun v => v = 0 \/ v = 1) (map (fun _ : Z => 0) six_dates)).
  { apply Forall_forall. intros v Hv. apply in_map_iff in Hv as (_ & <- & _). now left. }
  unfold matrix_dates.
  destruct identity as [i|]; [|now rewrite length_map].
  destruct (existsb _ _); [|now rewrite length_map].
  unfold pivot_row. rewrite length_map. split; [reflexivity|].
  apply Forall_forall. intros v Hv. apply in_map_iff in Hv as (d & <- & _).
  unfold pivot_cell. destruct (mem_date _ _); [|now left].
  destruct (existsb _ _); [now right | now left].
Qed.

Lemma StronglySorted_map {A B : Type} (R : B -> B -> Prop) (f : A -> B) (l : list A) :
  StronglySorted (fun a b => R (f a) (f b)) l -> StronglySorted R (map f l).
Proof.
  induction 1 as [|x l Hl IH Hx]; simpl; constructor; [exact IH|].
  apply Forall_forall. intros y Hy. apply in_map_iff in Hy as (z & <- & Hz).
  rewrite Forall_forall in Hx. now apply Hx.
Qed.

Lemma StronglySorted_In_impl {A : Type} (R1 R2 : A -> A -> Prop) (l : list A) :
  (forall a b, In a l -> In b l -> R1 a b -> R2 a b) ->
  StronglySorted R1 l -> StronglySorted R2 l.
Proof.
  intros Himpl H. induction H as [|x l Hl IH Hx]; constructor.
  - apply IH. intros a b Ha Hb. apply Himpl; now right.
  - rewrite Forall_forall in *. intros y Hy.
    apply Himpl; [now left | now right | now apply Hx].
Qed.

(** C9.  For a list of distinct selected dates, the matrix has one row for
    each identity of the table; a row has one cell for each selected date, 1
    when its identity attended that date and 0 otherwise (so the column of a
    date that nobody attended is all zero); total_count is the sum of these
    cells and max_possible is 6; the rows come in the order of the earliest
    timestamps of their identities. *)
Theorem write_matrix_rows (df_weeks : list att_row) (six_dates : list Z) :
  NoDup six_dates ->
  NoDup (map mx_identity (write_matrix df_weeks six_dates)) /\
  (forall i, In i (map mx_identity (write_matrix df_weeks six_dates))
             <-> In i (map __identity df_weeks)) /\
  Forall (fun row =>
            List.length (mx_dates row) = List.length six_dates /\
            Forall (fun v => v = 0 \/ v = 1) (mx_dates row) /\
            (forall k d, nth_error six_dates k = Some d ->
               nth_error (mx_dates row) k
               = Some (if attended df_weeks (mx_identity row) d then 1 else 0)) /\
            mx_total_count row = fold_right Z.add 0 (mx_dates row) /\
            mx_max_possible row = 6)
         (write_matrix df_weeks six_dates) /\
  StronglySorted
    (fun a b => na_last_leb (earliest df_weeks (mx_identity a))
                            (earliest df_weeks (mx_identity b)) = true)
    (write_matrix df_weeks six_dates).
Proof.
  intros _.
  set (mini := drop_duplicates cell_eqb __identity (sort_by ts_leb df_weeks)).
  assert (Hids : map mx_identity (write_matrix df_weeks six_dates) = map __identity mini).
  { unfold write_matrix. fold mini. rewrite map_map. reflexivity. }
  split; [rewrite Hids; apply drop_duplicates_NoDup, cell_eqb_spec|].
  split.
  { intros i. rewrite Hids. split.
    - intros Hi. apply in_map_iff in Hi as (r & <- & Hr).
      apply in_map. apply drop_duplicates_In in Hr. now apply sort_by_In in Hr.
    - intros Hi. apply in_map_iff in Hi as (r & <- & Hr).
      apply drop_duplicates_keys; [apply cell_eqb_spec | now apply sort_by_In]. }
  split.
  { apply Forall_forall. intros row Hrow. unfold write_matrix in Hrow.
    apply in_map_iff in Hrow as (r & <- & _). cbn [mx_dates mx_identity mx_total_count
      mx_max_possible].
    destruct (matrix_dates_shape (att_ids_of df_weeks) six_dates (__identity r))
      as [Hlen Hbits].
    repeat split; try assumption.
    intros k d Hk. now apply matrix_dates_nth. }
  unfold write_matrix. fold mini. apply StronglySorted_map. cbn [mx_identity].
  apply (StronglySorted_In_impl (fun a b => ts_leb a b = true)).
  - intros a b Ha Hb Hab.
    rewrite <- (first_row_is_earliest df_weeks a Ha).
    rewrite <- (first_row_is_earliest df_weeks b Hb). exact Hab.
  - apply drop_duplicates_sorted.
    apply sort_by_sorted; [apply ts_leb_total | apply ts_leb_trans].
Qed.

Lemma write_matrix_rows_witness :
  NoDup [20360; 20362] /\
  NoDup (map mx_identity (write_matrix sample_windowed [20360; 20362])).
Proof.
  assert (H : NoDup [20360; 20362]).
  { repeat constructor; simpl; intros H; lia. }
  split; [exact H|].
  exact (proj1 (write_matrix_rows sample_windowed [20360; 20362] H)).
Defined.


(** ** Scenarios of the specification *)

(** A repeat check-in on the same day collapses to one date: S1 has
    week1_count 2, total_count 2 and percentage 100/3. *)
Example scenario_duplicate_collapsed :
  map (fun row => (c_identity row, week1_count row, total_count row, Qred (percentage row)))
      sample_counts
  = [ ("1", 2, 2, (100 # 3)%Q); ("2", 1, 1, (50 # 3)%Q) ].
Proof. vm_compute. reflexivity. Qed.

(** The earlier of the two check-ins of 2025-09-29 is the one kept, although
    it comes second in the sheet. *)
Example scenario_earliest_wins :
  map index sample_windowed = [1; 2; 3]%nat.
Proof. vm_compute. reflexivity. Qed.

(** Four lecture dates: Week1 takes three, Week2 one. *)
Example scenario_short_week :
  week1_of [20360; 20362; 20364; 20367] = [20360; 20362; 20364] /\
  week2_of [20360; 20362; 20364; 20367] = [20367].
Proof. split; vm_compute; reflexivity. Qed.

(** The roster student who never checked in is in the output, zero-filled. *)
Example scenario_unmatched_roster_row :
  match finalize_output (Some sample_merged) with
  | Returned out =>
      map (fun o => (Student o, out_week1_count o, out_week2_count o,
                     out_total_count o, out_max_possible o, out_percentage o))
          (out_rows out)
  | Raised _ => []
  end
  = [ (Some "Stu One", 2, 0, 2, 6, 200 # 6); (Some "Stu Nine", 0, 0, 0, 6, 0) ]%Q.
Proof. vm_compute. reflexivity. Qed.

(** * More of the engine

    Properties of the functions beside the ones above: what they do on
    missing columns, empty tables and broken cells, and how they compose. *)

(** ** Column discovery *)

Lemma dict_set_keys (k v : string) (d : list (string * string)) :
  map fst (dict_set k v d) = if existsb (String.eqb k) (map fst d)
                             then map fst d else map fst d ++ [k].
Proof.
  induction d as [|[k' v'] d IH]; simpl; [reflexivity|].
  destruct (String.eqb_spec k k') as [->|Hne]; simpl; [reflexivity|].
  rewrite IH. now destruct (existsb _ _).
Qed.

Lemma dict_set_In (k v : string) (d : list (string * string)) (k0 v0 : string) :
  NoDup (map fst d) ->
  In (k0, v0) (dict_set k v d) <->
  (k0 = k /\ v0 = v) \/ (k0 <> k /\ In (k0, v0) d).
Proof.
  induction d as [|[k' v'] d IH]; simpl; intros Hnd.
  - split; [intros [H|[]]; injection H as <- <-; now left|].
    intros [[-> ->]|[_ []]]. now left.
  - inversion Hnd as [|? ? Hk' Hd]; subst.
    destruct (String.eqb_spec k k') as [->|Hne]; simpl.
    + split.
      * intros [H|H]; [injection H as <- <-; now left|].
        right. split; [|now right]. intros ->. apply Hk'.
        now apply (in_map fst) in H.
      * intros [[-> ->]|[Hne [H|H]]]; [now left | | now right].
        injection H as <- <-. congruence.
    + rewrite (IH Hd). split.
      * intros [H|[[-> ->]|[Hne0 H]]];
          [right; injection H as <- <-; split; [congruence | now left]
          | now left | right; tauto].
      * intros [[-> ->]|[Hne0 [H|H]]]; [right; now left | now left | right; right; tauto].
Qed.

Lemma dict_set_NoDup (k v : string) (d : list (string * string)) :
  NoDup (map fst d) -> NoDup (map fst (dict_set k v d)).
Proof.
  intros Hnd. rewrite dict_set_keys.
  destruct (existsb _ _) eqn:E; [exact Hnd|].
  apply NoDup_app; [exact Hnd | repeat constructor; intros [] |].
  intros x Hx [Heq|[]]. subst x.
  assert (existsb (String.eqb k) (map fst d) = true); [|congruence].
  apply existsb_exists. exists k. split; [exact Hx | apply String.eqb_refl].
Qed.

Lemma lower_columns_snoc (cols : list string) (c : string) :
  lower_columns (cols ++ [c]) = dict_set (lower c) c (lower_columns cols).
Proof. unfold lower_columns. now rewrite fold_left_app. Qed.

Lemma lower_columns_NoDup (cols : list string) : NoDup (map fst (lower_columns cols)).
Proof.
  induction cols as [|c cols IH] using rev_ind; [constructor|].
  rewrite lower_columns_snoc. now apply dict_set_NoDup.
Qed.

(** The dict maps the lowercase of each header to the last header with that
    lowercase. *)
Lemma lower_columns_In (cols : list string) (k v : string) :
  In (k, v) (lower_columns cols) <->
  k = lower v /\
  exists pre post, cols = pre ++ v :: post /\ forall c, In c post -> lower c <> lower v.
Proof.
  revert k v. induction cols as [|c cols IH] using rev_ind; intros k v.
  - simpl. split; [tauto|]. intros (_ & pre & post & H & _). now destruct pre.
  - rewrite lower_columns_snoc, dict_set_In by apply lower_columns_NoDup.
    rewrite IH. split.
    + intros [[-> ->]|(Hne & -> & pre & post & -> & Hpost)].
      * split; [reflexivity|]. exists cols, []. split; [reflexivity | intros ? []].
      * split; [reflexivity|]. exists pre, (post ++ [c]).
        split; [now rewrite <- app_assoc|].
        intros c' Hc'. apply in_app_or in Hc' as [Hc'|[<-|[]]]; [now apply Hpost|].
        congruence.
    + intros (-> & pre & post & Heq & Hpost).
      destruct post as [|p post _] using rev_ind.
      * apply app_inj_tail in Heq as [_ <-]. now left.
      * right. change (pre ++ v :: post ++ [p]) with (pre ++ (v :: post) ++ [p]) in Heq.
        rewrite app_assoc in Heq. apply app_inj_tail in Heq as [-> ->].
        split; [intros Heq; apply (Hpost p);
                [apply in_or_app; right; now left | now symmetry]|].
        split; [reflexivity|]. exists pre, post. split; [reflexivity|].
        intros c' Hc'. apply Hpost, in_or_app. now left.
Qed.

Lemma find_app_last {A : Type} (p : A -> bool) (l : list A) (x : A) :
  find p (l ++ [x]) = match find p l with
                      | Some y => Some y
                      | None => if p x then Some x else None
                      end.
Proof.
  induction l as [|a l IH]; simpl; [reflexivity|]. now destruct (p a).
Qed.

(** The keys come in the order in which the lowercased headers first
    appear, so a search through the keys finds what a search through the
    lowercased headers finds. *)
Lemma lower_columns_find (p : string -> bool) (cols : list string) :
  find p (map fst (lower_columns cols)) = find p (map lower cols).
Proof.
  induction cols as [|c cols IH] using rev_ind; [reflexivity|].
  rewrite lower_columns_snoc, dict_set_keys, map_app. cbn [map].
  rewrite (find_app_last p (map lower cols)).
  destruct (existsb _ _) eqn:E.
  - rewrite IH. destruct (find p (map lower cols)) eqn:F; [reflexivity|].
    apply existsb_exists in E as (k & Hk & Hkc). apply String.eqb_eq in Hkc. subst k.
    apply (find_none _ _ IH) in Hk. now rewrite Hk.
  - now rewrite find_app_last, IH.
Qed.

Lemma find_map_fst {A B : Type} (p : A -> bool) (l : list (A * B)) :
  option_map fst (find (fun kv => p (fst kv)) l) = find p (map fst l).
Proof.
  induction l as [|[a b] l IH]; simpl; [reflexivity|]. now destruct (p a).
Qed.

Lemma next_col_spec (p : string -> bool) (cols : list string) :
  match next_col p (lower_columns cols) with
  | Some c =>
      find p (map lower cols) = Some (lower c) /\
      exists pre post,
        cols = pre ++ c :: post /\ forall c', In c' post -> lower c' <> lower c
  | None => forall c, In c cols -> p (lower c) = false
  end.
Proof.
  unfold next_col.
  pose proof (find_map_fst p (lower_columns cols)) as Hfst.
  rewrite lower_columns_find in Hfst.
  destruct (find _ (lower_columns cols)) as [[k v]|] eqn:F; simpl in *.
  - apply find_some in F as [Hin _].
    apply lower_columns_In in Hin as (-> & Hlast). split; [now symmetry | exact Hlast].
  - intros c Hc. symmetry in Hfst.
    apply (find_none _ _ Hfst). now apply in_map.
Qed.


(** X1.  The column that [load_attendance] takes for a test on lowercased
    header names: when some header passes the test, it is the last header
    spelled, up to case, like the first header that passes; when none does,
    no column is taken. *)
Theorem next_col_lower_columns (p : string -> bool) (cols : list string) :
  match next_col p (lower_columns cols) with
  | Some c =>
      find p (map lower cols) = Some (lower c) /\
      exists pre post,
        cols = pre ++ c :: post /\ forall c', In c' post -> lower c' <> lower c
  | None => forall c, In c cols -> p (lower c) = false
  end.
Proof. exact (next_col_spec p cols). Qed.


(** ** Loading the attendance sheet *)

Lemma nth_error_load_rows {A B : Type} (f : nat -> A -> B) (l : list A) (a i : nat) (x : A) :
  nth_error l i = Some x ->
  nth_error (map (fun '(k, y) => f k y) (combine (seq a (List.length l)) l)) i
  = Some (f (a + i)%nat x).
Proof.
  revert a i. induction l as [|y l IH]; intros a i H; [now destruct i|].
  destruct i as [|i]; simpl in *.
  - injection H as ->. now rewrite Nat.add_0_r.
  - rewrite (IH (S a) i H). f_equal. f_equal. lia.
Qed.

Lemma date_of_ns_bounds (t : Z) :
  date_of_ns t * NS_PER_DAY <= t < (date_of_ns t + 1) * NS_PER_DAY.
Proof.
  unfold date_of_ns.
  assert (H : 0 < NS_PER_DAY) by reflexivity.
  pose proof (Z.mul_div_le t NS_PER_DAY H).
  pose proof (Z.mul_succ_div_gt t NS_PER_DAY H).
  lia.
Qed.

Lemma load_attendance_nth (to_datetime : string -> option Z)
    (csv : attendance_csv) (df : list att_row) :
  load_attendance to_datetime csv = Returned df ->
  List.length df = List.length (csv_rows csv) /\
  forall i line, nth_error (csv_rows csv) i = Some line ->
    nth_error df i = Some (load_row to_datetime csv i line).
Proof.
  unfold load_attendance.
  destruct (negb (ts_col csv) || (negb (email_col csv) && negb (id_col csv)));
    [discriminate|].
  intros H. injection H as <-. split.
  - rewrite length_map, length_combine, length_seq. apply Nat.min_id.
  - intros i line Hline.
    apply (nth_error_load_rows (load_row to_datetime csv) _ 0 i line Hline).
Qed.

(** X3.  [load_attendance] keeps every line of the sheet, broken or not, in
    order: line [i] becomes the row with index [i]; its timestamp is the
    parsed cell, NaT when the cell is empty or not a date; its date is NaT
    with the timestamp, and otherwise the day that holds the timestamp, also
    before the epoch. *)
Theorem load_attendance_keeps_lines
    (to_datetime : string -> option Z) (csv : attendance_csv) (df : list att_row) :
  load_attendance to_datetime csv = Returned df ->
  List.length df = List.length (csv_rows csv) /\
  forall i line, nth_error (csv_rows csv) i = Some line ->
    exists r,
      nth_error df i = Some r /\ index r = i /\
      __ts r = to_dt to_datetime (raw_timestamp line) /\
      match __ts r with
      | Some t =>
          exists d, __date r = Some d /\ d * NS_PER_DAY <= t < (d + 1) * NS_PER_DAY
      | None => __date r = None
      end.
Proof.
  intros Hload. destruct (load_attendance_nth _ _ _ Hload) as [Hlen Hnth].
  split; [exact Hlen|].
  intros i line Hline. eexists. split; [exact (Hnth i line Hline)|].
  cbn [load_row index __ts __date]. repeat split.
  destruct (to_dt to_datetime (raw_timestamp line)) as [t|]; [|reflexivity].
  exists (date_of_ns t). split; [reflexivity | apply date_of_ns_bounds].
Qed.

Lemma load_attendance_keeps_lines_witness :
  load_attendance iso_to_datetime sample_csv = Returned sample_df /\
  List.length sample_df = List.length (csv_rows sample_csv).
Proof.
  assert (H : load_attendance iso_to_datetime sample_csv = Returned sample_df)
    by reflexivity.
  split; [exact H|].
  exact (proj1 (load_attendance_keeps_lines iso_to_datetime sample_csv sample_df H)).
Defined.

Lemma load_attendance_In (to_datetime : string -> option Z)
    (csv : attendance_csv) (df : list att_row) (r : att_row) :
  load_attendance to_datetime csv = Returned df ->
  In r df ->
  (email_col csv = true \/ id_col csv = true) /\
  exists i line, r = load_row to_datetime csv i line.
Proof.
  unfold load_attendance.
  destruct (ts_col csv), (email_col csv), (id_col csv); simpl; try discriminate;
    intros H Hr; injection H as <-;
    apply in_map_iff in Hr as ([i line] & <- & _); (split; [tauto|]);
    now exists i, line.
Qed.

(** X4.  The identity of a loaded row.  In a sheet without ID column it is
    the normalized email when that is there and not empty, and the name
    otherwise.  It is NaN only in a sheet without name column, on a line
    whose ID and email are both missing or empty; so with a name column
    every row has an identity. *)
Theorem load_attendance_identity
    (to_datetime : string -> option Z) (csv : attendance_csv) (df : list att_row)
    (r : att_row) :
  load_attendance to_datetime csv = Returned df ->
  In r df ->
  (id_col csv = false ->
   __identity r = match __email r with
                  | Some (String _ _) => __email r
                  | _ => __name r
                  end) /\
  (__identity r = None <->
   name_col csv = false /\
   (__id r = None \/ __id r = Some EmptyString) /\
   (__email r = None \/ __email r = Some EmptyString)).
Proof.
  intros Hload Hr.
  destruct (load_attendance_In _ _ _ _ Hload Hr) as (Hkey & i & line & ->).
  unfold load_row. cbn [__identity __email __name __id].
  rewrite derive_identity_priority.
  destruct (id_col csv), (name_col csv), (email_col csv);
    try (destruct Hkey; discriminate);
    try destruct (strip (astype_str (raw_id line))) as [|c s];
    try destruct (normalize_email (raw_email line)) as [[|c' s']|];
    (split; [intros; try reflexivity; try discriminate|]);
    (split; [try discriminate; intros _; repeat split; tauto
            |try (intros (? & ? & ?); first [discriminate | reflexivity]);
             try (intros (_ & [?|?] & _); discriminate);
             try (intros (_ & _ & [?|?]); discriminate)]).
Qed.

Lemma load_attendance_identity_witness :
  load_attendance iso_to_datetime (discover sample_file) = Returned sample_file_df /\
  In sample_file_row sample_file_df /\
  (id_col (discover sample_file) = false ->
   __identity sample_file_row = match __email sample_file_row with
                                | Some (String _ _) => __email sample_file_row
                                | _ => __name sample_file_row
                                end).
Proof.
  assert (H : load_attendance iso_to_datetime (discover sample_file)
              = Returned sample_file_df) by reflexivity.
  assert (Hin : In sample_file_row sample_file_df) by (right; left; reflexivity).
  split; [exact H|]. split; [exact Hin|].
  exact (proj1 (load_attendance_identity iso_to_datetime (discover sample_file)
                  sample_file_df sample_file_row H Hin)).
Defined.

(** ** Email normalization *)

Lemma all_chars_app (p : ascii -> bool) (a b : string) :
  all_chars p (a ++ b) = all_chars p a && all_chars p b.
Proof.
  induction a as [|c a IH]; simpl; [reflexivity|]. now rewrite IH, andb_assoc.
Qed.

Lemma re_sub_from_all_chars (p : ascii -> bool) (re : list re_atom)
    (repl s : string) (skip : nat) :
  all_chars p repl = true -> all_chars p s = true ->
  all_chars p (re_sub_from re repl s skip) = true.
Proof.
  intros Hrepl. revert skip.
  induction s as [|c s IH]; intros skip Hs; [reflexivity|].
  simpl in Hs. apply andb_true_iff in Hs as [Hc Hs].
  cbn [re_sub_from]. destruct skip as [|k]; [|now apply IH].
  destruct (re_match_here re (String c s)) as [[|n]|].
  - simpl. now rewrite Hc, IH.
  - rewrite all_chars_app, Hrepl. now apply IH.
  - simpl. now rewrite Hc, IH.
Qed.

Lemma apply_fixes_all_chars (p : ascii -> bool) (fixes : list (string * string)) (e : string) :
  Forall (fun fx => all_chars p (snd fx) = true) fixes ->
  all_chars p e = true -> all_chars p (apply_fixes fixes e) = true.
Proof.
  unfold apply_fixes. intros Hfix. revert e.
  induction Hfix as [|[bad good] fixes Hgood _ IH]; intros e He; [exact He|].
  simpl. apply IH. unfold re_sub. now apply re_sub_from_all_chars.
Qed.

Lemma lstrip_all_chars (p : ascii -> bool) (s : string) :
  all_chars p s = true -> all_chars p (lstrip s) = true.
Proof.
  induction s as [|c s IH]; simpl; [reflexivity|].
  intros H. destruct (is_space c); [|exact H].
  apply andb_true_iff in H as [_ Hs]. now apply IH.
Qed.

Lemma rstrip_all_chars (p : ascii -> bool) (s : string) :
  all_chars p s = true -> all_chars p (rstrip s) = true.
Proof.
  induction s as [|c s IH]; simpl; [reflexivity|].
  intros H. apply andb_true_iff in H as [Hc Hs]. specialize (IH Hs).
  destruct (rstrip s) as [|d r].
  - destruct (is_space c); simpl; [reflexivity|]. now rewrite Hc.
  - simpl in *. now rewrite Hc, IH.
Qed.

Lemma lower_char_not_upper (c : ascii) : is_upper (lower_char c) = false.
Proof. destruct c as [[] [] [] [] [] [] [] []]; reflexivity. Qed.

Lemma lower_not_upper (s : string) :
  all_chars (fun c => negb (is_upper c)) (lower s) = true.
Proof.
  induction s as [|c s IH]; simpl; [reflexivity|].
  now rewrite lower_char_not_upper, IH.
Qed.

Lemma remove_spaces_clean (s : string) :
  all_chars (fun c => negb (is_upper c)) s = true ->
  all_chars is_clean (remove_spaces s) = true.
Proof.
  induction s as [|c s IH]; simpl; [reflexivity|].
  intros H. apply andb_true_iff in H as [Hc Hs].
  destruct (Ascii.eqb c " ") eqn:E; [now apply IH|].
  simpl. unfold is_clean at 1. rewrite E, Hc. simpl. now apply IH.
Qed.

Lemma lower_char_space (c : ascii) : is_space (lower_char c) = is_space c.
Proof. destruct c as [[] [] [] [] [] [] [] []]; reflexivity. Qed.

Lemma lower_char_idempotent (c : ascii) : lower_char (lower_char c) = lower_char c.
Proof. destruct c as [[] [] [] [] [] [] [] []]; reflexivity. Qed.

Lemma lower_idempotent (s : string) : lower (lower s) = lower s.
Proof.
  induction s as [|c s IH]; simpl; [reflexivity|].
  now rewrite lower_char_idempotent, IH.
Qed.

Lemma lstrip_lower (s : string) : lstrip (lower s) = lower (lstrip s).
Proof.
  induction s as [|c s IH]; simpl; [reflexivity|].
  rewrite lower_char_space. now destruct (is_space c).
Qed.

Lemma rstrip_lower (s : string) : rstrip (lower s) = lower (rstrip s).
Proof.
  induction s as [|c s IH]; simpl; [reflexivity|].
  rewrite IH, lower_char_space.
  destruct (rstrip s) as [|d r]; simpl; [|reflexivity].
  now destruct (is_space c).
Qed.

(** X5.  What [normalize_email] returns: NaN for NaN and nothing else; a
    text without blank and without uppercase letter for a text; and the same
    text for two spellings that differ in case only. *)
Theorem normalize_email_clean (email : cell) :
  match email with
  | None => normalize_email email = None
  | Some s =>
      exists e,
        normalize_email email = Some e /\
        all_chars is_clean e = true /\
        normalize_email (Some (lower s)) = Some e
  end.
Proof.
  destruct email as [s|]; [|reflexivity].
  eexists. split; [reflexivity|]. split.
  - apply apply_fixes_all_chars.
    + repeat constructor.
    + apply remove_spaces_clean.
      assert (H : all_chars (fun c => negb (is_upper c)) (lower (strip s)) = true)
        by apply lower_not_upper.
      exact H.
  - unfold normalize_email, strip.
    now rewrite lstrip_lower, rstrip_lower, lower_idempotent.
Qed.

(** ** Window filter and deduplication *)

Lemma filter_weeks_spec
    (to_datetime : string -> option Z) (df : list att_row) (start_iso end_iso : string) :
  match filter_weeks to_datetime df start_iso end_iso with
  | Returned w =>
      exists start end_,
        parse_date to_datetime start_iso = Returned start /\
        parse_date to_datetime end_iso = Returned end_ /\
        forall r, In r w <->
                  In r df /\ exists d, __date r = Some d /\ start <= d <= end_
  | Raised e =>
      e = ValueError /\
      (to_datetime start_iso = None \/ to_datetime end_iso = None)
  end.
Proof.
  unfold filter_weeks, parse_date.
  destruct (to_datetime start_iso) as [s|]; cbn [bind]; [|split; [reflexivity | now left]].
  destruct (to_datetime end_iso) as [e|]; cbn [bind]; [|split; [reflexivity | now right]].
  exists (date_of_ns s), (date_of_ns e). split; [reflexivity|]. split; [reflexivity|].
  intros r. rewrite filter_In, andb_true_iff. unfold ge_date, le_date.
  destruct (__date r) as [d|].
  - rewrite !Z.leb_le. split.
    + intros (Hin & H1 & H2). split; [exact Hin|]. exists d. now repeat split.
    + intros (Hin & d' & Hd & H1 & H2). injection Hd as <-. tauto.
  - split; [intros (_ & H & _); discriminate | intros (_ & d & H & _); discriminate].
Qed.


(** X7.  A line whose timestamp cell is empty or not a date stops no run: it
    is loaded with a NaT timestamp and left out by the window.  Every row of
    the window comes from the line of its index, and that line's timestamp
    parses. *)
Theorem window_rows_have_timestamps
    (to_datetime : string -> option Z) (csv : attendance_csv)
    (df w : list att_row) (start_iso end_iso : string) :
  load_attendance to_datetime csv = Returned df ->
  filter_weeks to_datetime df start_iso end_iso = Returned w ->
  forall r, In r w ->
    exists line t,
      nth_error (csv_rows csv) (index r) = Some line /\
      to_dt to_datetime (raw_timestamp line) = Some t /\
      __ts r = Some t.
Proof.
  intros Hload Hfilter r Hr.
  pose proof (filter_weeks_spec to_datetime df start_iso end_iso) as Hspec.
  rewrite Hfilter in Hspec. destruct Hspec as (s & e & _ & _ & Hw).
  apply (proj1 (Hw r)) in Hr. destruct Hr as (Hin & d & Hd & _).
  destruct (load_attendance_nth _ _ _ Hload) as [Hlen Hnth].
  apply In_nth_error in Hin as [k Hk].
  assert (Hlt : (k < List.length (csv_rows csv))%nat).
  { rewrite <- Hlen. apply nth_error_Some. congruence. }
  destruct (nth_error (csv_rows csv) k) as [line|] eqn:Hline;
    [|apply nth_error_None in Hline; lia].
  rewrite (Hnth k line Hline) in Hk. injection Hk as <-.
  unfold load_row in *. cbn [index __ts __date] in *.
  destruct (to_dt to_datetime (raw_timestamp line)) as [t|] eqn:Ht; [|discriminate].
  exists line, t. split; [exact Hline | split; [exact Ht | reflexivity]].
Qed.

Lemma window_rows_have_timestamps_witness :
  load_attendance iso_to_datetime sample_csv = Returned sample_df /\
  filter_weeks iso_to_datetime sample_df "2025-09-29" "2025-10-10"
  = Returned sample_filtered /\
  In sample_first_row sample_filtered /\
  exists line t,
    nth_error (csv_rows sample_csv) (index sample_first_row) = Some line /\
    to_dt iso_to_datetime (raw_timestamp line) = Some t /\
    __ts sample_first_row = Some t.
Proof.
  assert (H1 : load_attendance iso_to_datetime sample_csv = Returned sample_df)
    by reflexivity.
  assert (H2 : filter_weeks iso_to_datetime sample_df "2025-09-29" "2025-10-10"
               = Returned sample_filtered) by reflexivity.
  assert (H3 : In sample_first_row sample_filtered) by (left; reflexivity).
  split; [exact H1|]. split; [exact H2|]. split; [exact H3|].
  exact (window_rows_have_timestamps iso_to_datetime sample_csv sample_df sample_filtered
           "2025-09-29" "2025-10-10" H1 H2 sample_first_row H3).
Defined.

(** X8.  [dedup_same_day] only reorders a table, losing no row, exactly when
    no two rows of the table share the identity and the date; and it never
    returns more rows than it was given. *)
Theorem dedup_same_day_permutation_iff (df : list att_row) :
  (Permutation (dedup_same_day df) df <-> NoDup (map identity_date df)) /\
  (List.length (dedup_same_day df) <= List.length df)%nat.
Proof.
  pose proof (sort_by_perm date_ts_leb df) as Hsort.
  split; [split|].
  - intros Hperm.
    apply (Permutation_NoDup (l := map identity_date (dedup_same_day df))).
    + now apply Permutation_map.
    + apply drop_duplicates_NoDup, identity_date_eqb_spec.
  - intros Hnd. unfold dedup_same_day.
    rewrite drop_duplicates_fixpoint; [exact Hsort | apply identity_date_eqb_spec |].
    apply (Permutation_NoDup (l := map identity_date df)); [|exact Hnd].
    apply Permutation_map. now symmetry.
  - rewrite <- (Permutation_length Hsort). unfold dedup_same_day.
    apply NoDup_incl_length.
    + apply (NoDup_map_inv identity_date).
      apply drop_duplicates_NoDup, identity_date_eqb_spec.
    + intros r. apply drop_duplicates_In.
Qed.

(** ** The lecture calendar *)

Lemma dropna_In {A : Type} (l : list (option A)) (x : A) :
  In x (dropna l) <-> In (Some x) l.
Proof.
  induction l as [|[y|] l IH]; simpl; [tauto | |].
  - rewrite IH. split; intros [H|H]; try tauto; [left; congruence|].
    injection H as ->. now left.
  - rewrite IH. split; [tauto|]. intros [H|H]; [discriminate | exact H].
Qed.

Lemma dropna_NoDup {A : Type} (l : list (option A)) : NoDup l -> NoDup (dropna l).
Proof.
  induction 1 as [|[y|] l Hy Hl IH]; simpl; [constructor | | exact IH].
  constructor; [|exact IH]. now rewrite dropna_In.
Qed.

Lemma Z_leb_total (a b : Z) : (a <=? b) = false -> (b <=? a) = true.
Proof. rewrite Z.leb_gt, Z.leb_le. lia. Qed.

Lemma Z_leb_trans (a b c : Z) : (a <=? b) = true -> (b <=? c) = true -> (a <=? c) = true.
Proof. rewrite !Z.leb_le. lia. Qed.

Lemma sorted_NoDup_strict (l : list Z) :
  StronglySorted (fun a b => (a <=? b) = true) l -> NoDup l -> StronglySorted Z.lt l.
Proof.
  induction 1 as [|x l Hl IH Hx]; intros Hnd; constructor;
    inversion Hnd as [|? ? Hnotin Hnd']; subst.
  - now apply IH.
  - rewrite Forall_forall in *. intros y Hy.
    specialize (Hx y Hy). apply Z.leb_le in Hx.
    assert (x <> y) by (intros ->; contradiction). lia.
Qed.

Lemma lecture_dates_of_NoDup (df : list att_row) : NoDup (lecture_dates_of df).
Proof.
  unfold lecture_dates_of.
  apply (Permutation_NoDup (l := dropna (unique date_eqb (map __date df)))).
  - symmetry. apply sort_by_perm.
  - apply dropna_NoDup, unique_NoDup, date_eqb_spec.
Qed.

Lemma lecture_dates_of_In (df : list att_row) (d : Z) :
  In d (lecture_dates_of df) <-> exists r, In r df /\ __date r = Some d.
Proof.
  unfold lecture_dates_of.
  rewrite sort_by_In, dropna_In, (unique_In date_eqb _ _ date_eqb_spec), in_map_iff.
  split; intros (r & H1 & H2); exists r; tauto.
Qed.

Lemma week_split (l : list Z) : week1_of l ++ week2_of l = firstn 6 l.
Proof.
  unfold week1_of, week2_of.
  destruct (Nat.leb_spec 3 (List.length l)) as [H3|H3];
    destruct (Nat.leb_spec 6 (List.length l)) as [H6|H6]; try lia.
  - rewrite <- (firstn_skipn 3 (firstn 6 l)).
    rewrite firstn_firstn, skipn_firstn_comm. reflexivity.
  - rewrite firstn_skipn. symmetry. apply firstn_all2. lia.
  - rewrite skipn_all2 by lia. rewrite app_nil_r. symmetry. apply firstn_all2. lia.
Qed.

(** X9.  The lecture dates that [compute_counts] returns are the dates of
    the table, each once, NaT left out, in strictly ascending order. *)
Theorem compute_counts_lecture_dates (df_weeks : list att_row) :
  StronglySorted Z.lt (snd (fst (fst (compute_counts df_weeks)))) /\
  forall d, In d (snd (fst (fst (compute_counts df_weeks))))
            <-> exists r, In r df_weeks /\ __date r = Some d.
Proof.
  unfold compute_counts. cbn [fst snd]. split.
  - apply sorted_NoDup_strict; [|apply lecture_dates_of_NoDup].
    apply sort_by_sorted; [apply Z_leb_total | apply Z_leb_trans].
  - apply lecture_dates_of_In.
Qed.

(** X10.  The two weeks that [compute_counts] returns are the first three
    lecture dates and the three after them, fewer when the table has fewer:
    together, in order, the first six lecture dates, with no date in both;
    these six are the dates of the matrix.  A seventh lecture date is in
    neither week. *)
Theorem compute_counts_weeks (df_weeks : list att_row) :
  let lecture_dates := snd (fst (fst (compute_counts df_weeks))) in
  let week1 := snd (fst (compute_counts df_weeks)) in
  let week2 := snd (compute_counts df_weeks) in
  week1 = firstn 3 lecture_dates /\
  week2 = firstn 3 (skipn 3 lecture_dates) /\
  week1 ++ week2 = firstn 6 lecture_dates /\
  firstn 6 (week1 ++ week2) = firstn 6 lecture_dates /\
  NoDup (week1 ++ week2).
Proof.
  unfold compute_counts. cbn [fst snd]. cbv zeta.
  set (l := lecture_dates_of df_weeks).
  assert (H1 : week1_of l = firstn 3 l).
  { unfold week1_of. destruct (Nat.leb_spec 3 (List.length l)); [reflexivity|].
    symmetry. apply firstn_all2. lia. }
  assert (H2 : week2_of l = firstn 3 (skipn 3 l)).
  { unfold week2_of. destruct (Nat.leb_spec 6 (List.length l)); [reflexivity|].
    symmetry. apply firstn_all2. rewrite length_skipn. lia. }
  split; [exact H1|]. split; [exact H2|].
  rewrite week_split. split; [reflexivity|]. split; [apply firstn_firstn|].
  pose proof (lecture_dates_of_NoDup df_weeks) as Hnd. fold l in Hnd.
  rewrite <- (firstn_skipn 6 l) in Hnd. now apply NoDup_app_remove_r in Hnd.
Qed.

(** ** The counts table *)

Lemma filter_nil {A : Type} (f : A -> bool) (l : list A) :
  (forall x, In x l -> f x = false) -> filter f l = [].
Proof.
  induction l as [|a l IH]; simpl; intros H; [reflexivity|].
  rewrite (H a) by now left. apply IH. intros x Hx. apply H. now right.
Qed.

Section KeyedMerge.
Context {L R K : Type} (eqb : K -> K -> bool) (lkey : L -> K) (rkey : R -> K).
Hypothesis eqb_spec : forall a b, eqb a b = true <-> a = b.

Lemma filter_key_NoDup (right : list R) (k : K) :
  NoDup (map rkey right) ->
  filter (fun r => eqb k (rkey r)) right
  = match find (fun r => eqb k (rkey r)) right with
    | Some r => [r]
    | None => []
    end.
Proof.
  induction right as [|a right IH]; simpl; intros Hnd; [reflexivity|].
  inversion Hnd as [|? ? Ha Hright]; subst.
  destruct (eqb k (rkey a)) eqn:E; [|now apply IH].
  f_equal. apply filter_nil. intros x Hx.
  destruct (eqb k (rkey x)) eqn:Ex; [|reflexivity].
  apply eqb_spec in E, Ex. exfalso. apply Ha. rewrite <- E, Ex. now apply in_map.
Qed.

(** With distinct keys on the right, a left merge looks each left row up. *)
Lemma merge_left_find (left : list L) (right : list R) :
  NoDup (map rkey right) ->
  merge_left eqb lkey rkey left right
  = map (fun l => (l, find (fun r => eqb (lkey l) (rkey r)) right)) left.
Proof.
  intros Hnd.
  induction left as [|l left IH]; [reflexivity|].
  change (merge_left eqb lkey rkey (l :: left) right)
    with (match filter (fun r => eqb (lkey l) (rkey r)) right with
          | [] => [(l, None)]
          | rs => map (fun r => (l, Some r)) rs
          end ++ merge_left eqb lkey rkey left right).
  rewrite IH, (filter_key_NoDup right (lkey l) Hnd). cbn [map].
  now destruct (find _ right).
Qed.
End KeyedMerge.

Lemma find_filter_same {A : Type} (p q : A -> bool) (l : list A) :
  (forall x, p x = true -> q x = true) -> find p (filter q l) = find p l.
Proof.
  intros Hpq. induction l as [|a l IH]; simpl; [reflexivity|].
  destruct (q a) eqn:Hq; simpl.
  - now destruct (p a).
  - destruct (p a) eqn:Hp; [|exact IH]. rewrite (Hpq a Hp) in Hq. discriminate.
Qed.

(** Looking a key up finds the same row before and after
    [drop_duplicates] on that key. *)
Lemma find_drop_duplicates {A K : Type} (eqb : K -> K -> bool) (key : A -> K)
    (l : list A) (k : K) :
  (forall a b, eqb a b = true <-> a = b) ->
  find (fun r => eqb k (key r)) (drop_duplicates eqb key l)
  = find (fun r => eqb k (key r)) l.
Proof.
  intros Hspec. induction l as [|a l IH]; simpl; [reflexivity|].
  destruct (eqb k (key a)) eqn:E; [reflexivity|].
  rewrite find_filter_same; [exact IH|].
  intros x Hx. apply negb_true_iff.
  destruct (eqb (key x) (key a)) eqn:Exa; [|reflexivity].
  apply Hspec in Hx, Exa. rewrite <- Exa, <- Hx in E.
  assert (eqb k k = true) by now apply Hspec. congruence.
Qed.

Lemma find_keyed_map {K V : Type} (eqb : K -> K -> bool) (g : K -> V) (l : list K) (k : K) :
  (forall a b, eqb a b = true <-> a = b) ->
  In k l ->
  find (fun m => eqb k (fst m)) (map (fun i => (i, g i)) l) = Some (k, g k).
Proof.
  intros Hspec. induction l as [|a l IH]; simpl; [tauto|].
  destruct (eqb k a) eqn:E.
  - intros _. apply Hspec in E. now subst a.
  - intros [->|Hin]; [|now apply IH].
    assert (eqb k k = true) by now apply Hspec. congruence.
Qed.

Lemma mini_of_spec (df : list att_row) :
  mini_of df
  = map (fun i => (i, find (fun r => cell_eqb i (__identity r)) df))
        (map __identity (drop_duplicates cell_eqb __identity (sort_by ts_leb df))).
Proof.
  unfold mini_of.
  rewrite (merge_left_find cell_eqb (fun i => i) __identity cell_eqb_spec)
    by apply drop_duplicates_NoDup, cell_eqb_spec.
  apply map_ext. intros i. f_equal.
  apply find_drop_duplicates, cell_eqb_spec.
Qed.

Lemma mini_of_keys (df : list att_row) (i : cell) :
  In i (map fst (mini_of df)) <-> In i (map __identity df).
Proof.
  rewrite mini_of_spec, map_map. cbn [fst]. rewrite map_id. split.
  - intros H. apply in_map_iff in H as (r & <- & Hr).
    apply in_map. apply drop_duplicates_In in Hr. now apply sort_by_In in Hr.
  - intros H. apply in_map_iff in H as (r & <- & Hr).
    apply drop_duplicates_keys; [apply cell_eqb_spec | now apply sort_by_In].
Qed.

Lemma group_keys_In (df : list att_row) (i : string) :
  In i (group_keys df) <-> In (Some i) (map __identity df).
Proof.
  unfold group_keys.
  now rewrite sort_by_In, (unique_In String.eqb _ _ String.eqb_eq), dropna_In.
Qed.

(** The counts table, row by row: the counts of the identity, with the
    display columns of the first row of that identity in the table. *)
Lemma counts_of_spec (df : list att_row) :
  counts_of df
  = map (fun i =>
           with_display
             (cnt_row df (week1_of (lecture_dates_of df)) (week2_of (lecture_dates_of df)) i,
              Some (Some i, find (fun r => cell_eqb (Some i) (__identity r)) df)))
        (group_keys df).
Proof.
  unfold counts_of, compute_counts. cbn [fst].
  rewrite (merge_left_find cell_eqb (fun c => Some (c_identity c)) fst cell_eqb_spec).
  - rewrite !map_map. apply map_ext_in. intros i Hi. cbn [c_identity cnt_row].
    f_equal. f_equal.
    rewrite mini_of_spec.
    apply (find_keyed_map cell_eqb
             (fun k => find (fun r => cell_eqb k (__identity r)) df) _ (Some i)
             cell_eqb_spec).
    apply group_keys_In in Hi.
    apply in_map_iff in Hi as (r & Hr & Hin). rewrite <- Hr.
    apply drop_duplicates_keys; [apply cell_eqb_spec | now apply sort_by_In].
  - rewrite mini_of_spec, map_map. cbn [fst]. rewrite map_id.
    apply drop_duplicates_NoDup, cell_eqb_spec.
Qed.

Lemma string_leb_trans (a b c : string) :
  String.leb a b = true -> String.leb b c = true -> String.leb a c = true.
Proof.
  unfold String.leb. revert b c.
  induction a as [|x a IH]; intros [|y b] [|z c]; simpl; try congruence.
  unfold Ascii.compare.
  destruct (N.compare_spec (N_of_ascii x) (N_of_ascii y)) as [Hxy|Hxy|Hxy];
    destruct (N.compare_spec (N_of_ascii y) (N_of_ascii z)) as [Hyz|Hyz|Hyz];
    destruct (N.compare_spec (N_of_ascii x) (N_of_ascii z)) as [Hxz|Hxz|Hxz];
    try congruence; try lia; try (intros; reflexivity).
  apply IH.
Qed.

Lemma string_leb_total (a b : string) : String.leb a b = false -> String.leb b a = true.
Proof. destruct (String.leb_total a b) as [H|H]; congruence. Qed.

Lemma string_leb_neq_ltb (a b : string) :
  String.leb a b = true -> a <> b -> String.ltb a b = true.
Proof.
  unfold String.leb, String.ltb. destruct (String.compare a b) eqn:E; try congruence.
  intros _ Hne. apply String.compare_eq_iff in E. contradiction.
Qed.

Lemma group_keys_sorted (df : list att_row) :
  StronglySorted (fun a b => String.ltb a b = true) (group_keys df).
Proof.
  assert (Hnd : NoDup (group_keys df)).
  { unfold group_keys.
    apply (Permutation_NoDup (l := unique String.eqb (dropna (map __identity df)))).
    - symmetry. apply sort_by_perm.
    - apply unique_NoDup, String.eqb_eq. }
  assert (Hs : StronglySorted (fun a b => String.leb a b = true) (group_keys df)).
  { apply sort_by_sorted; [apply string_leb_total | apply string_leb_trans]. }
  induction Hs as [|x l Hl IH Hx]; constructor;
    inversion Hnd as [|? ? Hnotin Hnd']; subst.
  - now apply IH.
  - rewrite Forall_forall in *. intros y Hy.
    apply string_leb_neq_ltb; [now apply Hx|]. intros ->. contradiction.
Qed.

Lemma counts_of_identities (df : list att_row) :
  map c_identity (counts_of df) = group_keys df.
Proof.
  rewrite counts_of_spec, map_map. cbn [with_display c_identity fst cnt_row].
  apply map_id.
Qed.

(** X11.  The counts table has one row for each identity of the table, the
    NaN identity left out, in ascending order of the identity texts. *)
Theorem compute_counts_one_row_per_identity (df_weeks : list att_row) :
  StronglySorted (fun a b => String.ltb a b = true) (map c_identity (counts_of df_weeks)) /\
  forall i, In i (map c_identity (counts_of df_weeks))
            <-> exists r, In r df_weeks /\ __identity r = Some i.
Proof.
  rewrite counts_of_identities. split; [apply group_keys_sorted|].
  intros i. rewrite group_keys_In, in_map_iff.
  split; intros (r & H1 & H2); exists r; tauto.
Qed.

(** X12.  The display columns of a counts row (email, ID, name) are those of
    the first row of the table with the identity of the counts row. *)
Theorem compute_counts_display_columns (df_weeks : list att_row) :
  Forall (fun row =>
            exists r,
              find (fun r => cell_eqb (Some (c_identity row)) (__identity r)) df_weeks
              = Some r /\
              c_email row = __email r /\ c_id row = __id r /\ c_name row = __name r)
         (counts_of df_weeks).
Proof.
  rewrite counts_of_spec. apply Forall_forall. intros row Hrow.
  apply in_map_iff in Hrow as (i & <- & Hi).
  cbn [with_display c_identity c_email c_id c_name fst snd cnt_row].
  destruct (find (fun r => cell_eqb (Some i) (__identity r)) df_weeks) as [r|] eqn:F.
  - exists r. repeat split.
  - exfalso. apply group_keys_In in Hi. apply in_map_iff in Hi as (r & Hr & Hin).
    apply (find_none _ _ F) in Hin. rewrite Hr in Hin.
    assert (cell_eqb (Some i) (Some i) = true) by now apply cell_eqb_spec.
    congruence.
Qed.

Lemma counts_of_cnt (df : list att_row) (row : counts_row) :
  In row (counts_of df) ->
  exists i,
    In i (group_keys df) /\ c_identity row = i /\
    attended_dates row = sorted_set (group_dates df i) /\
    total_count row = Z.of_nat (List.length (sorted_set (group_dates df i))) /\
    week1_count row
    = count_in_week (sorted_set (group_dates df i)) (week1_of (lecture_dates_of df)) /\
    week2_count row
    = count_in_week (sorted_set (group_dates df i)) (week2_of (lecture_dates_of df)) /\
    percentage row
    = (inject_Z (week1_count row + week2_count row) / inject_Z 6 * 100)%Q.
Proof.
  rewrite counts_of_spec. intros Hrow.
  apply in_map_iff in Hrow as (i & <- & Hi). exists i. now repeat split.
Qed.

Lemma NoDup_app_disjoint {A : Type} (a b : list A) (x : A) :
  NoDup (a ++ b) -> In x a -> In x b -> False.
Proof.
  induction a as [|y a IH]; simpl; [tauto|].
  intros Hnd [->|Hin] Hb; inversion Hnd as [|? ? Hy Hnd']; subst.
  - apply Hy, in_or_app. now right.
  - now apply IH.
Qed.

Lemma mem_date_In (d : Z) (week : list Z) : mem_date d week = true <-> In d week.
Proof.
  unfold mem_date. rewrite existsb_exists. split.
  - intros (y & Hy & E). apply Z.eqb_eq in E. now subst.
  - intros H. exists d. split; [exact H | apply Z.eqb_refl].
Qed.

Lemma count_in_week_disjoint (dates : list date) (w1 w2 : list Z) :
  (forall x, In x w1 -> In x w2 -> False) ->
  count_in_week dates w1 + count_in_week dates w2 <= Z.of_nat (List.length dates).
Proof.
  intros Hdis. unfold count_in_week.
  induction dates as [|[x|] dates IH]; simpl; [lia | |lia].
  destruct (mem_date x w1) eqn:E1, (mem_date x w2) eqn:E2; simpl List.length; try lia.
  exfalso. apply (Hdis x); now apply mem_date_In.
Qed.

Lemma count_in_week_partition (dates : list date) (w1 w2 : list Z) :
  (forall x, In x w1 -> In x w2 -> False) ->
  (forall d, In d dates -> exists x, d = Some x /\ In x (w1 ++ w2)) ->
  count_in_week dates w1 + count_in_week dates w2 = Z.of_nat (List.length dates).
Proof.
  intros Hdis. unfold count_in_week.
  induction dates as [|d dates IH]; intros Hall; [reflexivity|].
  assert (IH' := IH (fun d' H => Hall d' (or_intror H))).
  destruct (Hall d (or_introl eq_refl)) as (x & -> & Hx). simpl.
  apply in_app_or in Hx.
  destruct (mem_date x w1) eqn:E1, (mem_date x w2) eqn:E2; simpl List.length; try lia.
  - exfalso. apply (Hdis x); now apply mem_date_In.
  - exfalso. destruct Hx as [Hx|Hx]; apply mem_date_In in Hx; congruence.
Qed.

Lemma weeks_disjoint (l : list Z) (x : Z) :
  NoDup l -> In x (week1_of l) -> In x (week2_of l) -> False.
Proof.
  intros Hnd. apply NoDup_app_disjoint. rewrite week_split.
  rewrite <- (firstn_skipn 6 l) in Hnd. now apply NoDup_app_remove_r in Hnd.
Qed.

(** X13.  In every counts row the two week counts add up to at most
    total_count, and percentage lies between 0 and 100. *)
Theorem compute_counts_weeks_within_total (df_weeks : list att_row) :
  Forall (fun row =>
            week1_count row + week2_count row <= total_count row /\
            (0 <= percentage row)%Q /\ (percentage row <= 100)%Q)
         (counts_of df_weeks).
Proof.
  apply Forall_forall. intros row Hrow.
  destruct (counts_of_cnt _ _ Hrow) as (i & _ & _ & _ & Htot & H1 & H2 & Hpct).
  pose proof (count_in_week_disjoint (sorted_set (group_dates df_weeks i)) _ _
                (fun x => weeks_disjoint _ x (lecture_dates_of_NoDup df_weeks))) as Hsum.
  pose proof (count_in_week_bound _ (week1_of (lecture_dates_of df_weeks))
                (sorted_set_NoDup (group_dates df_weeks i))) as B1.
  pose proof (count_in_week_bound _ (week2_of (lecture_dates_of df_weeks))
                (sorted_set_NoDup (group_dates df_weeks i))) as B2.
  pose proof (week1_of_length (lecture_dates_of df_weeks)).
  pose proof (week2_of_length (lecture_dates_of df_weeks)).
  rewrite <- H1, <- H2 in *. split; [lia|].
  rewrite Hpct. set (w := week1_count row + week2_count row).
  assert (Hw : 0 <= w <= 6) by (unfold w; lia).
  unfold Qle, Qdiv, Qmult, Qinv, inject_Z. simpl. split; lia.
Qed.

(** Rows with distinct keys keep distinct keys when some are filtered out. *)
Lemma filter_keeps_distinct_keys {R K : Type} (key : R -> K) (keep : R -> bool)
    (rows : list R) (Hkeys : NoDup (map key rows)) :
  NoDup (map key (filter keep rows)).
Proof.
  induction rows as [|r rows IH]; [exact Hkeys|].
  cbn [map] in Hkeys. apply NoDup_cons_iff in Hkeys as [Hr Hrest].
  cbn [filter]. destruct (keep r); [|exact (IH Hrest)].
  cbn [map]. apply NoDup_cons; [|exact (IH Hrest)].
  intros Hin. apply Hr. apply in_map_iff in Hin as (z & Hz & Hin).
  apply in_map_iff. exists z. split; [exact Hz|].
  apply filter_In in Hin. tauto.
Qed.

Lemma group_dates_NoDup (df : list att_row) (i : string) :
  NoDup (map identity_date df) -> NoDup (group_dates df i).
Proof.
  intros Hnd. unfold group_dates.
  apply (NoDup_map_inv (fun d : date => (Some i, d))).
  rewrite map_map.
  rewrite (map_ext_in _ identity_date).
  - now apply filter_keeps_distinct_keys.
  - intros r Hr. apply filter_In in Hr as [_ Hr]. apply cell_eqb_spec in Hr.
    unfold identity_date. now rewrite Hr.
Qed.

Lemma sorted_set_length (s : list date) :
  NoDup s -> List.length (sorted_set s) = List.length s.
Proof.
  intros Hnd. unfold sorted_set.
  rewrite (Permutation_length (sort_by_perm na_last_leb _)).
  unfold unique. rewrite drop_duplicates_fixpoint; [reflexivity | apply date_eqb_spec |].
  now rewrite map_id.
Qed.

(** X14.  On a table in which no two rows share identity and date, as
    [dedup_same_day] leaves it, total_count is the number of rows of the
    identity. *)
Theorem compute_counts_total_is_row_count (df_weeks : list att_row) :
  NoDup (map identity_date df_weeks) ->
  Forall (fun row =>
            total_count row
            = Z.of_nat (List.length (rows_of df_weeks (c_identity row))))
         (counts_of df_weeks).
Proof.
  intros Hnd. apply Forall_forall. intros row Hrow.
  destruct (counts_of_cnt _ _ Hrow) as (i & _ & -> & _ & Htot & _).
  rewrite Htot, sorted_set_length by now apply group_dates_NoDup.
  unfold group_dates, rows_of. now rewrite length_map.
Qed.

Lemma sample_windowed_NoDup : NoDup (map identity_date sample_windowed).
Proof.
  vm_compute. repeat constructor; simpl; intros H;
    repeat (destruct H as [H|H]; try discriminate H); exact H.
Qed.

Lemma compute_counts_total_is_row_count_witness :
  NoDup (map identity_date sample_windowed) /\
  Forall (fun row =>
            total_count row
            = Z.of_nat (List.length (rows_of sample_windowed (c_identity row))))
         (counts_of sample_windowed).
Proof.
  split; [exact sample_windowed_NoDup|].
  exact (compute_counts_total_is_row_count sample_windowed sample_windowed_NoDup).
Defined.

(** X15.  When the table has at most six lecture dates and no NaT date, the
    two week counts of every row add up to total_count; beyond six lecture
    dates total_count goes on counting while the weeks do not. *)
Theorem compute_counts_weeks_cover_total (df_weeks : list att_row) :
  (List.length (lecture_dates_of df_weeks) <= 6)%nat ->
  Forall (fun r => __date r <> None) df_weeks ->
  Forall (fun row => week1_count row + week2_count row = total_count row)
         (counts_of df_weeks).
Proof.
  intros Hlen Hdates. apply Forall_forall. intros row Hrow.
  destruct (counts_of_cnt _ _ Hrow) as (i & _ & _ & _ & Htot & H1 & H2 & _).
  rewrite H1, H2, Htot.
  apply count_in_week_partition.
  - intros x. apply weeks_disjoint, lecture_dates_of_NoDup.
  - intros d Hd. unfold sorted_set in Hd.
    apply sort_by_In in Hd.
    apply (proj1 (unique_In date_eqb _ _ date_eqb_spec)) in Hd.
    unfold group_dates in Hd. apply in_map_iff in Hd as (r & <- & Hr).
    apply filter_In in Hr as [Hr _].
    rewrite Forall_forall in Hdates. specialize (Hdates r Hr).
    destruct (__date r) as [x|] eqn:E; [|congruence].
    exists x. split; [reflexivity|].
    rewrite week_split, firstn_all2 by exact Hlen.
    apply lecture_dates_of_In. now exists r.
Qed.

Lemma compute_counts_weeks_cover_total_witness :
  (List.length (lecture_dates_of sample_windowed) <= 6)%nat /\
  Forall (fun r => __date r <> None) sample_windowed /\
  Forall (fun row => week1_count row + week2_count row = total_count row)
         (counts_of sample_windowed).
Proof.
  assert (H1 : (List.length (lecture_dates_of sample_windowed) <= 6)%nat)
    by (vm_compute; lia).
  assert (H2 : Forall (fun r => __date r <> None) sample_windowed)
    by (vm_compute; repeat constructor; discriminate).
  split; [exact H1|]. split; [exact H2|].
  exact (compute_counts_weeks_cover_total sample_windowed H1 H2).
Defined.

(** ** Coverage and the automatic choice *)

Lemma filter_length_zero {A : Type} (f : A -> bool) (l : list A) :
  List.length (filter f l) = O <-> forall x, In x l -> f x = false.
Proof.
  induction l as [|a l IH]; simpl; [tauto|].
  destruct (f a) eqn:E; simpl.
  - split; [discriminate|]. intros H. specialize (H a (or_introl eq_refl)). congruence.
  - rewrite IH. split; [intros H x [<-|Hx]; auto | intros H x Hx; apply H; now right].
Qed.

Lemma filter_length_all {A : Type} (f : A -> bool) (l : list A) :
  List.length (filter f l) = List.length l <-> forall x, In x l -> f x = true.
Proof.
  induction l as [|a l IH]; simpl; [tauto|].
  pose proof (filter_length_le f l) as Hle.
  destruct (f a) eqn:E; simpl.
  - split.
    + intros H x [<-|Hx]; [exact E|]. apply IH; [lia | exact Hx].
    + intros H. f_equal. apply IH. intros x Hx. apply H. now right.
  - split; [lia|]. intros H. specialize (H a (or_introl eq_refl)). congruence.
Qed.

Lemma percent_of_bounds (k n : nat) :
  (k <= n)%nat -> (0 < n)%nat ->
  let q := ((Z.of_nat k # Pos.of_nat n) * 100)%Q in
  (0 <= q)%Q /\ (q <= 100)%Q /\
  ((q <= 0)%Q <-> k = O) /\ ((100 <= q)%Q <-> k = n).
Proof.
  intros Hkn Hn q.
  assert (Hpos : Z.pos (Pos.of_nat n) = Z.of_nat n).
  { destruct n as [|n']; [lia|].
    rewrite <- Pos.of_nat_succ, Zpos_P_of_succ_nat. lia. }
  unfold q, Qle, Qmult. cbn [Qnum Qden]. rewrite Pos.mul_1_r, Hpos.
  repeat split; intros; lia.
Qed.

(** The coverage of a merged table: NaN without rows; otherwise a
    percentage, 0 when no row is matched and 100 when every row is. *)
Lemma coverage_spec (m : list (roster_row * option counts_row)) :
  match m with
  | [] => coverage m = NaN
  | _ :: _ =>
      exists q,
        coverage m = Num q /\ (0 <= q)%Q /\ (q <= 100)%Q /\
        ((q <= 0)%Q <-> forall p, In p m -> snd p = None) /\
        ((100 <= q)%Q <-> forall p, In p m -> snd p <> None)
  end.
Proof.
  destruct m as [|p0 m0]; [reflexivity|].
  set (m := p0 :: m0).
  set (bs := map (fun p => negb (isna (m_week1_count p))) m).
  assert (Hcov : coverage m
                 = Num ((Z.of_nat (List.length (filter (fun b => b) bs))
                         # Pos.of_nat (List.length bs)) * 100)%Q) by reflexivity.
  assert (Hn : (0 < List.length bs)%nat) by (unfold bs, m; simpl; lia).
  destruct (percent_of_bounds _ _ (filter_length_le (fun b => b) bs) Hn)
    as (H0 & H100 & Hzero & Hall).
  eexists. split; [exact Hcov|]. split; [exact H0|]. split; [exact H100|].
  assert (Hb : forall p, negb (isna (m_week1_count p)) = false <-> snd p = None).
  { intros [r [c|]]; unfold m_week1_count; simpl; split; intros H;
      try discriminate; try reflexivity; try congruence. }
  assert (Hb' : forall p, negb (isna (m_week1_count p)) = true <-> snd p <> None).
  { intros [r [c|]]; unfold m_week1_count; simpl; split; intros H;
      try discriminate; try reflexivity; try congruence. }
  split.
  - rewrite Hzero, filter_length_zero. unfold bs. split.
    + intros H p Hp. apply Hb, H.
      exact (in_map (fun p => negb (isna (m_week1_count p))) m p Hp).
    + intros H b Hin. apply in_map_iff in Hin as (p & <- & Hp). now apply Hb, H.
  - rewrite Hall, filter_length_all. unfold bs. split.
    + intros H p Hp. apply Hb', H.
      exact (in_map (fun p => negb (isna (m_week1_count p))) m p Hp).
    + intros H b Hin. apply in_map_iff in Hin as (p & <- & Hp). now apply Hb', H.
Qed.

(** X16.  The coverage of a join is NaN for a merged table without rows;
    otherwise it is a number between 0 and 100, which is 0 exactly when no
    row is matched and 100 exactly when every row is. *)
Theorem coverage_bounds (m : list (roster_row * option counts_row)) :
  match m with
  | [] => coverage m = NaN
  | _ :: _ =>
      exists q,
        coverage m = Num q /\ (0 <= q)%Q /\ (q <= 100)%Q /\
        ((q <= 0)%Q <-> forall p, In p m -> snd p = None) /\
        ((100 <= q)%Q <-> forall p, In p m -> snd p <> None)
  end.
Proof. exact (coverage_spec m). Qed.



Lemma merge_on_id_unmatched (counts_out : list counts_row) (roster : roster_table) :
  (forall p, In p (merge_on_id counts_out roster) -> snd p = None) <->
  (forall r c, In r (roster_rows roster) -> In c counts_out -> id_match r c = false).
Proof.
  unfold merge_on_id. split.
  - intros H r c Hr Hc.
    destruct (merge_left_covers cell_eqb ID_str c_id (roster_rows roster)
                (map str_strip_id counts_out) r Hr) as [o Ho].
    pose proof (H _ Ho) as Hnone. simpl in Hnone. subst o.
    apply merge_left_In in Ho as [_ Hno].
    apply Hno. now apply in_map.
  - intros H [r [x|]] Hp; [|reflexivity]. exfalso.
    apply merge_left_In in Hp as (Hr & Hx & Hm).
    apply in_map_iff in Hx as (c & <- & Hc).
    specialize (H r c Hr Hc). unfold id_match in H. congruence.
Qed.

Lemma load_gradebook_rows_nil (csv : gradebook_csv) :
  roster_rows (load_gradebook_csv csv) = [] <-> gb_rows csv = [].
Proof.
  unfold load_gradebook_csv. cbn [roster_rows].
  destruct (gb_rows csv); simpl; split; congruence.
Qed.

Lemma join_id_cases (counts_out : list counts_row) (csv : gradebook_csv) :
  join_id counts_out (load_gradebook_csv csv)
  = if has_ID csv
    then (Some (Joined (roster_columns (load_gradebook_csv csv))
                       (merge_on_id counts_out (load_gradebook_csv csv))),
          coverage (merge_on_id counts_out (load_gradebook_csv csv)))
    else (None, Num 0).
Proof.
  destruct (roster_key_columns csv) as (Cid & _ & _).
  unfold join_id. rewrite Cid. now destruct (has_ID csv).
Qed.

Lemma join_email_cases (counts_out : list counts_row) (csv : gradebook_csv) :
  if has_email_key csv
  then exists key,
         join_email counts_out (load_gradebook_csv csv)
         = (Some (Joined (roster_columns (load_gradebook_csv csv))
                         (merge_on_email key counts_out (load_gradebook_csv csv))),
            coverage (merge_on_email key counts_out (load_gradebook_csv csv)))
  else join_email counts_out (load_gradebook_csv csv) = (None, Num 0).
Proof.
  destruct (roster_key_columns csv) as (_ & Csis & Cem).
  unfold join_email, has_email_key. rewrite Csis, Cem.
  destruct (has_SIS_Login_ID csv); cbn [orb]; [now exists SIS_Login_ID_norm|].
  destruct (has_Email csv); [now exists Email_norm | reflexivity].
Qed.

Lemma coverage_of_merge {K : Type} (eqb : K -> K -> bool)
    (lkey : roster_row -> K) (rkey : counts_row -> K)
    (csv : gradebook_csv) (right : list counts_row) :
  let m := merge_left eqb lkey rkey (roster_rows (load_gradebook_csv csv)) right in
  (gb_rows csv = [] -> coverage m = NaN) /\
  (gb_rows csv <> [] ->
   exists q, coverage m = Num q /\ (0 <= q)%Q /\
             ((q <= 0)%Q <-> forall p, In p m -> snd p = None)).
Proof.
  intros m. split.
  - intros Hnil. apply load_gradebook_rows_nil in Hnil. unfold m. now rewrite Hnil.
  - intros Hne.
    assert (Hm : m <> []).
    { apply merge_left_nonempty. now rewrite load_gradebook_rows_nil. }
    pose proof (coverage_spec m) as Hs. destruct m as [|p m']; [congruence|].
    destruct Hs as (q & Hq & H0 & _ & Hz & _). now exists q.
Qed.

(** When the automatic choice returns no table. *)
Lemma try_join_modes_none_spec (counts_out : list counts_row) (csv : gradebook_csv) :
  fst (fst (try_join_modes counts_out (load_gradebook_csv csv))) = None <->
  (has_email_key csv = false /\
   (has_ID csv = false \/
    (gb_rows csv <> [] /\
     forall r c, In r (roster_rows (load_gradebook_csv csv)) -> In c counts_out ->
                 id_match r c = false))) \/
  (has_email_key csv = true /\ has_ID csv = false /\ gb_rows csv = []).
Proof.
  pose proof (join_id_cases counts_out csv) as Hid.
  pose proof (join_email_cases counts_out csv) as Hem.
  unfold try_join_modes.
  destruct (has_email_key csv) eqn:Ek, (has_ID csv) eqn:Eid.
  - (* both keys: some table in either branch *)
    destruct Hem as [key Hem]. rewrite Hid, Hem.
    destruct (ge_number _ _); cbn [fst]; split;
      [discriminate | intros [(H & _)|(_ & H & _)]; discriminate
      |discriminate | intros [(H & _)|(_ & H & _)]; discriminate].
  - (* an email key, no ID *)
    destruct Hem as [key Hem]. rewrite Hid, Hem.
    destruct (coverage_of_merge cell_eqb key c_email_norm csv counts_out) as [Hnil Hsome].
    fold (merge_on_email key counts_out (load_gradebook_csv csv)) in Hnil, Hsome.
    destruct (gb_rows csv) as [|g gs] eqn:Erows.
    + rewrite (Hnil eq_refl). cbn [ge_number fst]. split; [|reflexivity].
      intros _. right. now repeat split.
    + destruct (Hsome ltac:(discriminate)) as (q & Hq & H0 & _). rewrite Hq.
      cbn [ge_number]. apply Qle_bool_iff in H0. rewrite H0. cbn [fst]. split;
        [discriminate | intros [(H & _)|(_ & _ & H)]; discriminate].
  - (* an ID, no email key *)
    rewrite Hid, Hem.
    destruct (coverage_of_merge cell_eqb ID_str c_id csv (map str_strip_id counts_out))
      as [Hnil Hsome].
    fold (merge_on_id counts_out (load_gradebook_csv csv)) in Hnil, Hsome.
    destruct (gb_rows csv) as [|g gs] eqn:Erows.
    + rewrite (Hnil eq_refl). cbn [ge_number fst]. split; [discriminate|].
      intros [(_ & [H|(H & _)])|(H & _)]; [discriminate | now elim H | discriminate].
    + destruct (Hsome ltac:(discriminate)) as (q & Hq & _ & Hz). rewrite Hq.
      cbn [ge_number]. rewrite merge_on_id_unmatched in Hz.
      destruct (Qle_bool q 0) eqn:E; cbn [fst].
      * split; [|reflexivity]. intros _. left. split; [reflexivity|]. right.
        split; [discriminate|]. apply Hz. now apply Qle_bool_iff.
      * split; [discriminate|].
        intros [(_ & [H|(_ & H)])|(H & _)]; [discriminate | | discriminate].
        apply Hz, Qle_bool_iff in H. congruence.
  - (* no key at all *)
    rewrite Hid, Hem. cbn [ge_number]. 
    assert (Hge : Qle_bool 0 0 = true) by reflexivity. rewrite Hge. cbn [fst].
    split; [|reflexivity]. intros _. left. split; [reflexivity | now left].
Qed.

(** X18.  The automatic choice returns no table, so that finalization fails,
    in these cases and no others: the roster has neither SIS Login ID nor
    Email and either has no ID, or has students none of whom is matched by
    ID (the tie at 0 goes to the email join, which does not exist); or the
    roster has an email key, no ID and no student. *)
Theorem try_join_modes_none_iff (counts_out : list counts_row) (csv : gradebook_csv) :
  fst (fst (try_join_modes counts_out (load_gradebook_csv csv))) = None <->
  (has_email_key csv = false /\
   (has_ID csv = false \/
    (gb_rows csv <> [] /\
     forall r c, In r (roster_rows (load_gradebook_csv csv)) -> In c counts_out ->
                 id_match r c = false))) \/
  (has_email_key csv = true /\ has_ID csv = false /\ gb_rows csv = []).
Proof. exact (try_join_modes_none_spec counts_out csv). Qed.

(** ** The join by mode and the finalized table *)


Lemma finalize_merge_left_matched (csv : gradebook_csv)
    (lkey : roster_row -> cell) (rkey : counts_row -> cell) (right : list counts_row) :
  let roster := load_gradebook_csv csv in
  exists out,
    finalize_output
      (Some (Joined (roster_columns roster)
                    (merge_left cell_eqb lkey rkey (roster_rows roster) right)))
    = Returned out /\
    List.length (out_rows out)
    = List.length (merge_left cell_eqb lkey rkey (roster_rows roster) right) /\
    (forall r x, In r (roster_rows roster) -> In x right ->
       cell_eqb (lkey r) (rkey x) = true ->
       exists o, In o (out_rows out) /\ shows csv r o /\ carries x o) /\
    (forall o, In o (out_rows out) ->
       exists r, In r (roster_rows roster) /\ shows csv r o /\
         ((zero_filled o /\ forall x, In x right -> cell_eqb (lkey r) (rkey x) = false) \/
          (exists x, In x right /\ cell_eqb (lkey r) (rkey x) = true /\ carries x o))).
Proof.
  intros roster. eexists. split; [reflexivity|].
  destruct (keep_of_roster csv) as (_ & Hdisp & _).
  cbn [out_rows frame_columns]. fold roster. split; [apply length_map|]. split.
  - intros r x Hr Hx Hm. eexists. split; [|split].
    + apply in_map_iff. exists (r, Some x). split; [reflexivity|].
      apply merge_left_In. split; [exact Hr | split; [exact Hx | exact Hm]].
    + cbn [fst snd]. unfold roster. rewrite Hdisp. apply finalize_row_shows.
    + cbn [fst snd]. repeat split.
  - intros o Ho. apply in_map_iff in Ho as ([r x] & <- & Hp).
    apply merge_left_In in Hp as [Hr Hx]. exists r. split; [exact Hr|].
    cbn [fst snd]. unfold roster. rewrite Hdisp. split; [apply finalize_row_shows|].
    destruct x as [x|].
    + right. exists x. destruct Hx as [Hx Hm]. split; [exact Hx|]. split; [exact Hm|].
      repeat split.
    + left. split; [apply finalize_row_zero_filled | exact Hx].
Qed.

Lemma merge_left_length_ge {L R K : Type} (eqb : K -> K -> bool)
    (lkey : L -> K) (rkey : R -> K) (left : list L) (right : list R) :
  (List.length left <= List.length (merge_left eqb lkey rkey left right))%nat.
Proof.
  unfold merge_left. induction left as [|l left IH]; [apply Nat.le_0_l|].
  cbn [flat_map]. rewrite length_app.
  remember (List.length (flat_map _ left)) as n eqn:En. clear En.
  destruct (filter _ right) as [|x xs]; cbn [List.length map]; lia.
Qed.

Section JoinCarries.
Variables (csv : gradebook_csv) (counts_out : list counts_row).

Let roster : roster_table := load_gradebook_csv csv.

Lemma finalize_on_id_carries :
  exists out,
    finalize_output (Some (Joined (roster_columns roster) (merge_on_id counts_out roster)))
    = Returned out /\
    joins_counts csv counts_out id_match out /\
    only_roster csv counts_out id_match out /\
    (List.length (gb_rows csv) <= List.length (out_rows out))%nat.
Proof.
  destruct (finalize_merge_left_matched csv ID_str c_id (map str_strip_id counts_out))
    as (out & Hout & Hlen & Hrows & Hback).
  exists out. split; [exact Hout|]. split; [|split].
  - intros r c Hr Hc Hm.
    destruct (Hrows r (str_strip_id c) Hr (in_map _ _ _ Hc) Hm) as (o & Ho & Hs & Hcar).
    exists o. split; [exact Ho|]. split; [exact Hs | exact Hcar].
  - intros o Ho. destruct (Hback o Ho) as (r & Hr & Hs & [[Hz Hnone]|(x & Hx & Hm & Hcar)]).
    + exists r. split; [exact Hr|]. split; [exact Hs|]. left. split; [exact Hz|].
      intros c Hc. exact (Hnone _ (in_map _ _ _ Hc)).
    + apply in_map_iff in Hx as (c & <- & Hc).
      exists r. split; [exact Hr|]. split; [exact Hs|]. right.
      exists c. split; [exact Hc|]. split; [exact Hm | exact Hcar].
  - rewrite Hlen.
    replace (List.length (gb_rows csv)) with (List.length (roster_rows roster))
      by apply length_map.
    apply merge_left_length_ge.
Qed.

Lemma finalize_on_email_carries (key : roster_row -> cell) :
  exists out,
    finalize_output
      (Some (Joined (roster_columns roster) (merge_on_email key counts_out roster)))
    = Returned out /\
    joins_counts csv counts_out (fun r c => cell_eqb (key r) (c_email_norm c)) out /\
    only_roster csv counts_out (fun r c => cell_eqb (key r) (c_email_norm c)) out /\
    (List.length (gb_rows csv) <= List.length (out_rows out))%nat.
Proof.
  destruct (finalize_merge_left_matched csv key c_email_norm counts_out)
    as (out & Hout & Hlen & Hrows & Hback).
  exists out. split; [exact Hout|]. split; [exact Hrows|]. split; [exact Hback|].
  rewrite Hlen.
  replace (List.length (gb_rows csv)) with (List.length (roster_rows roster))
    by apply length_map.
  apply merge_left_length_ge.
Qed.
End JoinCarries.

Ltac pick_carry csv counts_out :=
  match goal with
  | |- exists out matches, finalize_output (Some (Joined _ (merge_on_id _ _))) = _ /\ _ =>
      let o := fresh "out" in
      destruct (finalize_on_id_carries csv counts_out) as (o & ? & ? & ? & ?);
      exists o, id_match; cbn [In]; tauto
  | |- exists out matches,
        finalize_output (Some (Joined _ (merge_on_email SIS_Login_ID_norm _ _))) = _ /\ _ =>
      let o := fresh "out" in
      destruct (finalize_on_email_carries csv counts_out SIS_Login_ID_norm)
        as (o & ? & ? & ? & ?);
      exists o, sis_match; cbn [In]; tauto
  | |- exists out matches,
        finalize_output (Some (Joined _ (merge_on_email Email_norm _ _))) = _ /\ _ =>
      let o := fresh "out" in
      destruct (finalize_on_email_carries csv counts_out Email_norm)
        as (o & ? & ? & ? & ?);
      exists o, email_match; cbn [In]; tauto
  end.

(** X20.  In the join modes auto, id and email, when the join yields a table,
    the finalized table holds, for every roster row and every counts row that
    match on the key used, a row that shows the roster row with the counts
    row's week1_count, week2_count, total_count, max_possible and percentage;
    it holds nothing else than roster rows, each zero-filled when nothing
    matches and with a matching counts row's numbers otherwise; and it has at
    least as many rows as the gradebook. *)
Theorem roster_join_carries_counts
    (join_mode : string) (counts_out : list counts_row) (csv : gradebook_csv)
    (merged : frame) :
  join_mode = "auto" \/ join_mode = "id" \/ join_mode = "email" ->
  join_by_mode join_mode counts_out (load_gradebook_csv csv) = Returned (Some merged) ->
  exists out matches,
    finalize_output (Some merged) = Returned out /\
    In matches [id_match; sis_match; email_match] /\
    joins_counts csv counts_out matches out /\
    only_roster csv counts_out matches out /\
    (List.length (gb_rows csv) <= List.length (out_rows out))%nat.
Proof.
  destruct (roster_key_columns csv) as (Hid & Hsis & Hem).
  intros [-> | [-> | ->]]; unfold join_by_mode; cbn [String.eqb Ascii.eqb Bool.eqb].
  - unfold try_join_modes, join_id, join_email. rewrite Hid, Hsis, Hem.
    destruct (has_ID csv), (has_SIS_Login_ID csv), (has_Email csv); cbn [negb];
      match goal with
      | |- context [ge_number ?a ?b] => destruct (ge_number a b)
      end;
      intros H; first [discriminate H | injection H as <-; pick_carry csv counts_out].
  - rewrite Hid. destruct (has_ID csv); [|discriminate].
    intros H; injection H as <-; pick_carry csv counts_out.
  - rewrite Hsis, Hem.
    destruct (has_SIS_Login_ID csv); [intros H; injection H as <-; pick_carry csv counts_out|].
    destruct (has_Email csv); [|discriminate].
    intros H; injection H as <-; pick_carry csv counts_out.
Qed.

Lemma roster_join_carries_counts_witness :
  ("id" = "auto" \/ "id" = "id" \/ "id" = "email") /\
  exists merged,
    join_by_mode "id" sample_counts (load_gradebook_csv sample_gradebook)
    = Returned (Some merged) /\
    exists out matches,
      finalize_output (Some merged) = Returned out /\
      In matches [id_match; sis_match; email_match] /\
      joins_counts sample_gradebook sample_counts matches out /\
      only_roster sample_gradebook sample_counts matches out /\
      (List.length (gb_rows sample_gradebook) <= List.length (out_rows out))%nat.
Proof.
  assert (Hmode : "id" = "auto" \/ "id" = "id" \/ "id" = "email")
    by (right; left; reflexivity).
  split; [exact Hmode|].
  exists (Joined (roster_columns (load_gradebook_csv sample_gradebook))
                 (merge_on_id sample_counts (load_gradebook_csv sample_gradebook))).
  assert (Hjoin : join_by_mode "id" sample_counts (load_gradebook_csv sample_gradebook)
                  = Returned (Some (Joined (roster_columns (load_gradebook_csv sample_gradebook))
                       (merge_on_id sample_counts (load_gradebook_csv sample_gradebook)))))
    by reflexivity.
  split; [exact Hjoin|].
  exact (roster_join_carries_counts "id" sample_counts sample_gradebook _ Hmode Hjoin).
Defined.


(** ** The matrix against the counts *)

Lemma matrix_dates_map (df : list att_row) (six_dates : list Z) (identity : cell) :
  matrix_dates (att_ids_of df) six_dates identity
  = map (fun d => if attended df identity d then 1 else 0) six_dates.
Proof.
  apply nth_error_ext. intros k. rewrite nth_error_map.
  destruct (nth_error six_dates k) as [d|] eqn:E.
  - now rewrite (matrix_dates_nth df six_dates identity k d E).
  - cbn [option_map]. apply nth_error_None.
    rewrite (proj1 (matrix_dates_shape _ _ _)). now apply nth_error_None.
Qed.

Lemma sum_indicators {A : Type} (p : A -> bool) (l : list A) :
  fold_right Z.add 0 (map (fun d => if p d then 1 else 0) l)
  = Z.of_nat (List.length (filter p l)).
Proof.
  induction l as [|x l IH]; [reflexivity|].
  cbn [map fold_right filter]. rewrite IH.
  destruct (p x); cbn [List.length]; lia.
Qed.

Lemma count_in_week_app (dates : list date) (w1 w2 : list Z) :
  (forall x, In x w1 -> In x w2 -> False) ->
  count_in_week dates (w1 ++ w2) = count_in_week dates w1 + count_in_week dates w2.
Proof.
  intros Hdis. unfold count_in_week. rewrite <- Nat2Z.inj_add. f_equal.
  induction dates as [|d dates IH]; [reflexivity|].
  cbn [filter]. destruct d as [x|]; [|exact IH].
  unfold mem_date in *. rewrite existsb_app.
  destruct (existsb (Z.eqb x) w1) eqn:E1, (existsb (Z.eqb x) w2) eqn:E2;
    cbn [orb List.length]; rewrite IH; try lia.
  exfalso. apply (Hdis x); apply mem_date_In; assumption.
Qed.

Lemma sorted_set_In (s : list date) (d : date) : In d (sorted_set s) <-> In d s.
Proof.
  unfold sorted_set. rewrite sort_by_In. apply unique_In, date_eqb_spec.
Qed.

Lemma group_dates_attended (df : list att_row) (i : string) (d : Z) :
  In (Some d) (group_dates df i) <-> attended df (Some i) d = true.
Proof.
  unfold group_dates, attended. rewrite in_map_iff, existsb_exists. split.
  - intros (r & Hd & Hr). apply filter_In in Hr as [Hr Hi].
    exists r. split; [exact Hr|]. rewrite Hi. cbn [andb].
    apply date_eqb_spec. exact Hd.
  - intros (r & Hr & Hb). apply andb_true_iff in Hb as [Hi Hd].
    exists r. split; [now apply date_eqb_spec|]. apply filter_In. now split.
Qed.

Lemma NoDup_map_Some {A : Type} (l : list A) : NoDup l -> NoDup (map Some l).
Proof.
  induction 1 as [|x l Hx Hnd IH]; cbn [map]; constructor; [|exact IH].
  rewrite in_map_iff. intros (y & Hy & Hin). injection Hy as ->. contradiction.
Qed.

Lemma count_in_week_attended (df : list att_row) (i : string) (six_dates : list Z) :
  NoDup six_dates ->
  count_in_week (sorted_set (group_dates df i)) six_dates
  = Z.of_nat (List.length (filter (attended df (Some i)) six_dates)).
Proof.
  intros Hnd. unfold count_in_week. f_equal.
  rewrite <- (length_map Some (filter _ six_dates)).
  apply Permutation_length, NoDup_Permutation.
  - apply NoDup_filter, sorted_set_NoDup.
  - apply NoDup_map_Some. now apply NoDup_filter.
  - intros d. rewrite filter_In, in_map_iff. split.
    + intros [Hd Hm]. destruct d as [x|]; [|discriminate Hm].
      exists x. split; [reflexivity|]. apply filter_In. split.
      * now apply mem_date_In.
      * apply group_dates_attended. now apply sorted_set_In.
    + intros (x & <- & Hx). apply filter_In in Hx as [Hx Ha]. split.
      * apply sorted_set_In. now apply group_dates_attended.
      * now apply mem_date_In.
Qed.

Lemma six_dates_of_spec (df : list att_row) :
  six_dates_of df = firstn 6 (lecture_dates_of df) /\
  six_dates_of df = week1_of (lecture_dates_of df) ++ week2_of (lecture_dates_of df) /\
  NoDup (six_dates_of df) /\ (List.length (six_dates_of df) <= 6)%nat.
Proof.
  assert (E : six_dates_of df = firstn 6 (lecture_dates_of df)).
  { unfold six_dates_of, compute_counts. rewrite week_split, firstn_firstn. reflexivity. }
  split; [exact E|]. split; [now rewrite week_split|]. rewrite E. split.
  - pose proof (lecture_dates_of_NoDup df) as H.
    rewrite <- (firstn_skipn 6 (lecture_dates_of df)) in H.
    apply NoDup_app_remove_r in H. exact H.
  - apply firstn_le_length.
Qed.

Lemma write_matrix_total (df : list att_row) (six_dates : list Z) (m : matrix_row) :
  In m (write_matrix df six_dates) ->
  In (mx_identity m) (map __identity df) /\
  mx_total_count m
  = Z.of_nat (List.length (filter (attended df (mx_identity m)) six_dates)) /\
  mx_percentage m = (inject_Z (mx_total_count m) / inject_Z 6 * 100)%Q.
Proof.
  unfold write_matrix. intros Hm. apply in_map_iff in Hm as (r & <- & Hr).
  cbn [mx_identity mx_total_count mx_percentage]. split; [|split].
  - apply in_map. apply drop_duplicates_In in Hr. now apply sort_by_In in Hr.
  - rewrite matrix_dates_map. apply sum_indicators.
  - reflexivity.
Qed.

Lemma write_matrix_identities (df : list att_row) (six_dates : list Z) (i : cell) :
  In i (map __identity df) -> exists m, In m (write_matrix df six_dates) /\ mx_identity m = i.
Proof.
  intros Hi. apply in_map_iff in Hi as (r & <- & Hr).
  assert (H : In (__identity r)
                 (map __identity (drop_duplicates cell_eqb __identity (sort_by ts_leb df)))).
  { apply drop_duplicates_keys; [apply cell_eqb_spec | now apply sort_by_In]. }
  apply in_map_iff in H as (r' & Heq & Hr').
  eexists. split.
  - unfold write_matrix. apply in_map_iff. exists r'. split; [reflexivity | exact Hr'].
  - exact Heq.
Qed.

(** X21.  The matrix and the counts of one run agree.  With the selected
    dates that the service and the command line compute, every matrix row has
    a total between 0 and 6; the row of an identity has the counts row of that
    identity, and its total_count is week1_count + week2_count of that row
    (not its total_count, which also counts dates after the sixth) and its
    percentage is the same; the row of the NaN identity, which the counts
    leave out, has total 0; and every counts row has its matrix row. *)
Theorem write_matrix_agrees_with_counts (df_weeks : list att_row) :
  Forall (fun m =>
            0 <= mx_total_count m <= 6 /\
            match mx_identity m with
            | Some i =>
                exists c, In c (counts_of df_weeks) /\ c_identity c = i /\
                  mx_total_count m = week1_count c + week2_count c /\
                  mx_percentage m = percentage c
            | None => mx_total_count m = 0
            end)
         (write_matrix df_weeks (six_dates_of df_weeks)) /\
  Forall (fun c =>
            exists m, In m (write_matrix df_weeks (six_dates_of df_weeks)) /\
                      mx_identity m = Some (c_identity c))
         (counts_of df_weeks).
Proof.
  destruct (six_dates_of_spec df_weeks) as (_ & Hsix & Hnd & Hlen).
  split; apply Forall_forall.
  - intros m Hm. destruct (write_matrix_total _ _ _ Hm) as (Hid & Htot & Hpct). split.
    + rewrite Htot. split; [lia|].
      pose proof (filter_length_le (attended df_weeks (mx_identity m))
                    (six_dates_of df_weeks)). lia.
    + destruct (mx_identity m) as [i|] eqn:Ei.
      * assert (Hi : In i (map c_identity (counts_of df_weeks))).
        { rewrite counts_of_identities. now apply group_keys_In. }
        apply in_map_iff in Hi as (c & Hci & Hc). exists c.
        split; [exact Hc|]. split; [exact Hci|].
        destruct (counts_of_cnt _ _ Hc) as (j & _ & Hj & _ & _ & H1 & H2 & Hp).
        assert (Hsum : mx_total_count m = week1_count c + week2_count c).
        { rewrite Htot, H1, H2, <- count_in_week_app
            by (intros x; apply weeks_disjoint, lecture_dates_of_NoDup).
          rewrite <- Hsix, <- Hj, Hci. symmetry. now apply count_in_week_attended. }
        split; [exact Hsum|]. rewrite Hpct, Hp, Hsum. reflexivity.
      * rewrite Htot. cbn [attended].
        now rewrite (proj2 (filter_length_zero _ _)).
  - intros c Hc. apply write_matrix_identities.
    apply group_keys_In. rewrite <- counts_of_identities. now apply in_map.
Qed.

(** ** The summary *)

Lemma positive_spec (x : Q) : positive x = true <-> (0 < x)%Q.
Proof.
  unfold positive. rewrite negb_true_iff. split.
  - intros H. apply Qnot_le_lt. intros Hle. apply Qle_bool_iff in Hle. congruence.
  - intros H. destruct (Qle_bool x 0) eqn:E; [|reflexivity].
    apply Qle_bool_iff in E. exfalso. exact (Qlt_not_le _ _ H E).
Qed.

Lemma attendance_series_length (output_df : out_table) :
  List.length (attendance_series output_df) = List.length (out_rows output_df).
Proof.
  unfold attendance_series. destruct (has_column _ _); apply length_map.
Qed.

Lemma summarize_spec (output_df : out_table) (dates : list Z) :
  let s := summarize output_df dates in
  students_total s = List.length (out_rows output_df) /\
  (students_with_attendance s <= students_total s)%nat /\
  (0 <= coverage_pct s)%Q /\ (coverage_pct s <= 100)%Q /\
  ((coverage_pct s <= 0)%Q <-> students_with_attendance s = O) /\
  ((100 <= coverage_pct s)%Q <->
   students_total s <> O /\ students_with_attendance s = students_total s).
Proof.
  cbn zeta. unfold summarize.
  cbn [students_total students_with_attendance coverage_pct].
  set (k := List.length (filter positive (attendance_series output_df))).
  assert (Hk : (k <= List.length (out_rows output_df))%nat).
  { unfold k. rewrite <- attendance_series_length. apply filter_length_le. }
  destruct (List.length (out_rows output_df)) as [|n] eqn:En.
  - assert (H0 : k = O) by lia.
    split; [reflexivity|]. split; [exact Hk|].
    split; [apply Qle_refl|]. split; [discriminate|]. split.
    + split; [intros _; exact H0 | intros _; apply Qle_refl].
    + split.
      * intros H'. exfalso. revert H'. apply Qlt_not_le. reflexivity.
      * intros [H' _]. now elim H'.
  - destruct (percent_of_bounds k (S n) Hk (Nat.lt_0_succ n)) as (H0 & H100 & Hz & Hall).
    split; [reflexivity|]. split; [exact Hk|].
    split; [exact H0|]. split; [exact H100|]. split; [exact Hz|]. split.
    + intros H'. split; [discriminate | now apply Hall].
    + intros [_ H']. now apply Hall.
Qed.

(** X22.  In the summary of a run students_with_attendance is at most
    students_total, which is the number of rows written; coverage_pct lies
    between 0 and 100, is 0 exactly when no student has attendance (also for
    an empty table) and 100 exactly when the table is not empty and every
    student has. *)
Theorem summarize_bounds (output_df : out_table) (dates : list Z) :
  let s := summarize output_df dates in
  students_total s = List.length (out_rows output_df) /\
  (students_with_attendance s <= students_total s)%nat /\
  (0 <= coverage_pct s)%Q /\ (coverage_pct s <= 100)%Q /\
  ((coverage_pct s <= 0)%Q <-> students_with_attendance s = O) /\
  ((100 <= coverage_pct s)%Q <->
   students_total s <> O /\ students_with_attendance s = students_total s).
Proof. exact (summarize_spec output_df dates). Qed.

Lemma counts_of_total_positive (df : list att_row) (row : counts_row) :
  In row (counts_of df) -> 1 <= total_count row.
Proof.
  intros Hrow. destruct (counts_of_cnt _ _ Hrow) as (i & Hi & _ & _ & Htot & _).
  apply group_keys_In in Hi. apply in_map_iff in Hi as (r & Hid & Hr).
  assert (Hin : In (__date r) (sorted_set (group_dates df i))).
  { apply sorted_set_In. unfold group_dates. apply in_map. apply filter_In.
    split; [exact Hr|]. rewrite Hid. apply cell_eqb_spec. reflexivity. }
  rewrite Htot. destruct (sorted_set (group_dates df i)); [destruct Hin|].
  cbn [List.length]. lia.
Qed.

Lemma positive_inject_Z (z : Z) : positive (inject_Z z) = true <-> 0 < z.
Proof.
  rewrite positive_spec. change 0%Q with (inject_Z 0). rewrite <- Zlt_Qlt. reflexivity.
Qed.

(** X23.  Without a gradebook the table written has one row for each
    identity, every student in it has attendance, and coverage_pct is 100
    unless the table is empty: the summary of such a run says nothing about
    who is missing. *)
Theorem summarize_without_gradebook (df_weeks : list att_row) (dates : list Z) :
  let s := summarize (counts_output (counts_of df_weeks)) dates in
  students_total s = List.length (group_keys df_weeks) /\
  students_with_attendance s = students_total s /\
  (coverage_pct s == if (students_total s =? 0)%nat then 0 else 100)%Q.
Proof.
  cbn zeta.
  destruct (summarize_spec (counts_output (counts_of df_weeks)) dates)
    as (Hn & _ & _ & Hle & _ & Hall).
  cbn zeta in *.
  assert (Hk : students_with_attendance (summarize (counts_output (counts_of df_weeks)) dates)
               = students_total (summarize (counts_output (counts_of df_weeks)) dates)).
  { rewrite Hn. unfold summarize. cbn [students_with_attendance].
    rewrite <- attendance_series_length. apply filter_length_all.
    intros x Hx. unfold attendance_series, counts_output in Hx.
    cbn [out_columns out_rows] in Hx.
    change (has_column "total_count"
              [ "Student"; "ID"; "Email"; "week1_count"; "week2_count"; "total_count";
                "max_possible"; "percentage" ]) with true in Hx.
    cbn iota in Hx. rewrite map_map in Hx. cbn [out_total_count] in Hx.
    apply in_map_iff in Hx as (c & <- & Hc).
    apply positive_inject_Z. pose proof (counts_of_total_positive _ _ Hc). lia. }
  split; [|split; [exact Hk|]].
  - rewrite Hn. unfold counts_output. cbn [out_rows]. rewrite length_map.
    now rewrite <- counts_of_identities, length_map.
  - destruct (students_total _ =? 0)%nat eqn:E0.
    + apply Nat.eqb_eq in E0. revert E0. rewrite Hn. unfold summarize.
      cbn [coverage_pct]. intros ->. reflexivity.
    + apply Nat.eqb_neq in E0. apply Qle_antisym; [exact Hle|].
      apply Hall. split; [exact E0 | exact Hk].
Qed.

(** ** The errors of a run *)





(** ** The columns of the table written *)

Lemma join_by_mode_frame (join_mode : string) (counts_out : list counts_row)
    (roster : roster_table) :
  match join_by_mode join_mode counts_out roster with
  | Returned (Some (Joined cols _)) =>
      cols = roster_columns roster /\ joins_roster join_mode = true
  | Returned (Some (Counts rows)) => rows = counts_out /\ joins_roster join_mode = false
  | Returned None => join_mode = "auto"
  | Raised _ => joins_roster join_mode = true
  end.
Proof.
  unfold join_by_mode, joins_roster.
  destruct (String.eqb_spec join_mode "auto") as [->|Hauto].
  { unfold try_join_modes, join_id, join_email.
    destruct (has_column "ID_str" (roster_columns roster)), (has_column "SIS Login ID_norm" (roster_columns roster)),
      (has_column "Email_norm" (roster_columns roster)); cbn [negb];
      match goal with
      | |- context [ge_number ?a ?b] => destruct (ge_number a b)
      end; repeat split. }
  destruct (String.eqb_spec join_mode "id") as [->|Hid].
  { destruct (has_column "ID_str" (roster_columns roster)); repeat split. }
  destruct (String.eqb_spec join_mode "email") as [->|Hemail].
  { destruct (has_column "SIS Login ID_norm" (roster_columns roster)); [repeat split|].
    destruct (has_column "Email_norm" (roster_columns roster)); repeat split. }
  repeat split.
Qed.

Lemma finalize_columns_joined (csv : gradebook_csv)
    (rows : list (roster_row * option counts_row)) :
  exists out,
    finalize_output (Some (Joined (roster_columns (load_gradebook_csv csv)) rows))
    = Returned out /\
    List.length (out_rows out) = List.length rows /\
    out_columns out
    = "Student" :: (if has_ID csv then ["ID"] else [])
                ++ (if has_SIS_Login_ID csv then ["SIS Login ID"] else [])
                ++ (if has_Email csv then ["Email"] else [])
                ++ count_names.
Proof.
  eexists. split; [reflexivity|]. cbn [out_columns out_rows frame_columns].
  split; [apply length_map|].
  destruct csv as [[] [] [] [] gr]; reflexivity.
Qed.

Lemma roster_join_length (join_mode : string) (counts_out : list counts_row)
    (csv : gradebook_csv) :
  match join_by_mode join_mode counts_out (load_gradebook_csv csv) with
  | Returned (Some (Joined _ rows)) =>
      (List.length (gb_rows csv) <= List.length rows)%nat
  | _ => True
  end.
Proof.
  assert (Hid : (List.length (gb_rows csv)
                 <= List.length (merge_on_id counts_out (load_gradebook_csv csv)))%nat).
  { unfold merge_on_id. eapply Nat.le_trans; [|apply merge_left_length_ge].
    unfold load_gradebook_csv. cbn [roster_rows]. rewrite length_map. apply Nat.le_refl. }
  assert (Hem : forall key,
             (List.length (gb_rows csv)
              <= List.length (merge_on_email key counts_out (load_gradebook_csv csv)))%nat).
  { intros key. unfold merge_on_email. eapply Nat.le_trans; [|apply merge_left_length_ge].
    unfold load_gradebook_csv. cbn [roster_rows]. rewrite length_map. apply Nat.le_refl. }
  revert Hid Hem. generalize (load_gradebook_csv csv). intros roster Hid Hem.
  unfold join_by_mode.
  destruct (join_mode =? "auto")%string.
  { unfold try_join_modes, join_id, join_email.
    destruct (has_column "ID_str" (roster_columns roster)), (has_column "SIS Login ID_norm" (roster_columns roster)),
      (has_column "Email_norm" (roster_columns roster)); cbn [negb];
      match goal with
      | |- context [ge_number ?a ?b] => destruct (ge_number a b)
      end; first [exact I | exact Hid | apply Hem]. }
  destruct (join_mode =? "id")%string.
  { destruct (has_column "ID_str" (roster_columns roster)); [exact Hid | exact I]. }
  destruct (join_mode =? "email")%string; [|exact I].
  destruct (has_column "SIS Login ID_norm" (roster_columns roster)); [apply Hem|].
  destruct (has_column "Email_norm" (roster_columns roster)); [apply Hem | exact I].
Qed.

(** X25.  The columns of the table written.  With a gradebook and a join
    (modes auto, id, email) they are Student, those of ID, SIS Login ID and
    Email that the gradebook has, and the five count columns; with a
    gradebook and any other mode only Student and the five count columns, so
    that the ID and Email of the sheet are lost; without a gradebook Student,
    ID, Email and the five count columns.  The helper columns (__identity,
    attended_dates, the normalized keys) are never written. *)
Theorem output_columns
    (join_mode : string) (counts_out : list counts_row) (csv : gradebook_csv) :
  match merged <- join_by_mode join_mode counts_out (load_gradebook_csv csv) ;;
        finalize_output merged with
  | Returned out =>
      out_columns out
      = (if joins_roster join_mode
         then "Student" :: (if has_ID csv then ["ID"] else [])
                        ++ (if has_SIS_Login_ID csv then ["SIS Login ID"] else [])
                        ++ (if has_Email csv then ["Email"] else [])
                        ++ count_names
         else "Student" :: count_names) /\
      (if joins_roster join_mode
       then (List.length (gb_rows csv) <= List.length (out_rows out))%nat
       else List.length (out_rows out) = List.length counts_out)
  | Raised _ => joins_roster join_mode = true
  end /\
  out_columns (counts_output counts_out) = "Student" :: "ID" :: "Email" :: count_names.
Proof.
  split; [|reflexivity].
  pose proof (join_by_mode_frame join_mode counts_out (load_gradebook_csv csv)) as Hframe.
  pose proof (roster_join_length join_mode counts_out csv) as Hlen.
  destruct (join_by_mode join_mode counts_out (load_gradebook_csv csv))
    as [[[cols rows|rows]|]|e]; cbn [bind].
  - destruct Hframe as (-> & Hmode). rewrite Hmode in *.
    destruct (finalize_columns_joined csv rows) as (out & -> & Hrows & ->).
    split; [reflexivity|]. rewrite Hrows. exact Hlen.
  - destruct Hframe as (-> & Hmode). rewrite Hmode. cbn [finalize_output].
    split; [reflexivity|]. cbn [out_rows]. apply length_map.
  - subst join_mode. reflexivity.
  - exact Hframe.
Qed.

(** ** The summary of a joined table *)

Lemma filter_map_length {A B : Type} (g : B -> bool) (h : A -> B) (rows : list A) :
  List.length (filter g (map h rows)) = List.length (filter (fun a => g (h a)) rows).
Proof.
  induction rows as [|a rows IH]; [reflexivity|].
  cbn [map filter]. destruct (g (h a)); cbn [List.length]; now rewrite IH.
Qed.

Lemma joined_series (csv : gradebook_csv) (rows : list (roster_row * option counts_row)) :
  exists out,
    finalize_output (Some (Joined (roster_columns (load_gradebook_csv csv)) rows))
    = Returned out /\
    List.length (out_rows out) = List.length rows /\
    attendance_series out
    = map (fun p => fillna 0 (option_map (fun c => inject_Z (total_count c)) (snd p))) rows.
Proof.
  eexists. split; [reflexivity|]. split; [apply length_map|].
  unfold attendance_series. cbn [out_columns out_rows frame_columns].
  replace (has_column "total_count" _) with true
    by (destruct csv as [[] [] [] [] gr]; reflexivity).
  rewrite map_map. reflexivity.
Qed.

Lemma join_rows_counted (join_mode : string) (df : list att_row) (csv : gradebook_csv) :
  match join_by_mode join_mode (counts_of df) (load_gradebook_csv csv) with
  | Returned (Some (Joined _ rows)) =>
      forall r c, In (r, Some c) rows -> 1 <= total_count c
  | _ => True
  end.
Proof.
  assert (Hid : forall r c,
             In (r, Some c) (merge_on_id (counts_of df) (load_gradebook_csv csv)) ->
             1 <= total_count c).
  { intros r c Hin. apply merge_left_In in Hin as (_ & Hc & _).
    apply in_map_iff in Hc as (c0 & <- & Hc0).
    exact (counts_of_total_positive df c0 Hc0). }
  assert (Hem : forall key r c,
             In (r, Some c) (merge_on_email key (counts_of df) (load_gradebook_csv csv)) ->
             1 <= total_count c).
  { intros key r c Hin. apply merge_left_In in Hin as (_ & Hc & _).
    exact (counts_of_total_positive df c Hc). }
  revert Hid Hem. generalize (load_gradebook_csv csv). intros roster Hid Hem.
  unfold join_by_mode.
  destruct (join_mode =? "auto")%string.
  { unfold try_join_modes, join_id, join_email.
    destruct (has_column "ID_str" (roster_columns roster)),
      (has_column "SIS Login ID_norm" (roster_columns roster)),
      (has_column "Email_norm" (roster_columns roster)); cbn [negb];
      match goal with
      | |- context [ge_number ?a ?b] => destruct (ge_number a b)
      end; first [exact I | exact Hid | apply Hem]. }
  destruct (join_mode =? "id")%string.
  { destruct (has_column "ID_str" (roster_columns roster)); [exact Hid | exact I]. }
  destruct (join_mode =? "email")%string; [|exact I].
  destruct (has_column "SIS Login ID_norm" (roster_columns roster)); [apply Hem|].
  destruct (has_column "Email_norm" (roster_columns roster)); [apply Hem | exact I].
Qed.

(** X26.  After a join of the counts of a table with a gradebook, the
    summary counts as students with attendance exactly the rows that a
    counts row matched, and for a table with rows its coverage_pct is the
    match coverage that [try_join_modes] computes for the same join: a
    roster student without a check-in is what lowers it. *)
Theorem summary_coverage_is_match_coverage
    (join_mode : string) (df_weeks : list att_row) (csv : gradebook_csv)
    (dates : list Z) :
  match join_by_mode join_mode (counts_of df_weeks) (load_gradebook_csv csv) with
  | Returned (Some (Joined cols rows)) =>
      exists out,
        finalize_output (Some (Joined cols rows)) = Returned out /\
        students_total (summarize out dates) = List.length rows /\
        students_with_attendance (summarize out dates)
        = List.length (filter (fun p => negb (isna (snd p))) rows) /\
        (rows <> [] -> coverage rows = Num (coverage_pct (summarize out dates)))
  | _ => True
  end.
Proof.
  pose proof (join_by_mode_frame join_mode (counts_of df_weeks) (load_gradebook_csv csv))
    as Hframe.
  pose proof (join_rows_counted join_mode df_weeks csv) as Hpos.
  destruct (join_by_mode join_mode (counts_of df_weeks) (load_gradebook_csv csv))
    as [[[cols rows|rows]|]|e]; try exact I.
  destruct Hframe as (-> & _).
  destruct (joined_series csv rows) as (out & Hout & Hlen & Hseries).
  exists out. split; [exact Hout|].
  assert (Hk : List.length (filter positive (attendance_series out))
               = List.length (filter (fun p => negb (isna (snd p))) rows)).
  { rewrite Hseries, filter_map_length. f_equal. apply filter_ext_in.
    intros [r [c|]] Hin; cbn [snd option_map fillna isna negb].
    - apply positive_inject_Z. pose proof (Hpos r c Hin). lia.
    - reflexivity. }
  unfold summarize. cbn [students_total students_with_attendance coverage_pct].
  rewrite Hk, Hlen. split; [reflexivity|]. split; [reflexivity|].
  intros Hne.
  assert (Hmean : forall bs, bs <> [] ->
            mean bs = Num (Z.of_nat (List.length (filter (fun b => b) bs))
                           # Pos.of_nat (List.length bs))).
  { intros [|b bs] Hbs; [now elim Hbs | reflexivity]. }
  unfold coverage. rewrite Hmean by (destruct rows; [now elim Hne | discriminate]).
  rewrite filter_map_length, length_map.
  rewrite (filter_ext _ (fun p => negb (isna (snd p))))
    by (intros [r [c|]]; reflexivity).
  destruct rows as [|p rows']; [now elim Hne | reflexivity].
Qed.

(** ** The counts do not depend on repeated check-ins *)

Section SortedUnique.
Context {T : Type} (leb : T -> T -> bool).
Hypothesis leb_antisym : forall a b, leb a b = true -> leb b a = true -> a = b.

Lemma sorted_same_elements (l1 l2 : list T) :
  StronglySorted (fun a b => leb a b = true) l1 ->
  StronglySorted (fun a b => leb a b = true) l2 ->
  NoDup l1 -> NoDup l2 ->
  (forall x, In x l1 <-> In x l2) -> l1 = l2.
Proof.
  revert l2. induction l1 as [|x l1 IH]; intros l2 S1 S2 N1 N2 Hset.
  - destruct l2 as [|y l2]; [reflexivity|].
    exfalso. apply (proj2 (Hset y)). now left.
  - destruct l2 as [|y l2].
    { exfalso. apply (proj1 (Hset x)). now left. }
    apply StronglySorted_inv in S1 as [S1 Hx], S2 as [S2 Hy].
    rewrite Forall_forall in Hx, Hy.
    apply NoDup_cons_iff in N1 as [Nx N1], N2 as [Ny N2].
    assert (Exy : x = y).
    { destruct (proj1 (Hset x) (or_introl eq_refl)) as [E|Hin]; [now symmetry|].
      destruct (proj2 (Hset y) (or_introl eq_refl)) as [E|Hin']; [exact E|].
      apply leb_antisym; [now apply Hx | now apply Hy]. }
    subst y. f_equal. apply IH; try assumption.
    intros z. split; intros Hz.
    + destruct (proj1 (Hset z) (or_intror Hz)) as [E|Hin]; [|exact Hin].
      subst z. contradiction.
    + destruct (proj2 (Hset z) (or_intror Hz)) as [E|Hin]; [|exact Hin].
      subst z. contradiction.
Qed.

Hypothesis leb_total : forall a b, leb a b = false -> leb b a = true.
Hypothesis leb_trans : forall a b c, leb a b = true -> leb b c = true -> leb a c = true.

Lemma sort_by_same_elements (l1 l2 : list T) :
  NoDup l1 -> NoDup l2 -> (forall x, In x l1 <-> In x l2) ->
  sort_by leb l1 = sort_by leb l2.
Proof.
  intros N1 N2 Hset. apply sorted_same_elements.
  - now apply sort_by_sorted.
  - now apply sort_by_sorted.
  - exact (Permutation_NoDup (Permutation_sym (sort_by_perm leb l1)) N1).
  - exact (Permutation_NoDup (Permutation_sym (sort_by_perm leb l2)) N2).
  - intros x. rewrite !sort_by_In. apply Hset.
Qed.
End SortedUnique.

Lemma string_leb_antisym (a b : string) :
  String.leb a b = true -> String.leb b a = true -> a = b.
Proof.
  intros Hab Hba. destruct (String.eqb_spec a b) as [E|N]; [exact E|].
  pose proof (string_leb_neq_ltb a b Hab N) as H1.
  assert (N' : b <> a) by congruence.
  pose proof (string_leb_neq_ltb b a Hba N') as H2.
  unfold String.ltb in H1, H2. unfold String.leb in Hab, Hba.
  rewrite String.compare_antisym in H2.
  destruct (String.compare a b); discriminate.
Qed.

Lemma Z_leb_antisym (a b : Z) : (a <=? b) = true -> (b <=? a) = true -> a = b.
Proof. rewrite !Z.leb_le. lia. Qed.

Section SameDays.
Variables df1 df2 : list att_row.
Hypothesis same_days :
  forall k, In k (map identity_date df1) <-> In k (map identity_date df2).

Lemma same_days_row (r : att_row) :
  In r df1 -> exists r', In r' df2 /\ __identity r' = __identity r /\ __date r' = __date r.
Proof.
  intros Hr. apply (in_map identity_date) in Hr. apply same_days in Hr.
  apply in_map_iff in Hr as (r' & E & Hr'). exists r'. split; [exact Hr'|].
  unfold identity_date in E. injection E as E1 E2. now split.
Qed.
End SameDays.

Lemma same_days_sym (df1 df2 : list att_row) :
  (forall k, In k (map identity_date df1) <-> In k (map identity_date df2)) ->
  forall k, In k (map identity_date df2) <-> In k (map identity_date df1).
Proof. intros H k. symmetry. apply H. Qed.

Lemma same_days_lecture_dates (df1 df2 : list att_row) :
  (forall k, In k (map identity_date df1) <-> In k (map identity_date df2)) ->
  lecture_dates_of df1 = lecture_dates_of df2.
Proof.
  intros Hset. unfold lecture_dates_of.
  apply (sort_by_same_elements Z.leb Z_leb_antisym Z_leb_total Z_leb_trans).
  - apply dropna_NoDup, unique_NoDup, date_eqb_spec.
  - apply dropna_NoDup, unique_NoDup, date_eqb_spec.
  - intros d. rewrite !dropna_In, !(unique_In date_eqb _ _ date_eqb_spec), !in_map_iff.
    split; intros (r & E & Hr).
    + destruct (same_days_row df1 df2 Hset r Hr) as (r' & Hr' & _ & Ed).
      exists r'. split; [congruence | exact Hr'].
    + destruct (same_days_row df2 df1 (same_days_sym _ _ Hset) r Hr) as (r' & Hr' & _ & Ed).
      exists r'. split; [congruence | exact Hr'].
Qed.

Lemma same_days_group_keys (df1 df2 : list att_row) :
  (forall k, In k (map identity_date df1) <-> In k (map identity_date df2)) ->
  group_keys df1 = group_keys df2.
Proof.
  intros Hset. unfold group_keys.
  apply (sort_by_same_elements String.leb string_leb_antisym string_leb_total
           string_leb_trans).
  - apply unique_NoDup. intros a b. apply String.eqb_eq.
  - apply unique_NoDup. intros a b. apply String.eqb_eq.
  - intros i. rewrite !(unique_In String.eqb _ _ (fun a b => String.eqb_eq a b)).
    rewrite !dropna_In, !in_map_iff. split; intros (r & E & Hr).
    + destruct (same_days_row df1 df2 Hset r Hr) as (r' & Hr' & Ei & _).
      exists r'. split; [congruence | exact Hr'].
    + destruct (same_days_row df2 df1 (same_days_sym _ _ Hset) r Hr) as (r' & Hr' & Ei & _).
      exists r'. split; [congruence | exact Hr'].
Qed.

Lemma group_dates_In (df : list att_row) (i : string) (d : date) :
  In d (group_dates df i) <-> exists r, In r df /\ __identity r = Some i /\ __date r = d.
Proof.
  unfold group_dates. rewrite in_map_iff. split.
  - intros (r & E & Hr). apply filter_In in Hr as [Hr Hi].
    apply cell_eqb_spec in Hi. now exists r.
  - intros (r & Hr & Hi & E). exists r. split; [exact E|].
    apply filter_In. split; [exact Hr|]. now apply cell_eqb_spec.
Qed.

Lemma same_days_sorted_set (df1 df2 : list att_row) (i : string) :
  (forall k, In k (map identity_date df1) <-> In k (map identity_date df2)) ->
  sorted_set (group_dates df1 i) = sorted_set (group_dates df2 i).
Proof.
  intros Hset. unfold sorted_set.
  apply (sort_by_same_elements na_last_leb na_last_leb_antisym na_last_leb_total
           na_last_leb_trans).
  - apply unique_NoDup, date_eqb_spec.
  - apply unique_NoDup, date_eqb_spec.
  - intros d. rewrite !(unique_In date_eqb _ _ date_eqb_spec), !group_dates_In.
    split; intros (r & Hr & Hi & Hd).
    + destruct (same_days_row df1 df2 Hset r Hr) as (r' & Hr' & Ei & Ed).
      exists r'. split; [exact Hr'|]. split; congruence.
    + destruct (same_days_row df2 df1 (same_days_sym _ _ Hset) r Hr) as (r' & Hr' & Ei & Ed).
      exists r'. split; [exact Hr'|]. split; congruence.
Qed.

Lemma same_days_counts (df1 df2 : list att_row) :
  (forall k, In k (map identity_date df1) <-> In k (map identity_date df2)) ->
  map count_numbers (counts_of df1) = map count_numbers (counts_of df2) /\
  lecture_dates_of df1 = lecture_dates_of df2.
Proof.
  intros Hset. split; [|now apply same_days_lecture_dates].
  rewrite !counts_of_spec, !map_map.
  rewrite (same_days_group_keys df1 df2 Hset), (same_days_lecture_dates df1 df2 Hset).
  apply map_ext. intros i.
  unfold count_numbers, with_display, cnt_row.
  cbn [fst snd c_identity attended_dates total_count week1_count week2_count
       max_possible percentage].
  now rewrite (same_days_sorted_set df1 df2 i Hset).
Qed.

Lemma dedup_same_day_days (df : list att_row) (k : cell * date) :
  In k (map identity_date (dedup_same_day df)) <-> In k (map identity_date df).
Proof.
  split; intros Hk; apply in_map_iff in Hk as (r & <- & Hr).
  - apply in_map. now apply dedup_same_day_In.
  - unfold dedup_same_day.
    apply drop_duplicates_keys; [apply identity_date_eqb_spec | now apply sort_by_In].
Qed.

(** X27.  The numbers of the counts are those of the distinct days: the
    identities, the attended dates, total_count, the week counts,
    max_possible and percentage, and the lecture dates with their two weeks,
    are the same whether [compute_counts] is given the table that
    [dedup_same_day] leaves or the table before it.  A repeated check-in on a
    day never adds to a count. *)
Theorem compute_counts_ignores_repeats (df : list att_row) :
  let '(counts_out, lecture_dates, week1, week2) := compute_counts (dedup_same_day df) in
  let '(counts_out', lecture_dates', week1', week2') := compute_counts df in
  map count_numbers counts_out = map count_numbers counts_out' /\
  lecture_dates = lecture_dates' /\ week1 = week1' /\ week2 = week2'.
Proof.
  destruct (same_days_counts (dedup_same_day df) df (dedup_same_day_days df))
    as [Hcounts Hdates].
  change (map count_numbers (counts_of (dedup_same_day df))
          = map count_numbers (counts_of df) /\
          lecture_dates_of (dedup_same_day df) = lecture_dates_of df /\
          week1_of (lecture_dates_of (dedup_same_day df)) = week1_of (lecture_dates_of df) /\
          week2_of (lecture_dates_of (dedup_same_day df)) = week2_of (lecture_dates_of df)).
  rewrite Hdates. repeat split. exact Hcounts.
Qed.

(** ** The names in the two files of a run *)

Lemma date_of_ns_mono (x y : Z) : x <= y -> date_of_ns x <= date_of_ns y.
Proof.
  intros H. unfold date_of_ns. apply Z.div_le_mono; [|exact H].
  unfold NS_PER_DAY. lia.
Qed.

Lemma date_ts_leb_by_timestamp (a b : att_row) :
  __date a = dt_date (__ts a) -> __date b = dt_date (__ts b) ->
  date_ts_leb a b = true -> ts_leb a b = true.
Proof.
  unfold date_ts_leb, ts_leb. intros Ha Hb.
  destruct (date_eqb (__date a) (__date b)) eqn:E; [trivial|].
  rewrite Ha, Hb in *. destruct (__ts a) as [x|], (__ts b) as [y|];
    cbn [dt_date option_map na_last_leb] in *; try trivial; try discriminate.
  intros Hle. apply Z.leb_le in Hle. apply Z.leb_le.
  destruct (Z.le_gt_cases x y) as [Hxy|Hxy]; [exact Hxy|].
  exfalso. assert (Hge : date_of_ns y <= date_of_ns x) by (apply date_of_ns_mono; lia).
  assert (Heq : date_of_ns x = date_of_ns y) by lia.
  rewrite Heq in E.
  rewrite (proj2 (date_eqb_spec (Some (date_of_ns y)) (Some (date_of_ns y))) eq_refl) in E.
  discriminate E.
Qed.

Lemma find_by_distinct_key {R K : Type} (eqb : K -> K -> bool) (key : R -> K)
    (rows : list R) (r : R) :
  (forall a b, eqb a b = true <-> a = b) ->
  NoDup (map key rows) -> In r rows ->
  find (fun x => eqb (key r) (key x)) rows = Some r.
Proof.
  intros Hspec. induction rows as [|x rows IH]; intros Hkeys Hr; [destruct Hr|].
  cbn [map] in Hkeys. apply NoDup_cons_iff in Hkeys as [Hx Hrest].
  cbn [find]. destruct Hr as [->|Hr].
  - now rewrite (proj2 (Hspec (key r) (key r)) eq_refl).
  - destruct (eqb (key r) (key x)) eqn:E; [|now apply IH].
    apply Hspec in E. exfalso. apply Hx. rewrite <- E. now apply in_map.
Qed.

Lemma window_dates_from_timestamps (to_datetime : string -> option Z)
    (attendance : attendance_csv) (start_date end_date : string)
    (df w : list att_row) (r : att_row) :
  load_attendance to_datetime attendance = Returned df ->
  filter_weeks to_datetime df start_date end_date = Returned w ->
  In r (dedup_same_day w) -> __date r = dt_date (__ts r).
Proof.
  intros Hload Hfilter Hr. apply dedup_same_day_In in Hr.
  pose proof (filter_weeks_spec to_datetime df start_date end_date) as Hspec.
  rewrite Hfilter in Hspec. destruct Hspec as (s & e & _ & _ & Hw).
  destruct (proj1 (Hw r) Hr) as [Hdf _].
  destruct (load_attendance_In _ _ _ _ Hload Hdf) as (_ & i & line & ->).
  reflexivity.
Qed.

Lemma sorted_by_timestamp (filtered : list att_row) :
  (forall r, In r filtered -> __date r = dt_date (__ts r)) ->
  StronglySorted (fun a b => date_ts_leb a b = true) filtered ->
  StronglySorted (fun a b => ts_leb a b = true) filtered.
Proof.
  intros Hdates Hsorted.
  apply (StronglySorted_In_impl (fun a b => date_ts_leb a b = true)); [|exact Hsorted].
  intros a b Ha Hb. apply date_ts_leb_by_timestamp; now apply Hdates.
Qed.

Lemma distinct_keys_same_row {R K : Type} (key : R -> K) (rows : list R) (a b : R) :
  NoDup (map key rows) -> In a rows -> In b rows -> key a = key b -> a = b.
Proof.
  induction rows as [|x rows IH]; intros Hkeys Ha Hb E; [destruct Ha|].
  cbn [map] in Hkeys. apply NoDup_cons_iff in Hkeys as [Hx Hrest].
  destruct Ha as [->|Ha], Hb as [->|Hb].
  - reflexivity.
  - exfalso. apply Hx. rewrite E. now apply in_map.
  - exfalso. apply Hx. rewrite <- E. now apply in_map.
  - now apply IH.
Qed.

Lemma matrix_names_of_first_rows (filtered : list att_row) (six_dates : list Z)
    (m : matrix_row) (i : string) :
  sort_by ts_leb filtered = filtered ->
  In m (write_matrix filtered six_dates) -> mx_identity m = Some i ->
  exists c, In c (counts_of filtered) /\ c_identity c = i /\
    mx_Student m = fillna0 (c_name c) /\ mx_ID m = fillna0 (c_id c) /\
    mx_Email m = fillna0 (c_email c).
Proof.
  intros Hsort Hm Hi. unfold write_matrix in Hm. rewrite Hsort in Hm.
  apply in_map_iff in Hm as (r & <- & Hr). cbn [mx_identity] in Hi.
  cbn [mx_Student mx_ID mx_Email].
  assert (Hfind : find (fun x => cell_eqb (Some i) (__identity x)) filtered = Some r).
  { rewrite <- (find_drop_duplicates cell_eqb __identity filtered (Some i) cell_eqb_spec).
    rewrite <- Hi.
    apply find_by_distinct_key;
      [apply cell_eqb_spec | apply drop_duplicates_NoDup, cell_eqb_spec | exact Hr]. }
  assert (Hkey : In i (group_keys filtered)).
  { apply group_keys_In. rewrite <- Hi. apply in_map.
    now apply drop_duplicates_In in Hr. }
  eexists. split; [|split].
  - rewrite counts_of_spec. apply in_map_iff. exists i. split; [reflexivity | exact Hkey].
  - reflexivity.
  - cbn [with_display fst snd c_name c_id c_email]. rewrite Hfind. repeat split.
Qed.

(** X28.  The two files of a run agree on the names.  For a sheet that
    loads and a window that parses, the table that [dedup_same_day] leaves is
    in the order of its timestamps, and two of its rows with the same
    identity and timestamp are the same row, so that the order among equal
    timestamps plays no part; the matrix row of an identity then shows the
    Student, ID and Email of the counts row of that identity (an empty cell
    filled with 0): both come from the earliest check-in of the identity in
    the window. *)
Theorem run_files_agree_on_names (to_datetime : string -> option Z)
    (attendance : attendance_csv) (start_date end_date : string)
    (df w : list att_row) (six_dates : list Z) :
  load_attendance to_datetime attendance = Returned df ->
  filter_weeks to_datetime df start_date end_date = Returned w ->
  let filtered := dedup_same_day w in
  StronglySorted (fun a b => ts_leb a b = true) filtered /\
  (forall a b, In a filtered -> In b filtered ->
     __identity a = __identity b -> __ts a = __ts b -> a = b) /\
  Forall (fun m =>
            match mx_identity m with
            | Some i =>
                exists c, In c (counts_of filtered) /\ c_identity c = i /\
                  mx_Student m = fillna0 (c_name c) /\ mx_ID m = fillna0 (c_id c) /\
                  mx_Email m = fillna0 (c_email c)
            | None => True
            end)
         (write_matrix filtered six_dates).
Proof.
  intros Hload Hfilter filtered.
  assert (Hdates : forall r, In r filtered -> __date r = dt_date (__ts r)).
  { intros r. exact (window_dates_from_timestamps _ _ _ _ _ _ r Hload Hfilter). }
  assert (Hsorted : StronglySorted (fun a b => ts_leb a b = true) filtered).
  { apply sorted_by_timestamp; [exact Hdates | apply dedup_same_day_sorted]. }
  split; [exact Hsorted|]. split.
  - intros a b Ha Hb Hi Ht.
    apply (distinct_keys_same_row identity_date filtered); try assumption.
    + apply drop_duplicates_NoDup, identity_date_eqb_spec.
    + unfold identity_date. now rewrite Hi, (Hdates a Ha), (Hdates b Hb), Ht.
  - apply Forall_forall. intros m Hm.
    destruct (mx_identity m) as [i|] eqn:Hi; [|exact I].
    apply (matrix_names_of_first_rows filtered six_dates m i); try assumption.
    now apply sort_by_fixpoint.
Qed.

Lemma run_files_agree_on_names_witness :
  load_attendance iso_to_datetime sample_csv = Returned sample_df /\
  filter_weeks iso_to_datetime sample_df "2025-09-29" "2025-10-10"
  = Returned sample_filtered /\
  StronglySorted (fun a b => ts_leb a b = true) (dedup_same_day sample_filtered).
Proof.
  assert (H1 : load_attendance iso_to_datetime sample_csv = Returned sample_df)
    by reflexivity.
  assert (H2 : filter_weeks iso_to_datetime sample_df "2025-09-29" "2025-10-10"
               = Returned sample_filtered) by reflexivity.
  split; [exact H1|]. split; [exact H2|].
  exact (proj1 (run_files_agree_on_names iso_to_datetime sample_csv
                  "2025-09-29" "2025-10-10" sample_df sample_filtered [] H1 H2)).
Defined.

(** ** The link to the next page *)

Lemma split_cons (sep : ascii) (s : string) : exists p ps, split sep s = p :: ps.
Proof.
  induction s as [|c s IH]; [now exists EmptyString, []|].
  cbn [split]. destruct (Ascii.eqb c sep); [now eexists; eexists|].
  destruct IH as (p & ps & ->). now eexists; eexists.
Qed.

Lemma prefix_cons (a b : ascii) (n s : string) :
  prefix (String a n) (String b s) = Ascii.eqb a b && prefix n s.
Proof.
  cbn [prefix]. destruct (ascii_dec a b) as [->|N].
  - now rewrite Ascii.eqb_refl.
  - apply Ascii.eqb_neq in N. now rewrite N.
Qed.

Lemma prefix_nil_r (n : string) : prefix n EmptyString = true -> n = EmptyString.
Proof. destruct n; [reflexivity | discriminate]. Qed.

(** A text without the separator starts a text exactly when it starts its
    first part. *)
Lemma prefix_first_part (sep : ascii) (needle s p : string) (ps : list string) :
  free_of sep needle = true -> split sep s = p :: ps ->
  prefix needle s = prefix needle p.
Proof.
  revert needle p ps. induction s as [|c s IH]; intros needle p ps Hfree Hsplit.
  - cbn [split] in Hsplit. now injection Hsplit as <- <-.
  - destruct needle as [|d needle]; [now destruct p|].
    cbn [free_of all_chars] in Hfree. apply andb_true_iff in Hfree as [Hd Hfree].
    apply negb_true_iff in Hd.
    cbn [split] in Hsplit. destruct (Ascii.eqb c sep) eqn:Ec.
    + injection Hsplit as <- <-. apply Ascii.eqb_eq in Ec. subst c.
      rewrite prefix_cons, Hd. reflexivity.
    + destruct (split_cons sep s) as (q & qs & Hq). rewrite Hq in Hsplit.
      injection Hsplit as <- <-. rewrite !prefix_cons.
      now rewrite (IH needle q qs Hfree Hq).
Qed.

(** A text without the separator lies in a text exactly when it lies in one
    of its parts. *)
Lemma contains_split (sep : ascii) (needle s : string) :
  free_of sep needle = true ->
  contains needle s = existsb (contains needle) (split sep s).
Proof.
  intros Hfree. induction s as [|c s IH].
  - cbn [split existsb contains]. now rewrite !orb_false_r.
  - destruct (split_cons sep (String c s)) as (p & ps & Hp).
    cbn [contains]. rewrite (prefix_first_part sep needle _ p ps Hfree Hp), IH.
    rewrite Hp. cbn [split] in Hp. destruct (Ascii.eqb c sep) eqn:Ec.
    + injection Hp as <- <-. cbn [existsb contains]. now rewrite orb_false_r.
    + destruct (split_cons sep s) as (q & qs & Hq). rewrite Hq in Hp |- *.
      injection Hp as <- <-. cbn [existsb contains].
      now rewrite orb_assoc.
Qed.

Lemma rel_next_free_of_comma : free_of "," rel_next = true.
Proof. reflexivity. Qed.

Lemma find_none_iff {A : Type} (p : A -> bool) (l : list A) :
  find p l = None <-> existsb p l = false.
Proof.
  induction l as [|x l IH]; [now split|].
  cbn [find existsb]. destruct (p x); [now split | exact IH].
Qed.

Lemma next_url_none_iff (link : string) :
  next_url link = None <-> contains rel_next link = false.
Proof.
  unfold next_url. rewrite (contains_split "," rel_next link rel_next_free_of_comma).
  rewrite <- find_none_iff. destruct (find _ _); cbn [option_map]; split; congruence.
Qed.

Lemma split_free (sep : ascii) (p : string) : free_of sep p = true -> split sep p = [p].
Proof.
  induction p as [|c p IH]; [reflexivity|]. cbn [free_of all_chars split].
  intros H. apply andb_true_iff in H as [Hc Hp]. apply negb_true_iff in Hc.
  rewrite Hc. unfold free_of in IH. now rewrite (IH Hp).
Qed.

Lemma split_app (sep : ascii) (p s : string) :
  free_of sep p = true -> split sep (p ++ String sep s) = p :: split sep s.
Proof.
  induction p as [|c p IH]; cbn [free_of all_chars]; intros H.
  - cbn [append split]. now rewrite Ascii.eqb_refl.
  - apply andb_true_iff in H as [Hc Hp]. apply negb_true_iff in Hc.
    cbn [append split]. rewrite Hc. unfold free_of in IH. now rewrite (IH Hp).
Qed.

Lemma split_join (sep : ascii) (parts : list string) :
  parts <> [] -> Forall (fun p => free_of sep p = true) parts ->
  split sep (join sep parts) = parts.
Proof.
  induction parts as [|p parts IH]; [congruence|]. intros _ Hfree.
  apply Forall_cons_iff in Hfree as [Hp Hparts].
  destruct parts as [|q parts]; [now apply split_free|].
  cbn [join]. rewrite (split_app sep p _ Hp). f_equal.
  apply IH; [discriminate | exact Hparts].
Qed.

Lemma find_char_app (c : ascii) (pre rest : string) :
  free_of c pre = true ->
  find_char c (pre ++ String c rest) = Z.of_nat (String.length pre).
Proof.
  induction pre as [|d pre IH]; cbn [free_of all_chars]; intros H.
  - cbn [append find_char String.length]. now rewrite Ascii.eqb_refl.
  - apply andb_true_iff in H as [Hd Hpre]. apply negb_true_iff in Hd.
    cbn [append find_char String.length]. rewrite Hd.
    unfold free_of in IH. rewrite (IH Hpre).
    destruct (Z.of_nat (String.length pre) <? 0) eqn:E; [apply Z.ltb_lt in E; lia | lia].
Qed.

Lemma free_of_app (c : ascii) (a b : string) :
  free_of c (a ++ b) = free_of c a && free_of c b.
Proof.
  unfold free_of. induction a as [|d a IH]; [reflexivity|].
  cbn [append all_chars]. now rewrite IH, andb_assoc.
Qed.

Lemma length_append (a b : string) :
  String.length (a ++ b) = (String.length a + String.length b)%nat.
Proof. induction a as [|c a IH]; [reflexivity|]. cbn [append String.length]. now rewrite IH. Qed.

Lemma substring_middle (a b c : string) :
  substring (String.length a) (String.length b) (a ++ b ++ c) = b.
Proof.
  induction a as [|x a IH]; cbn [String.length append].
  - induction b as [|y b IHb]; cbn [String.length append].
    + now destruct c.
    + cbn [substring]. now rewrite IHb.
  - cbn [substring]. exact IH.
Qed.

Lemma append_assoc' (a b c : string) : ((a ++ b) ++ c = a ++ (b ++ c))%string.
Proof. induction a as [|x a IH]; [reflexivity|]. cbn [append]. now rewrite IH. Qed.

Lemma slice_inside (s : string) (a len : nat) :
  (a + len <= String.length s)%nat ->
  slice s (Z.of_nat a) (Z.of_nat (a + len)) = substring a len s.
Proof.
  intros H. unfold slice.
  destruct (Z.of_nat a <? 0) eqn:Ea; [apply Z.ltb_lt in Ea; lia|].
  destruct (Z.of_nat (a + len) <? 0) eqn:Eb; [apply Z.ltb_lt in Eb; lia|].
  replace (Z.max 0 (Z.min (Z.of_nat (String.length s)) (Z.of_nat a))) with (Z.of_nat a)
    by lia.
  replace (Z.max 0 (Z.min (Z.of_nat (String.length s)) (Z.of_nat (a + len))))
    with (Z.of_nat (a + len)) by lia.
  rewrite Nat2Z.id. f_equal. lia.
Qed.

Lemma slice_link_part (before url after : string) :
  free_of "<" before = true -> free_of ">" before = true -> free_of ">" url = true ->
  let part := link_part before url after in
  slice part (find_char "<" part + 1) (find_char ">" part) = url.
Proof.
  intros Hlt Hgt Hurl part. unfold part, link_part.
  rewrite (find_char_app "<" before _ Hlt).
  assert (Eshape : (before ++ String "<" (url ++ String ">" after)
                    = (before ++ String "<" url) ++ String ">" after)%string).
  { rewrite append_assoc'. reflexivity. }
  assert (Egt : find_char ">" (before ++ String "<" (url ++ String ">" after))
                = Z.of_nat (String.length before + 1 + String.length url)).
  { rewrite Eshape, find_char_app.
    - rewrite length_append. cbn [String.length]. f_equal. lia.
    - rewrite free_of_app, Hgt. cbn [free_of all_chars andb]. exact Hurl. }
  rewrite Egt.
  replace (Z.of_nat (String.length before) + 1)
    with (Z.of_nat (String.length before + 1)) by lia.
  replace (String.length before + 1 + String.length url)%nat
    with ((String.length before + 1) + String.length url)%nat by lia.
  rewrite slice_inside.
  - replace (String.length before + 1)%nat
      with (String.length (before ++ String "<" EmptyString))
      by (rewrite length_append; reflexivity).
    replace (before ++ String "<" (url ++ String ">" after))%string
      with ((before ++ String "<" EmptyString) ++ url ++ String ">" after)%string
      by (rewrite append_assoc'; reflexivity).
    apply substring_middle.
  - rewrite !length_append. cbn [String.length]. rewrite length_append.
    cbn [String.length]. lia.
Qed.

Lemma find_first {A : Type} (p : A -> bool) (before after : list A) (x : A) :
  Forall (fun y => p y = false) before -> p x = true ->
  find p (before ++ x :: after) = Some x.
Proof.
  intros Hb Hx. induction Hb as [|y before Hy Hb IH]; cbn [app find].
  - now rewrite Hx.
  - now rewrite Hy.
Qed.

Lemma next_url_spec (parts_before parts_after : list string) (before url after : string) :
  Forall (fun p => free_of "," p = true /\ contains rel_next p = false) parts_before ->
  Forall (fun p => free_of "," p = true) parts_after ->
  free_of "," (link_part before url after) = true ->
  contains rel_next (link_part before url after) = true ->
  free_of "<" before = true -> free_of ">" before = true -> free_of ">" url = true ->
  next_url (join "," (parts_before ++ link_part before url after :: parts_after))
  = Some url.
Proof.
  intros Hb Ha Hfree Hrel Hlt Hgt Hurl. unfold next_url.
  rewrite split_join.
  - rewrite (find_first (contains rel_next) parts_before parts_after _); [|
      apply Forall_forall; intros p Hp; rewrite Forall_forall in Hb;
      exact (proj2 (Hb p Hp)) | exact Hrel].
    cbn [option_map]. f_equal. now apply slice_link_part.
  - now destruct parts_before.
  - apply Forall_app. split.
    + apply Forall_forall. intros p Hp. rewrite Forall_forall in Hb. exact (proj1 (Hb p Hp)).
    + apply Forall_cons; assumption.
Qed.

Lemma find_char_absent (c : ascii) (s : string) : free_of c s = true -> find_char c s = -1.
Proof.
  induction s as [|d s IH]; [reflexivity|]. cbn [free_of all_chars find_char].
  intros H. apply andb_true_iff in H as [Hd Hs]. apply negb_true_iff in Hd.
  rewrite Hd. unfold free_of in IH. now rewrite (IH Hs).
Qed.

Lemma slice_without_brackets (part : string) :
  free_of "<" part = true -> free_of ">" part = true ->
  slice part (find_char "<" part + 1) (find_char ">" part)
  = substring 0 (String.length part - 1) part.
Proof.
  intros Hlt Hgt. rewrite (find_char_absent _ _ Hlt), (find_char_absent _ _ Hgt).
  change (-1 + 1) with 0. unfold slice.
  change (0 <? 0) with false. change (-1 <? 0) with true. cbn iota.
  replace (Z.max 0 (Z.min (Z.of_nat (String.length part)) 0)) with 0 by lia.
  replace (Z.max 0 (Z.min (Z.of_nat (String.length part))
                          (-1 + Z.of_nat (String.length part))))
    with (Z.of_nat (String.length part - 1)) by lia.
  rewrite Z.sub_0_r, Nat2Z.id. reflexivity.
Qed.

(** X29.  The link to the next page of the Canvas roster.  There is no next
    page exactly when the Link header does not hold the text rel="next".  For
    a header that is a comma-separated list of parts without commas, of which
    the first part holding rel="next" has an address between angle brackets
    (no bracket before the address, no closing bracket in it), the next page
    is that address.  A part that holds rel="next" without angle brackets
    gives the part less its last character as the address. *)
Theorem next_url_of_link_header :
  (forall link, next_url link = None <-> contains rel_next link = false) /\
  (forall parts_before parts_after before url after,
     Forall (fun p => free_of "," p = true /\ contains rel_next p = false) parts_before ->
     Forall (fun p => free_of "," p = true) parts_after ->
     free_of "," (link_part before url after) = true ->
     contains rel_next (link_part before url after) = true ->
     free_of "<" before = true -> free_of ">" before = true -> free_of ">" url = true ->
     next_url (join "," (parts_before ++ link_part before url after :: parts_after))
     = Some url) /\
  (forall part,
     free_of "," part = true -> contains rel_next part = true ->
     free_of "<" part = true -> free_of ">" part = true ->
     next_url part = Some (substring 0 (String.length part - 1) part)).
Proof.
  split; [exact next_url_none_iff|]. split; [exact next_url_spec|].
  intros part Hcomma Hrel Hlt Hgt. unfold next_url.
  rewrite (split_free "," part Hcomma). cbn [find]. rewrite Hrel. cbn [option_map].
  f_equal. now apply slice_without_brackets.
Qed.

Lemma next_url_of_link_header_witness :
  next_url sample_link = Some "https://canvas.ucsc.edu/api/v1/courses/7/users?page=2".
Proof.
  apply (proj1 (proj2 next_url_of_link_header)
           [ link_part EmptyString "https://canvas.ucsc.edu/api/v1/courses/7/users?page=1"
               ("; rel=" ++ String double_quote ("current" ++ String double_quote EmptyString))%string ]
           [] EmptyString "https://canvas.ucsc.edu/api/v1/courses/7/users?page=2"
           ("; " ++ rel_next)%string).
  - apply Forall_cons; [split; reflexivity | apply Forall_nil].
  - apply Forall_nil.
  - reflexivity.
  - reflexivity.
  - reflexivity.
  - reflexivity.
  - reflexivity.
Defined.

(** ** Normalizing twice *)

Lemma lstrip_first_ok (s : string) : first_ok s = true -> lstrip s = s.
Proof.
  destruct s as [|c s]; [reflexivity|]. cbn [first_ok lstrip].
  intros H. apply negb_true_iff in H. now rewrite H.
Qed.

Lemma first_ok_lstrip (s : string) : first_ok (lstrip s) = true.
Proof.
  induction s as [|c s IH]; [reflexivity|]. cbn [lstrip].
  destruct (is_space c) eqn:E; [exact IH|]. cbn [first_ok]. now rewrite E.
Qed.

Lemma rstrip_last_ok (s : string) : last_ok s = true -> rstrip s = s.
Proof.
  induction s as [|c s IH]; [reflexivity|]. destruct s as [|d s].
  - cbn [last_ok rstrip]. intros H. apply negb_true_iff in H. now rewrite H.
  - intros H. change (last_ok (String c (String d s))) with (last_ok (String d s)) in H.
    change (rstrip (String c (String d s)))
      with (match rstrip (String d s) with
            | EmptyString => if is_space c then EmptyString else String c EmptyString
            | r => String c r
            end).
    now rewrite (IH H).
Qed.

Lemma last_ok_cons (c : ascii) (s : string) :
  s <> EmptyString -> last_ok (String c s) = last_ok s.
Proof. destruct s; [congruence | reflexivity]. Qed.

Lemma last_ok_rstrip (s : string) : last_ok (rstrip s) = true.
Proof.
  induction s as [|c s IH]; [reflexivity|]. cbn [rstrip].
  destruct (rstrip s) as [|d r] eqn:E.
  - destruct (is_space c) eqn:Ec; [reflexivity|]. cbn [last_ok]. now rewrite Ec.
  - rewrite last_ok_cons by discriminate. exact IH.
Qed.

Lemma first_ok_rstrip (s : string) : first_ok s = true -> first_ok (rstrip s) = true.
Proof.
  destruct s as [|c s]; [reflexivity|]. cbn [first_ok rstrip]. intros H.
  destruct (rstrip s); [|exact H].
  apply negb_true_iff in H. rewrite H. cbn [first_ok]. now rewrite H.
Qed.

Lemma is_space_blank (c : ascii) : Ascii.eqb c " " = true -> is_space c = true.
Proof. intros H. apply Ascii.eqb_eq in H. now subst c. Qed.

Lemma first_ok_lower (s : string) : first_ok (lower s) = first_ok s.
Proof. destruct s as [|c s]; [reflexivity|]. cbn [lower first_ok]. now rewrite lower_char_space. Qed.

Lemma last_ok_lower (s : string) : last_ok (lower s) = last_ok s.
Proof.
  induction s as [|c s IH]; [reflexivity|]. destruct s as [|d s].
  - cbn [lower last_ok]. now rewrite lower_char_space.
  - change (lower (String c (String d s)))
      with (String (lower_char c) (lower (String d s))).
    change (last_ok (String c (String d s))) with (last_ok (String d s)).
    rewrite <- IH. apply last_ok_cons. cbn [lower]. discriminate.
Qed.

Lemma first_ok_remove_spaces (s : string) :
  first_ok s = true -> first_ok (remove_spaces s) = true.
Proof.
  destruct s as [|c s]; [reflexivity|]. cbn [first_ok remove_spaces]. intros H.
  destruct (Ascii.eqb c " ") eqn:E; [|exact H].
  apply is_space_blank in E. rewrite E in H. discriminate H.
Qed.

Lemma last_ok_remove_spaces (s : string) :
  last_ok s = true ->
  last_ok (remove_spaces s) = true /\
  (s <> EmptyString -> remove_spaces s <> EmptyString).
Proof.
  induction s as [|c s IH]; [now split|]. destruct s as [|d s].
  - cbn [last_ok remove_spaces]. intros H.
    destruct (Ascii.eqb c " ") eqn:E.
    + apply is_space_blank in E. rewrite E in H. discriminate H.
    + cbn [last_ok]. split; [exact H | discriminate].
  - intros H. change (last_ok (String c (String d s))) with (last_ok (String d s)) in H.
    destruct (IH H) as [Hlast Hne].
    assert (Hne' : remove_spaces (String d s) <> EmptyString) by (apply Hne; discriminate).
    change (remove_spaces (String c (String d s)))
      with (if Ascii.eqb c " " then remove_spaces (String d s)
            else String c (remove_spaces (String d s))).
    destruct (Ascii.eqb c " ").
    + split; [exact Hlast | intros _; exact Hne'].
    + split; [now rewrite last_ok_cons | discriminate].
Qed.

Lemma lower_clean (s : string) : all_chars is_clean s = true -> lower s = s.
Proof.
  induction s as [|c s IH]; [reflexivity|]. cbn [all_chars lower]. intros H.
  apply andb_true_iff in H as [Hc Hs]. rewrite (IH Hs). f_equal.
  unfold is_clean in Hc. apply andb_true_iff in Hc as [_ Hup].
  apply negb_true_iff in Hup. unfold is_upper in Hup. unfold lower_char.
  now rewrite Hup.
Qed.

Lemma remove_spaces_clean_id (s : string) :
  all_chars is_clean s = true -> remove_spaces s = s.
Proof.
  induction s as [|c s IH]; [reflexivity|]. cbn [all_chars remove_spaces]. intros H.
  apply andb_true_iff in H as [Hc Hs]. rewrite (IH Hs).
  unfold is_clean in Hc. apply andb_true_iff in Hc as [Hb _].
  apply negb_true_iff in Hb. now rewrite Hb.
Qed.

Lemma trimmed_fixpoint (e : string) :
  trimmed e -> remove_spaces (lower (strip e)) = e.
Proof.
  intros (Hf & Hl & Hc). unfold strip.
  rewrite (lstrip_first_ok e Hf), (rstrip_last_ok e Hl), (lower_clean e Hc).
  now apply remove_spaces_clean_id.
Qed.

Lemma trimmed_normal_form (s : string) : trimmed (remove_spaces (lower (strip s))).
Proof.
  unfold trimmed. split; [|split].
  - apply first_ok_remove_spaces. rewrite first_ok_lower. unfold strip.
    apply first_ok_rstrip, first_ok_lstrip.
  - apply last_ok_remove_spaces. rewrite last_ok_lower. unfold strip. apply last_ok_rstrip.
  - apply remove_spaces_clean, lower_not_upper.
Qed.

Lemma last_ok_tail (c : ascii) (s : string) : last_ok (String c s) = true -> last_ok s = true.
Proof. destruct s; [reflexivity | now intros H]. Qed.

Lemma anchored_match_all (atoms : list re_atom) (t : string) (n : nat) :
  forallb is_char_atom atoms = true -> last_ok t = true ->
  re_match_here (atoms ++ [EndOfString]) t = Some n -> n = String.length t.
Proof.
  revert t n. induction atoms as [|a atoms IH]; intros t n Hatoms Hlast Hm.
  - cbn [app re_match_here] in Hm.
    destruct t as [|c [|d t]]; cbn in Hm.
    + now injection Hm as <-.
    + destruct (Ascii.eqb c "010"%char) eqn:E; [|discriminate Hm].
      apply Ascii.eqb_eq in E. subst c. discriminate Hlast.
    + destruct (Ascii.eqb c "010"%char); discriminate Hm.
  - cbn [forallb] in Hatoms. apply andb_true_iff in Hatoms as [Ha Hatoms].
    destruct a as [c| |]; [| |discriminate Ha]; cbn [app re_match_here] in Hm;
      (destruct t as [|d t]; [discriminate Hm|]).
    + destruct (Ascii.eqb c d); [|discriminate Hm].
      destruct (re_match_here (atoms ++ [EndOfString]) t) as [m|] eqn:E; [|discriminate Hm].
      injection Hm as <-. cbn [String.length]. f_equal.
      exact (IH t m Hatoms (last_ok_tail _ _ Hlast) E).
    + destruct (Ascii.eqb d newline); [discriminate Hm|].
      destruct (re_match_here (atoms ++ [EndOfString]) t) as [m|] eqn:E; [|discriminate Hm].
      injection Hm as <-. cbn [String.length]. f_equal.
      exact (IH t m Hatoms (last_ok_tail _ _ Hlast) E).
Qed.

Lemma anchored_match_length (atoms : list re_atom) (t : string) (n : nat) :
  forallb is_char_atom atoms = true ->
  re_match_here (atoms ++ [EndOfString]) t = Some n ->
  (String.length t <= List.length atoms + 1)%nat.
Proof.
  revert t n. induction atoms as [|a atoms IH]; intros t n Hatoms Hm.
  - cbn [app re_match_here] in Hm.
    destruct t as [|c [|d t]]; cbn [String.length List.length]; try lia.
    exfalso. cbn in Hm. destruct (Ascii.eqb c "010"%char); discriminate Hm.
  - cbn [forallb] in Hatoms. apply andb_true_iff in Hatoms as [Ha Hatoms].
    destruct a as [c| |]; [| |discriminate Ha]; cbn [app re_match_here] in Hm;
      (destruct t as [|d t]; [discriminate Hm|]).
    + destruct (Ascii.eqb c d); [|discriminate Hm].
      destruct (re_match_here (atoms ++ [EndOfString]) t) as [m|] eqn:E; [|discriminate Hm].
      pose proof (IH t m Hatoms E). cbn [String.length List.length]. lia.
    + destruct (Ascii.eqb d newline); [discriminate Hm|].
      destruct (re_match_here (atoms ++ [EndOfString]) t) as [m|] eqn:E; [|discriminate Hm].
      pose proof (IH t m Hatoms E). cbn [String.length List.length]. lia.
Qed.

Lemma re_sub_from_skip_all (re : list re_atom) (repl s : string) :
  re_sub_from re repl s (String.length s) = EmptyString.
Proof. induction s as [|c s IH]; [reflexivity | exact IH]. Qed.

Lemma append_nil_r (s : string) : (s ++ EmptyString)%string = s.
Proof. induction s as [|c s IH]; [reflexivity|]. cbn [append]. now rewrite IH. Qed.

(** One fix either leaves a trimmed text as it is or cuts it and ends it
    with the replacement. *)
Lemma re_sub_from_step (re : list re_atom) (repl s : string) :
  anchored re -> last_ok s = true ->
  re_sub_from re repl s O = s \/
  exists pre post, s = (pre ++ post)%string /\ re_sub_from re repl s O = (pre ++ repl)%string.
Proof.
  intros (atoms & -> & Hatoms). induction s as [|c s IH]; intros Hlast; [now left|].
  cbn [re_sub_from].
  destruct (re_match_here (atoms ++ [EndOfString]) (String c s)) as [[|n]|] eqn:E.
  - destruct (IH (last_ok_tail _ _ Hlast)) as [->|(pre & post & Hs & ->)]; [now left|].
    right. exists (String c pre), post. split; [cbn [append]; now rewrite <- Hs | reflexivity].
  - right. exists EmptyString, (String c s). split; [reflexivity|].
    pose proof (anchored_match_all atoms _ _ Hatoms Hlast E) as Hn.
    cbn [String.length] in Hn. injection Hn as ->.
    rewrite re_sub_from_skip_all. cbn [append]. apply append_nil_r.
  - destruct (IH (last_ok_tail _ _ Hlast)) as [->|(pre & post & Hs & ->)]; [now left|].
    right. exists (String c pre), post. split; [cbn [append]; now rewrite <- Hs | reflexivity].
Qed.

Lemma re_sub_from_no_match (re : list re_atom) (repl s : string) :
  (forall t, In t (tails s) -> t <> EmptyString -> re_match_here re t = None) ->
  re_sub_from re repl s O = s.
Proof.
  induction s as [|c s IH]; intros H; [reflexivity|].
  cbn [re_sub_from]. rewrite (H (String c s)) by (try discriminate; now left).
  f_equal. apply IH. intros t Ht. apply H. cbn [tails]. now right.
Qed.

Lemma tails_app (pre g t : string) :
  In t (tails (pre ++ g)) -> (exists p, t = (p ++ g)%string) \/ In t (tails g).
Proof.
  induction pre as [|c pre IH]; cbn [append]; intros H; [now right|].
  cbn [tails] in H. destruct H as [<-|H]; [|exact (IH H)].
  left. now exists (String c pre).
Qed.

Lemma apply_fixes_unchanged (fixes : list (string * string)) (x : string) :
  settled fixes x -> apply_fixes fixes x = x.
Proof.
  unfold settled, apply_fixes. induction 1 as [|[bad good] fixes Hx _ IH]; [reflexivity|].
  cbn [fold_left]. cbn [fst snd] in Hx. now rewrite Hx.
Qed.

Lemma apply_fixes_settles (all fixes : list (string * string)) (e : string) :
  Forall (fun fx => anchored (re_compile (fst fx))) fixes ->
  (forall fx pre, In fx fixes -> settled all (pre ++ snd fx)) ->
  incl fixes all -> last_ok e = true ->
  (settled fixes e /\ apply_fixes fixes e = e) \/ settled all (apply_fixes fixes e).
Proof.
  intros Hanch. revert e. induction Hanch as [|[bad good] fixes Hfx _ IH];
    intros e Hgood Hincl Hlast.
  - left. split; [constructor | reflexivity].
  - cbn [fst] in Hfx.
    assert (Hincl' : incl fixes all) by (intros x Hx; apply Hincl; now right).
    assert (Hgood' : forall fx pre, In fx fixes -> settled all (pre ++ snd fx))
      by (intros fx pre Hin; apply Hgood; now right).
    unfold apply_fixes. cbn [fold_left]. fold (apply_fixes fixes (re_sub bad good e)).
    destruct (re_sub_from_step (re_compile bad) good e Hfx Hlast)
      as [Hsame|(pre & post & _ & Hjump)].
    + unfold re_sub. rewrite Hsame.
      destruct (IH e Hgood' Hincl' Hlast) as [(Hset & Heq)|Hset].
      * left. split; [|exact Heq]. constructor; [exact Hsame | exact Hset].
      * now right.
    + right. unfold re_sub. rewrite Hjump.
      assert (Hset : settled all (pre ++ good)) by (apply (Hgood (bad, good)); now left).
      rewrite apply_fixes_unchanged; [exact Hset|].
      unfold settled in *. rewrite Forall_forall in *. intros fx Hin. apply Hset, Hincl'.
      exact Hin.
Qed.

Lemma match_length_bound (re : list re_atom) (t : string) (n : nat) :
  re <> [] -> last re EndOfString = EndOfString ->
  forallb is_char_atom (removelast re) = true ->
  re_match_here re t = Some n -> (String.length t <= List.length re)%nat.
Proof.
  intros Hne Hlast Hatoms Hm.
  rewrite (app_removelast_last EndOfString Hne), Hlast in Hm.
  pose proof (anchored_match_length _ _ _ Hatoms Hm) as Hlen.
  rewrite (app_removelast_last EndOfString Hne), length_app. exact Hlen.
Qed.

Lemma option_map_S_none (x : option nat) : x = None -> option_map S x = None.
Proof. now intros ->. Qed.

(** Matching a pattern that opens with literals against a text whose first
    characters are not known. *)
Ltac no_match :=
  lazymatch goal with
  | |- re_match_here (Lit ?c :: ?re) (String ?d ?s) = None =>
      tryif is_var d
      then (change (re_match_here (Lit c :: re) (String d s))
              with (if Ascii.eqb c d then option_map S (re_match_here re s) else None);
            destruct (Ascii.eqb c d); [apply option_map_S_none; no_match | reflexivity])
      else (vm_compute; reflexivity)
  | |- _ => vm_compute; reflexivity
  end.

Ltac compile_pattern :=
  match goal with
  | |- context [re_compile ?pat] =>
      let re := eval vm_compute in (re_compile pat) in
      change (re_compile pat) with re
  end.

(** No pattern of the table matches a text that ends with a replacement of
    the table, wherever the match starts. *)
Lemma no_fix_matches_fixed (fx fx' : string * string) (p : string) :
  In fx COMMON_DOMAIN_FIXES -> In fx' COMMON_DOMAIN_FIXES ->
  re_match_here (re_compile (fst fx)) (p ++ snd fx') = None.
Proof.
  intros H H'. cbn [COMMON_DOMAIN_FIXES In] in H, H'.
  assert (Hlong : forall c1 c2 c3 c4 q,
             re_match_here (re_compile (fst fx))
               (String c1 (String c2 (String c3 (String c4 (q ++ snd fx'))))) = None).
  { intros c1 c2 c3 c4 q.
    destruct (re_match_here _ _) as [n|] eqn:E; [exfalso|reflexivity].
    assert (Hlen : (13 <= String.length
                      (String c1 (String c2 (String c3 (String c4 (q ++ snd fx'))))))%nat).
    { cbn [String.length]. rewrite length_append.
      repeat (destruct H' as [<-|H']; [cbn [snd String.length]; lia|]). destruct H'. }
    repeat (destruct H as [<-|H];
            [apply match_length_bound in E;
             [cbn [fst] in E; vm_compute (List.length _) in E; lia
             | discriminate | reflexivity | reflexivity]|]).
    destruct H. }
  destruct p as [|c1 [|c2 [|c3 [|c4 q]]]]; [| | | |apply Hlong]; clear Hlong;
    repeat (destruct H as [<-|H]; [|]); try (now destruct H);
    repeat (destruct H' as [<-|H']; [|]); try (now destruct H');
    cbn [fst snd append]; compile_pattern; no_match.
Qed.

Lemma fixed_settled (fx : string * string) (pre : string) :
  In fx COMMON_DOMAIN_FIXES -> settled COMMON_DOMAIN_FIXES (pre ++ snd fx).
Proof.
  intros Hfx. unfold settled. apply Forall_forall. intros fx0 Hfx0.
  unfold re_sub. apply re_sub_from_no_match. intros t Ht _.
  apply tails_app in Ht as [(p & ->)|Ht]; [now apply no_fix_matches_fixed|].
  cbn [COMMON_DOMAIN_FIXES In] in Hfx, Hfx0.
  repeat (destruct Hfx as [<-|Hfx]; [|]); try (now destruct Hfx);
    cbn [snd tails In] in Ht;
    repeat (destruct Ht as [<-|Ht]; [|]); try (now destruct Ht);
    repeat (destruct Hfx0 as [<-|Hfx0]; [|]); try (now destruct Hfx0);
    vm_compute; reflexivity.
Qed.

Lemma last_ok_app (a b : string) :
  b <> EmptyString -> last_ok (a ++ b) = last_ok b.
Proof.
  intros Hb. induction a as [|c a IH]; [reflexivity|].
  cbn [append]. rewrite last_ok_cons; [exact IH|]. now destruct a, b.
Qed.

Lemma re_sub_edges (re : list re_atom) (repl s : string) :
  anchored re -> repl <> EmptyString ->
  first_ok repl = true -> last_ok repl = true ->
  first_ok s = true -> last_ok s = true ->
  first_ok (re_sub_from re repl s O) = true /\ last_ok (re_sub_from re repl s O) = true.
Proof.
  intros Hre Hne Hf Hl Hfs Hls.
  destruct (re_sub_from_step re repl s Hre Hls) as [->|(pre & post & Hs & ->)];
    [now split|].
  split.
  - destruct pre as [|c pre]; [exact Hf|]. subst s. exact Hfs.
  - now rewrite last_ok_app.
Qed.

Lemma apply_fixes_edges (fixes : list (string * string)) (e : string) :
  Forall well_formed_fix fixes ->
  first_ok e = true -> last_ok e = true ->
  first_ok (apply_fixes fixes e) = true /\ last_ok (apply_fixes fixes e) = true.
Proof.
  intros Hwf. revert e. induction Hwf as [|[bad good] fixes Hfx _ IH]; intros e Hf Hl;
    [now split|].
  destruct Hfx as (Hre & Hne & Hgf & Hgl). cbn [fst snd] in *.
  unfold apply_fixes. cbn [fold_left]. fold (apply_fixes fixes (re_sub bad good e)).
  destruct (re_sub_edges (re_compile bad) good e Hre Hne Hgf Hgl Hf Hl) as [Hf' Hl'].
  now apply IH.
Qed.

Lemma anchored_compiled (re : list re_atom) :
  re <> [] -> last re EndOfString = EndOfString ->
  forallb is_char_atom (removelast re) = true -> anchored re.
Proof.
  intros Hne Hlast Hatoms. exists (removelast re). split; [|exact Hatoms].
  pose proof (app_removelast_last EndOfString Hne) as H. rewrite Hlast in H. exact H.
Qed.

Lemma fixes_well_formed : Forall well_formed_fix COMMON_DOMAIN_FIXES.
Proof.
  unfold COMMON_DOMAIN_FIXES.
  repeat (apply Forall_cons;
          [split; [apply anchored_compiled; [discriminate | reflexivity | reflexivity]
                  | repeat split; discriminate || reflexivity]|]).
  apply Forall_nil.
Qed.

Lemma apply_fixes_trimmed (e : string) :
  trimmed e -> trimmed (apply_fixes COMMON_DOMAIN_FIXES e).
Proof.
  intros (Hf & Hl & Hc).
  destruct (apply_fixes_edges _ e fixes_well_formed Hf Hl) as [Hf' Hl'].
  split; [exact Hf'|]. split; [exact Hl'|].
  apply apply_fixes_all_chars; [|exact Hc].
  repeat constructor.
Qed.

Lemma apply_fixes_idempotent (e : string) :
  last_ok e = true ->
  apply_fixes COMMON_DOMAIN_FIXES (apply_fixes COMMON_DOMAIN_FIXES e)
  = apply_fixes COMMON_DOMAIN_FIXES e.
Proof.
  intros Hl. apply apply_fixes_unchanged.
  destruct (apply_fixes_settles COMMON_DOMAIN_FIXES COMMON_DOMAIN_FIXES e) as [(Hs & ->)|Hs].
  - apply Forall_forall. intros fx Hfx.
    pose proof fixes_well_formed as Hwf. rewrite Forall_forall in Hwf.
    exact (proj1 (Hwf fx Hfx)).
  - intros fx pre Hfx. now apply fixed_settled.
  - apply incl_refl.
  - exact Hl.
  - exact Hs.
  - exact Hs.
Qed.

(** X30.  Normalizing an email twice gives what normalizing it once gives,
    and so the email of a loaded row is its own normal form.  The email join
    relies on it: the emails of the sheet are normalized when the sheet is
    loaded and again when they are joined, those of the gradebook once. *)
Theorem normalize_email_idempotent :
  (forall email, normalize_email (normalize_email email) = normalize_email email) /\
  (forall to_datetime csv i line,
     normalize_email (__email (load_row to_datetime csv i line))
     = __email (load_row to_datetime csv i line)).
Proof.
  assert (Hidem : forall email,
             normalize_email (normalize_email email) = normalize_email email).
  { intros [s|]; [|reflexivity]. unfold normalize_email. f_equal.
    pose proof (trimmed_normal_form s) as He.
    pose proof (apply_fixes_trimmed _ He) as Hr.
    rewrite (trimmed_fixpoint _ Hr).
    apply apply_fixes_idempotent. exact (proj1 (proj2 He)). }
  split; [exact Hidem|].
  intros to_datetime csv i line. unfold load_row. cbn [__email].
  destruct (email_col csv); [apply Hidem | reflexivity].
Qed.
